(** * TestRail to Qase migration: text transforms, id safety and field maps

    A shallow embedding of the parts of the importer that the specification
    makes checkable statements about:

    - [support/text_utils.py]: [fix_numbering], [format_links_as_markdown],
      [convert_estimate_time_to_hours], [convert_testrail_date_to_iso];
    - [entities/cases.py]: the id choice of [Cases._prepare_case] and the
      enum branch of [Cases._import_custom_fields_for_case];
    - [entities/fields.py]: [Fields._create_tr_key_to_qase_id_mapping], the
      three system enum maps and [Fields._create_refs_field];
    - [support/mappings.py]: the mapping store.

    Around these it covers the code they call and the code that calls
    them:

    - [entities/cases.py]: the page loop of [import_cases_for_suite],
      [_set_type], [_set_priority], [_set_refs] with [_get_ref], the
      steps of a step field and the original id written by
      [_prepare_case];
    - [entities/fields.py]: the selection loop of [import_fields_async]
      with [_get_fields_to_import], the creation of a new global field
      and [_create_testrail_original_id_field];
    - [service/qase.py]: [__split_values] and the values that
      [prepare_custom_field_data] builds;
    - [entities/attachments.py]: [check_and_replace_attachments];
    - [api/testrail.py]: the retry loop of [send_request].

    Python [str] values are modelled by [string]; a character is a code
    point below 256, and the character classes of [re] and of [str.strip]
    and [str.lower] are the ones CPython uses on that range.  Dictionaries
    whose iteration order is observed by the code are association lists
    with Python's update-in-place insertion; the others are [gmap]s. *)

From Stdlib Require Import ZArith Lia Bool List Ascii String.
From Stdlib Require Import Numbers.DecimalString.
From Stdlib Require Floats.SpecFloat.
From stdpp Require Import base option list gmap strings.

Local Open Scope string_scope.
Local Open Scope list_scope.
Local Open Scope Z_scope.

(** ** Python values, exceptions and a few built-ins *)

Module Py.

(** The dynamically typed values that reach the modelled functions:
    scalars, and lists of scalars (the values of a multi-select field). *)
Inductive scalar : Type :=
| PyNone
| PyBool (b : bool)
| PyInt (z : Z)
| PyStr (s : string).

Inductive pyobj : Type :=
| Scalar (x : scalar)
| PyList (l : list scalar).

Coercion Scalar : scalar >-> pyobj.

Inductive exn : Type :=
| AttributeError
| KeyError
| ValueError
| OverflowError
| TypeError
| IndexError.

(** Outcome of a call: a returned value or a raised exception. *)
Inductive result (A : Type) : Type :=
| Returned (a : A)
| Raised (e : exn).
Arguments Returned {A} a.
Arguments Raised {A} e.

Definition bind {A B} (r : result A) (k : A -> result B) : result B :=
  match r with
  | Returned a => k a
  | Raised e => Raised e
  end.

(** [bool(x)]. *)
Definition truthy_scalar (x : scalar) : bool :=
  match x with
  | PyNone => false
  | PyBool b => b
  | PyInt z => negb (z =? 0)
  | PyStr s => negb (String.eqb s "")
  end.

Definition truthy (x : pyobj) : bool :=
  match x with
  | Scalar x => truthy_scalar x
  | PyList l => match l with [] => false | _ => true end
  end.

(** [isinstance(x, str)]. *)
Definition is_str (x : pyobj) : bool :=
  match x with Scalar (PyStr _) => true | _ => false end.

(** [str(n)] for an [int]. *)
Definition str_of_int (z : Z) : string :=
  NilZero.string_of_int (Z.to_int z).

(** [str(x)] on a scalar. *)
Definition str (x : scalar) : string :=
  match x with
  | PyNone => "None"
  | PyBool true => "True"
  | PyBool false => "False"
  | PyInt z => str_of_int z
  | PyStr s => s
  end.

Definition code (c : ascii) : nat := nat_of_ascii c.

Definition between (lo hi n : nat) : bool :=
  Nat.leb lo n && Nat.leb n hi.

(** [str.isspace], also the class [\s] of [re] on [str] patterns. *)
Definition is_space (c : ascii) : bool :=
  let n := code c in
  between 9 13 n || between 28 32 n || Nat.eqb n 133 || Nat.eqb n 160.

(** The class [\d] of [re]. *)
Definition is_digit (c : ascii) : bool := between 48 57 (code c).

(** The class [\w] of [re]: [str.isalnum] or an underscore. *)
Definition is_word (c : ascii) : bool :=
  let n := code c in
  between 48 57 n || between 65 90 n || Nat.eqb n 95 || between 97 122 n
  || Nat.eqb n 170 || between 178 179 n || Nat.eqb n 181
  || between 185 186 n || between 188 190 n || between 192 214 n
  || between 216 246 n || between 248 255 n.

(** [str.lower] on one character. *)
Definition lower_char (c : ascii) : ascii :=
  let n := code c in
  if between 65 90 n || (between 192 222 n && negb (Nat.eqb n 215))
  then ascii_of_nat (n + 32) else c.

Fixpoint lower (s : string) : string :=
  match s with
  | EmptyString => EmptyString
  | String c s' => String (lower_char c) (lower s')
  end.

Fixpoint lstrip (s : string) : string :=
  match s with
  | EmptyString => EmptyString
  | String c s' => if is_space c then lstrip s' else s
  end.

Fixpoint rstrip (s : string) : string :=
  match s with
  | EmptyString => EmptyString
  | String c s' =>
      match rstrip s' with
      | EmptyString => if is_space c then EmptyString else String c EmptyString
      | r => String c r
      end
  end.

(** [s.strip()]. *)
Definition strip (s : string) : string := rstrip (lstrip s).

Definition newline : ascii := ascii_of_nat 10.

(** [s.split(sep)] for a one-character separator: never empty. *)
Fixpoint split (sep : ascii) (s : string) : list string :=
  match s with
  | EmptyString => [EmptyString]
  | String c s' =>
      if Ascii.eqb c sep then EmptyString :: split sep s'
      else match split sep s' with
           | h :: t => String c h :: t
           | [] => [String c EmptyString]
           end
  end.

(** [sep.join(parts)]. *)
Fixpoint join (sep : string) (parts : list string) : string :=
  match parts with
  | [] => EmptyString
  | [p] => p
  | p :: rest => p +:+ sep +:+ join sep rest
  end.

(** [sep in s] for a one-character separator. *)
Fixpoint contains (sep : ascii) (s : string) : bool :=
  match s with
  | EmptyString => false
  | String c s' => Ascii.eqb c sep || contains sep s'
  end.

(** [s.split(sep, 1)] when [sep in s]: the text before the first
    separator and the text after it. *)
Fixpoint split_once (sep : ascii) (s : string) : string * string :=
  match s with
  | EmptyString => (EmptyString, EmptyString)
  | String c s' =>
      if Ascii.eqb c sep then (EmptyString, s')
      else let '(h, t) := split_once sep s' in (String c h, t)
  end.

(** Longest prefix of characters in a class, and the rest. *)
Fixpoint span (p : ascii -> bool) (s : string) : string * string :=
  match s with
  | EmptyString => (EmptyString, EmptyString)
  | String c s' =>
      if p c then let '(h, t) := span p s' in (String c h, t)
      else (EmptyString, s)
  end.

(** [s.startswith(p)], returning the remainder. *)
Fixpoint strip_prefix (p s : string) : option string :=
  match p, s with
  | EmptyString, _ => Some s
  | String a p', String b s' =>
      if Ascii.eqb a b then strip_prefix p' s' else None
  | String _ _, EmptyString => None
  end.

End Py.

Export Py.

(** ** IEEE binary64, as far as the estimate parser uses it

    [float(s)] for a decimal literal, [/], [+] and [math.ceil], on the
    specification floats of the standard library ([prec = 53],
    [emax = 1024], round to nearest even). *)

Module Float.

Import Stdlib.Floats.SpecFloat.

Definition prec : Z := 53.
Definition emax : Z := 1024.

Definition digit_value (c : ascii) : Z := Z.of_nat (code c) - 48.

Fixpoint digits_value_from (acc : Z) (s : string) : Z :=
  match s with
  | EmptyString => acc
  | String c s' => digits_value_from (10 * acc + digit_value c) s'
  end.

(** Value of a string of decimal digits. *)
Definition digits_value (s : string) : Z := digits_value_from 0 s.

(** The double nearest to [n / d], for [0 <= n] and [0 < d]. *)
Definition of_ratio (n d : Z) : spec_float :=
  match n with
  | Z0 => S754_zero false
  | Zpos _ =>
      let '(q, e, l) := SFdiv_core_binary prec emax n 0 d 0 in
      binary_round_aux prec emax false q e l
  | Zneg _ => S754_nan
  end.

(** [float(n)] for an [int]. *)
Definition of_int (n : Z) : spec_float := binary_normalize prec emax n 0 false.

(** [float(s)] for [s] matching [\d+(?:\.\d+)?]. *)
Definition of_decimal (s : string) : spec_float :=
  let '(int_part, rest) := span is_digit s in
  match rest with
  | String _ frac_part =>
      of_ratio (digits_value (int_part +:+ frac_part))
               (10 ^ Z.of_nat (String.length frac_part))
  | EmptyString => of_ratio (digits_value int_part) 1
  end.

Definition div (x y : spec_float) : spec_float := SFdiv prec emax x y.
Definition add (x y : spec_float) : spec_float := SFadd prec emax x y.

(** [math.ceil(x)]: an [int], [OverflowError] on an infinity and
    [ValueError] on a NaN. *)
Definition ceil (x : spec_float) : result Z :=
  match x with
  | S754_zero _ => Returned 0
  | S754_infinity _ => Raised OverflowError
  | S754_nan => Raised ValueError
  | S754_finite s m e =>
      let v := if s then Zneg m else Zpos m in
      Returned (if 0 <=? e then v * 2 ^ e else - ((- v) / 2 ^ (- e)))
  end.

End Float.

(** ** support/text_utils.py *)

Module TextUtils.

(** *** fix_numbering *)

(** [re.match(r'^(\d+)\. ', line)]: on a match, the text after it. *)
Definition numbering_match (line : string) : option string :=
  let '(digits, rest) := span is_digit line in
  match digits with
  | EmptyString => None
  | String _ _ => strip_prefix ". " rest
  end.

(** [re.sub(r'^\d+\. ', f'{block_number}. ', current_line)]. *)
Definition renumber (block_number : nat) (current_line : string) : string :=
  match numbering_match current_line with
  | Some rest => str_of_int (Z.of_nat block_number) +:+ ". " +:+ rest
  | None => current_line
  end.

(** The inner [while]: [lines] are the lines from index [i] on.  It
    renumbers the numbered lines at their head and returns them with the
    lines left when it breaks or runs out of lines. *)
Fixpoint numbered_block (block_number : nat) (lines : list string)
  : list string * list string :=
  match lines with
  | [] => ([], [])
  | current_line :: rest =>
      match numbering_match current_line with
      | Some _ =>
          let '(out, remaining) := numbered_block (S block_number) rest in
          (renumber block_number current_line :: out, remaining)
      | None => ([], lines)
      end
  end.

(** The outer [while i < len(lines)].  Every turn moves [i] forward, so
    [len(lines)] turns are enough; [fuel] counts them. *)
Fixpoint fix_lines (fuel : nat) (lines : list string) : list string :=
  match fuel with
  | O => []
  | S fuel' =>
      match lines with
      | [] => []
      | line :: rest =>
          match numbering_match line with
          | Some _ =>
              let '(out, remaining) := numbered_block 1 lines in
              out ++ fix_lines fuel' remaining
          | None => line :: fix_lines fuel' rest
          end
      end
  end.

Definition fix_numbering_str (text : string) : string :=
  let lines := split newline text in
  join (String newline EmptyString) (fix_lines (List.length lines) lines).

(** [fix_numbering(text)]: a value without [split] raises at the call. *)
Definition fix_numbering (text : pyobj) : result pyobj :=
  match text with
  | Scalar PyNone => Returned (Scalar PyNone)
  | Scalar (PyStr s) => Returned (Scalar (PyStr (fix_numbering_str s)))
  | _ => Raised AttributeError
  end.

(** *** format_links_as_markdown *)

(** The stub that is to convert tables. *)
Definition convert_testrail_tables_to_markdown (text : pyobj) : pyobj := text.

Definition is_char (n : nat) (c : option ascii) : bool :=
  match c with
  | Some c => Nat.eqb (code c) n
  | None => false
  end.

Definition is_word_at (c : option ascii) : bool :=
  match c with
  | Some c => is_word c
  | None => false
  end.

Definition head_char (s : string) : option ascii :=
  match s with
  | String c _ => Some c
  | EmptyString => None
  end.

(** One attempt of [(?<!\]\()(?<!\])\b(http[s]?://[^\s]+)] at a position:
    [prev2] and [prev1] are the two characters before it, [s] the text from
    it on.  Returns group 1.  After [http] the optional [s] is taken when
    present (giving it back cannot help: [://] does not start with [s]),
    and [[^\s]+] runs to the next white space, nothing following it. *)
Definition url_match (prev2 prev1 : option ascii) (s : string) : option string :=
  if is_char 93 prev2 && is_char 40 prev1 then None
  else if is_char 93 prev1 then None
  else if negb (xorb (is_word_at prev1) (is_word_at (head_char s))) then None
  else
    match strip_prefix "http" s with
    | None => None
    | Some r =>
        let '(scheme, r) :=
          match strip_prefix "s" r with
          | Some r' => ("https", r')
          | None => ("http", r)
          end in
        match strip_prefix "://" r with
        | None => None
        | Some r =>
            match fst (span (fun c => negb (is_space c)) r) with
            | EmptyString => None
            | String _ _ as run => Some (scheme +:+ "://" +:+ run)
            end
        end
    end.

(** [url_pattern.sub(r'[\1](\1)', text)]: the text is scanned from the left;
    [skip] counts the characters of the last match still to pass over. *)
Fixpoint url_sub (prev2 prev1 : option ascii) (skip : nat) (s : string) : string :=
  match s with
  | EmptyString => EmptyString
  | String c s' =>
      match skip with
      | S k => url_sub prev1 (Some c) k s'
      | O =>
          match url_match prev2 prev1 s with
          | Some url =>
              "[" +:+ url +:+ "](" +:+ url +:+ ")"
              +:+ url_sub prev1 (Some c) (String.length url - 1) s'
          | None => String c (url_sub prev1 (Some c) 0 s')
          end
      end
  end.

Definition format_links_str (text : string) : string :=
  url_sub None None 0 (fix_numbering_str text).

Definition format_links_as_markdown (text : pyobj) : result pyobj :=
  match text with
  | Scalar PyNone => Returned (Scalar PyNone)
  | _ =>
      let text := convert_testrail_tables_to_markdown text in
      bind (fix_numbering text) (fun text =>
      match text with
      | Scalar (PyStr s) => Returned (Scalar (PyStr (url_sub None None 0 s)))
      | _ => Raised TypeError
      end)
  end.

(** *** convert_estimate_time_to_hours *)

(** The unit alternatives of the pattern, in the order [re] tries them. *)
Definition unit_alternatives : list string :=
  ["wk"; "week"; "d"; "day"; "hr"; "hour"; "h"; "min"; "minute"; "m";
   "sec"; "second"].

(** Matching a literal under [re.IGNORECASE]: the matched text (in the
    case of the input) and the text after it. *)
Fixpoint strip_prefix_ci (p s : string) : option (string * string) :=
  match p, s with
  | EmptyString, _ => Some (EmptyString, s)
  | String a p', String b s' =>
      if Ascii.eqb a (lower_char b) then
        match strip_prefix_ci p' s' with
        | Some (m, r) => Some (String b m, r)
        | None => None
        end
      else None
  | String _ _, EmptyString => None
  end.

(** The first alternative that matches wins: the rest of the pattern,
    [s?], cannot fail. *)
Fixpoint first_alternative (alts : list string) (s : string)
  : option (string * string) :=
  match alts with
  | [] => None
  | a :: alts' =>
      match strip_prefix_ci a s with
      | Some r => Some r
      | None => first_alternative alts' s
      end
  end.

(** One attempt of
    [(\d+(?:\.\d+)?)\s*(wk|week|d|day|hr|hour|h|min|minute|m|sec|second)s?]
    at the head of [s]: groups 1 and 2 and the text after the match.  The
    greedy choices are final: whatever a shorter number or white-space run
    leaves over starts with a digit, a dot or white space, where no unit
    matches. *)
Definition estimate_match (s : string) : option (string * string * string) :=
  let '(int_part, r1) := span is_digit s in
  match int_part with
  | EmptyString => None
  | String _ _ =>
      let '(value, r2) :=
        match r1 with
        | String dot r1' =>
            if Nat.eqb (code dot) 46 then
              match span is_digit r1' with
              | (String _ _ as frac, r) => (int_part +:+ "." +:+ frac, r)
              | (EmptyString, _) => (int_part, r1)
              end
            else (int_part, r1)
        | EmptyString => (int_part, r1)
        end in
      let r3 := snd (span is_space r2) in
      match first_alternative unit_alternatives r3 with
      | None => None
      | Some (unit, r4) =>
          let r5 :=
            match r4 with
            | String c r4' => if Nat.eqb (code (lower_char c)) 115 then r4' else r4
            | EmptyString => r4
            end in
          Some (value, unit, r5)
      end
  end.

(** [re.findall(pattern, s, re.IGNORECASE)]: [skip] counts the characters
    of the last match still to pass over. *)
Fixpoint findall_estimate (skip : nat) (s : string) : list (string * string) :=
  match s with
  | EmptyString => []
  | String _ s' =>
      match skip with
      | S k => findall_estimate k s'
      | O =>
          match estimate_match s with
          | Some (value, unit, rest) =>
              (value, unit)
              :: findall_estimate (String.length s - String.length rest - 1) s'
          | None => findall_estimate 0 s'
          end
      end
  end.

Definition unit_in (unit : string) (units : list string) : bool :=
  existsb (String.eqb unit) units.

Definition week_units : list string := ["wk"; "week"].
Definition day_units : list string := ["d"; "day"].
Definition hour_units : list string := ["hr"; "hour"; "h"].
Definition minute_units : list string := ["min"; "minute"; "m"].
Definition second_units : list string := ["sec"; "second"].

(** [f"{n} {word}{'s' if n != 1 else ''}"]. *)
Definition plural (n : Z) (word : string) : string :=
  str_of_int n +:+ " " +:+ word +:+ (if n =? 1 then "" else "s").

(** [if n > 0: result_parts.append(...)]. *)
Definition append_if_positive (result_parts : list string) (n : Z) (word : string)
  : list string :=
  if 0 <? n then result_parts ++ [plural n word] else result_parts.

(** The closing [if result_parts: ... else: ...]. *)
Definition render (result_parts : list string) (estimate_string : string) : string :=
  match result_parts with
  | [] => estimate_string
  | _ => join " " result_parts
  end.

(** One turn of the loop of the regular and of the single-unit processing. *)
Definition append_unit (result_parts : list string) (token : string * string)
  : result (list string) :=
  let '(value_str, unit) := token in
  let value := Float.of_decimal value_str in
  let unit_lower := lower unit in
  bind (Float.ceil value) (fun rounded_value =>
  if rounded_value =? 0 then Returned result_parts
  else if unit_in unit_lower week_units
       then Returned (result_parts ++ [plural rounded_value "week"])
  else if unit_in unit_lower day_units
       then Returned (result_parts ++ [plural rounded_value "day"])
  else if unit_in unit_lower hour_units
       then Returned (result_parts ++ [plural rounded_value "hour"])
  else if unit_in unit_lower minute_units
       then Returned (result_parts ++ [plural rounded_value "minute"])
  else if unit_in unit_lower second_units
       then Returned (result_parts ++ [plural rounded_value "second"])
  else Returned result_parts).

Fixpoint append_units (result_parts : list string) (tokens : list (string * string))
  : result (list string) :=
  match tokens with
  | [] => Returned result_parts
  | token :: tokens' =>
      bind (append_unit result_parts token) (fun result_parts =>
      append_units result_parts tokens')
  end.

(** The part of the function from [first_two_units = matches[:2]] on, with
    the special case of three tokens left out. *)
Definition first_two (estimate_string : string) (matches : list (string * string))
  : result string :=
  let first_two_units := firstn 2 matches in
  match first_two_units with
  | [(first_value_str, first_unit); (second_value_str, second_unit)] =>
      let first_unit_lower := lower first_unit in
      let second_unit_lower := lower second_unit in
      if unit_in first_unit_lower hour_units && unit_in second_unit_lower minute_units
      then
        let hours := Float.of_decimal first_value_str in
        let minutes := Float.of_decimal second_value_str in
        bind (Float.ceil hours) (fun rounded_hours =>
        bind (Float.ceil minutes) (fun rounded_minutes =>
        let result_parts := append_if_positive [] rounded_hours "hour" in
        let result_parts := append_if_positive result_parts rounded_minutes "minute" in
        Returned (render result_parts estimate_string)))
      else if unit_in first_unit_lower day_units && unit_in second_unit_lower hour_units
      then
        let days := Float.of_decimal first_value_str in
        let hours := Float.of_decimal second_value_str in
        bind (Float.ceil days) (fun rounded_days =>
        let result_parts := append_if_positive [] rounded_days "day" in
        bind (Float.ceil hours) (fun rounded_hours =>
        let result_parts := append_if_positive result_parts rounded_hours "hour" in
        Returned (render result_parts estimate_string)))
      else
        bind (append_units [] first_two_units) (fun result_parts =>
        Returned (render result_parts estimate_string))
  | _ =>
      bind (append_units [] first_two_units) (fun result_parts =>
      Returned (render result_parts estimate_string))
  end.

(** The function from [if not matches] on, for the stripped, non-empty
    [estimate_string]. *)
Definition estimate_of_matches (estimate_string : string)
    (matches : list (string * string)) : result string :=
  match matches with
  | [] => Returned estimate_string
  | _ =>
      match matches with
      | (days_str, first_unit) :: (hours_str, second_unit)
          :: (minutes_str, third_unit) :: _ =>
          if unit_in (lower first_unit) day_units
             && unit_in (lower second_unit) hour_units
             && unit_in (lower third_unit) minute_units
          then
            let days := Float.of_decimal days_str in
            let hours := Float.of_decimal hours_str in
            let minutes := Float.of_decimal minutes_str in
            bind (Float.ceil days) (fun rounded_days =>
            let result_parts := append_if_positive [] rounded_days "day" in
            let total_hours := Float.add hours (Float.div minutes (Float.of_int 60)) in
            bind (Float.ceil total_hours) (fun rounded_hours =>
            let result_parts := append_if_positive result_parts rounded_hours "hour" in
            Returned (render result_parts estimate_string)))
          else first_two estimate_string matches
      | _ => first_two estimate_string matches
      end
  end.

Definition convert_estimate_str (estimate_string : string) : result string :=
  let estimate_string := strip estimate_string in
  if String.eqb estimate_string "" then Returned estimate_string
  else estimate_of_matches estimate_string (findall_estimate 0 estimate_string).

Definition convert_estimate_time_to_hours (estimate_string : pyobj) : result pyobj :=
  if negb (truthy estimate_string) || negb (is_str estimate_string)
  then Returned estimate_string
  else
    match estimate_string with
    | Scalar (PyStr s) =>
        bind (convert_estimate_str s) (fun r => Returned (Scalar (PyStr r)))
    | _ => Returned estimate_string
    end.

(** *** convert_testrail_date_to_iso *)

Section Dates.

(** The loop over [date_formats]: the [strftime] text of the first format
    [datetime.strptime] accepts, [None] when every one raises
    [ValueError].  It belongs to the standard library. *)
Variable first_parsed_format : string -> option string.

Definition convert_testrail_date_to_iso (date_string : pyobj) : result pyobj :=
  if negb (truthy date_string) || negb (is_str date_string)
  then Returned date_string
  else
    match date_string with
    | Scalar (PyStr s) =>
        let s := strip s in
        match first_parsed_format s with
        | Some iso => Returned (Scalar (PyStr iso))
        | None => Returned (Scalar (PyStr s))
        end
    | _ => Returned date_string
    end.

End Dates.

End TextUtils.

Import TextUtils.

(** ** hashlib.md5 (RFC 1321), on byte values *)

Module Hashlib.

Definition mask32 (x : Z) : Z := x mod 2 ^ 32.

Definition rotl32 (x c : Z) : Z :=
  mask32 (Z.lor (Z.shiftl x c) (Z.shiftr x (32 - c))).

Definition not32 (x : Z) : Z := Z.lxor x (2 ^ 32 - 1).

Definition sines : list Z :=
  [ 3614090360; 3905402710; 606105819; 3250441966;
    4118548399; 1200080426; 2821735955; 4249261313;
    1770035416; 2336552879; 4294925233; 2304563134;
    1804603682; 4254626195; 2792965006; 1236535329;
    4129170786; 3225465664; 643717713; 3921069994;
    3593408605; 38016083; 3634488961; 3889429448;
    568446438; 3275163606; 4107603335; 1163531501;
    2850285829; 4243563512; 1735328473; 2368359562;
    4294588738; 2272392833; 1839030562; 4259657740;
    2763975236; 1272893353; 4139469664; 3200236656;
    681279174; 3936430074; 3572445317; 76029189;
    3654602809; 3873151461; 530742520; 3299628645;
    4096336452; 1126891415; 2878612391; 4237533241;
    1700485571; 2399980690; 4293915773; 2240044497;
    1873313359; 4264355552; 2734768916; 1309151649;
    4149444226; 3174756917; 718787259; 3951481745 ].

Definition shifts : list Z :=
  [ 7; 12; 17; 22; 7; 12; 17; 22; 7; 12; 17; 22; 7; 12; 17; 22;
    5; 9; 14; 20; 5; 9; 14; 20; 5; 9; 14; 20; 5; 9; 14; 20;
    4; 11; 16; 23; 4; 11; 16; 23; 4; 11; 16; 23; 4; 11; 16; 23;
    6; 10; 15; 21; 6; 10; 15; 21; 6; 10; 15; 21; 6; 10; 15; 21 ].

(** The [k] low bytes of [x], least significant first. *)
Fixpoint le_bytes (k : nat) (x : Z) : list Z :=
  match k with
  | O => []
  | S k' => x mod 256 :: le_bytes k' (x / 256)
  end.

Fixpoint le_value (bytes : list Z) : Z :=
  match bytes with
  | [] => 0
  | b :: rest => b + 256 * le_value rest
  end.

(** The message, a one bit, zeros up to 56 modulo 64, and the bit length. *)
Definition pad (message : list Z) : list Z :=
  let n := Z.of_nat (List.length message) in
  message ++ [128] ++ repeat 0 (Z.to_nat ((55 - n) mod 64))
          ++ le_bytes 8 ((8 * n) mod 2 ^ 64).

Fixpoint words (count : nat) (bytes : list Z) : list Z :=
  match count with
  | O => []
  | S count' => le_value (firstn 4 bytes) :: words count' (skipn 4 bytes)
  end.

Definition state : Type := Z * Z * Z * Z.

Definition round (block : list Z) (st : state) (i : nat) : state :=
  let '(a, b, c, d) := st in
  let '(f, g) :=
    if Nat.ltb i 16 then (Z.lor (Z.land b c) (Z.land (not32 b) d), i)
    else if Nat.ltb i 32
         then (Z.lor (Z.land d b) (Z.land (not32 d) c), Nat.modulo (5 * i + 1) 16)
    else if Nat.ltb i 48
         then (Z.lxor b (Z.lxor c d), Nat.modulo (3 * i + 5) 16)
    else (Z.lxor c (Z.lor b (not32 d)), Nat.modulo (7 * i) 16) in
  let f := mask32 (f + a + nth i sines 0 + nth g block 0) in
  (d, mask32 (b + rotl32 f (nth i shifts 0)), b, c).

Definition compress (st : state) (block : list Z) : state :=
  let '(a0, b0, c0, d0) := st in
  let '(a, b, c, d) := fold_left (round block) (seq 0 64) st in
  (mask32 (a0 + a), mask32 (b0 + b), mask32 (c0 + c), mask32 (d0 + d)).

Fixpoint blocks (count : nat) (bytes : list Z) : list (list Z) :=
  match count with
  | O => []
  | S count' => words 16 (firstn 64 bytes) :: blocks count' (skipn 64 bytes)
  end.

Definition initial : state := (1732584193, 4023233417, 2562383102, 271733878).

(** [hashlib.md5(message).digest()]. *)
Definition digest (message : list Z) : list Z :=
  let padded := pad message in
  let '(a, b, c, d) :=
    fold_left compress (blocks (Nat.div (List.length padded) 64) padded) initial in
  le_bytes 4 a ++ le_bytes 4 b ++ le_bytes 4 c ++ le_bytes 4 d.

Definition hex_digit (n : Z) : ascii :=
  ascii_of_nat (Z.to_nat (if n <? 10 then 48 + n else 87 + n)).

Fixpoint hex (bytes : list Z) : string :=
  match bytes with
  | [] => EmptyString
  | b :: rest => String (hex_digit (b / 16)) (String (hex_digit (b mod 16)) (hex rest))
  end.

(** [s.encode()] for a string of characters below 128. *)
Fixpoint encode (s : string) : list Z :=
  match s with
  | EmptyString => []
  | String c s' => Z.of_nat (code c) :: encode s'
  end.

(** [hashlib.md5(s.encode()).hexdigest()]. *)
Definition md5_hexdigest (s : string) : string := hex (digest (encode s)).

Definition hex_value (c : ascii) : option Z :=
  let n := code c in
  if between 48 57 n then Some (Z.of_nat n - 48)
  else if between 97 102 n then Some (Z.of_nat n - 87)
  else if between 65 70 n then Some (Z.of_nat n - 55)
  else None.

Fixpoint int16_from (acc : Z) (s : string) : result Z :=
  match s with
  | EmptyString => Returned acc
  | String c s' =>
      match hex_value c with
      | Some v => int16_from (16 * acc + v) s'
      | None => Raised ValueError
      end
  end.

(** [int(s, 16)] for a string of hexadecimal digits. *)
Definition int16 (s : string) : result Z :=
  match s with
  | EmptyString => Raised ValueError
  | _ => int16_from 0 s
  end.

End Hashlib.

(** ** Dictionaries whose order is observed *)

Module Dict.

Section Dict.
Context {K V : Type} (eqb : K -> K -> bool).

(** [d.get(k)]. *)
Fixpoint get (d : list (K * V)) (k : K) : option V :=
  match d with
  | [] => None
  | (k', v) :: d' => if eqb k' k then Some v else get d' k
  end.

(** [d[k] = v]: in place when the key is there, at the end otherwise. *)
Fixpoint set (d : list (K * V)) (k : K) (v : V) : list (K * V) :=
  match d with
  | [] => [(k, v)]
  | (k', v') :: d' =>
      if eqb k' k then (k', v) :: d' else (k', v') :: set d' k v
  end.

(** [k in d]. *)
Definition mem (d : list (K * V)) (k : K) : bool :=
  match get d k with
  | Some _ => true
  | None => false
  end.

End Dict.

(** [==] on the scalars used as keys: [bool] is an [int]. *)
Definition py_eqb (x y : scalar) : bool :=
  match x, y with
  | PyNone, PyNone => true
  | PyStr a, PyStr b => String.eqb a b
  | PyInt a, PyInt b => a =? b
  | PyBool a, PyBool b => Bool.eqb a b
  | PyInt a, PyBool b | PyBool b, PyInt a => a =? (if b then 1 else 0)
  | _, _ => false
  end.

End Dict.

(** ** The records passed between the importers *)

Module Schema.

(** A configuration of a source field, as the source API returns it:
    [context] and [options] are always there, [project_ids] and [items]
    may be missing or null. *)
Record config_context : Type := {
  is_global : bool;
  project_ids : option (list Z)
}.

Record config_options : Type := {
  items : option string
}.

Record config : Type := {
  context : config_context;
  options : config_options
}.

(** A source custom field with what reconciliation adds to it.  A key that
    may be absent is an [option]; an absent [configs] is the empty list. *)
Record field : Type := {
  name : string;
  label : string;
  type_id : Z;
  configs : list config;
  qase_id : Z;
  project_id : option Z;
  project_code : option string;
  qase_values : option (list (scalar * string));
  tr_key_to_qase_id : option (list (string * scalar))
}.

Definition with_tr_key_to_qase_id (f : field) (m : list (string * scalar)) : field :=
  {| name := name f; label := label f; type_id := type_id f;
     configs := configs f; qase_id := qase_id f;
     project_id := project_id f; project_code := project_code f;
     qase_values := qase_values f; tr_key_to_qase_id := Some m |}.

(** The loop that fields.py and cases.py both run over [items]:
    [for line in items.split('\n'): if ',' in line: key, title =
    line.split(',', 1); values[key.strip()] = title.strip()]. *)
Definition parse_items (items : string) : list (string * string) :=
  fold_left
    (fun values line =>
       if contains "," line then
         let '(key, title) := split_once "," line in
         Dict.set String.eqb values (strip key) (strip title)
       else values)
    (split newline items) [].

(** An option of a system field of the target. *)
Record system_option : Type := {
  option_id : Z;
  option_title : string;
  option_slug : string
}.

Record system_field : Type := {
  slug : string;
  system_options : list system_option
}.

(** A case type or a priority of the source. *)
Record named : Type := {
  named_id : Z;
  named_name : string
}.

(** A result status of the source. *)
Record labelled : Type := {
  labelled_id : Z;
  labelled_label : string
}.

(** A custom field of the target, as far as it is read here. *)
Record qase_field : Type := {
  qase_field_id : Z;
  qase_field_title : string
}.

(** The body of a request that creates a custom field. *)
Record custom_field_create : Type := {
  cf_title : string;
  cf_entity : Z;
  cf_type : Z;
  cf_is_filterable : bool;
  cf_is_visible : bool;
  cf_is_required : bool;
  cf_is_enabled_for_all_projects : bool
}.

End Schema.

Import Schema.

(** ** support/mappings.py *)

Module Mappings.

Record t : Type := {
  types : gmap Z Z;
  priorities : gmap Z Z;
  result_statuses : gmap Z string;
  custom_fields : gmap string field;
  default_priority : Z;
  refs_id : option Z;
  case_id_mapping : gmap Z Z
}.

(** [Mappings()]. *)
Definition init : t :=
  {| types := ∅; priorities := ∅; result_statuses := ∅; custom_fields := ∅;
     default_priority := 1; refs_id := None; case_id_mapping := ∅ |}.

Definition set_type (m : t) (k v : Z) : t :=
  {| types := <[k := v]> (types m); priorities := priorities m;
     result_statuses := result_statuses m; custom_fields := custom_fields m;
     default_priority := default_priority m; refs_id := refs_id m;
     case_id_mapping := case_id_mapping m |}.

Definition set_priority (m : t) (k v : Z) : t :=
  {| types := types m; priorities := <[k := v]> (priorities m);
     result_statuses := result_statuses m; custom_fields := custom_fields m;
     default_priority := default_priority m; refs_id := refs_id m;
     case_id_mapping := case_id_mapping m |}.

Definition set_result_status (m : t) (k : Z) (v : string) : t :=
  {| types := types m; priorities := priorities m;
     result_statuses := <[k := v]> (result_statuses m);
     custom_fields := custom_fields m;
     default_priority := default_priority m; refs_id := refs_id m;
     case_id_mapping := case_id_mapping m |}.

Definition set_default_priority (m : t) (v : Z) : t :=
  {| types := types m; priorities := priorities m;
     result_statuses := result_statuses m; custom_fields := custom_fields m;
     default_priority := v; refs_id := refs_id m;
     case_id_mapping := case_id_mapping m |}.

Definition set_refs_id (m : t) (v : Z) : t :=
  {| types := types m; priorities := priorities m;
     result_statuses := result_statuses m; custom_fields := custom_fields m;
     default_priority := default_priority m; refs_id := Some v;
     case_id_mapping := case_id_mapping m |}.

(** [add_case_id_mapping(testrail_id, qase_id)]. *)
Definition add_case_id_mapping (m : t) (testrail_id qase_id : Z) : t :=
  {| types := types m; priorities := priorities m;
     result_statuses := result_statuses m; custom_fields := custom_fields m;
     default_priority := default_priority m; refs_id := refs_id m;
     case_id_mapping := <[testrail_id := qase_id]> (case_id_mapping m) |}.

(** The table [qase_fields_type]. *)
Definition qase_fields_type : list (string * Z) :=
  [("number", 0); ("string", 1); ("text", 2); ("selectbox", 3);
   ("checkbox", 4); ("radio", 5); ("multiselect", 6); ("url", 7);
   ("user", 8); ("datetime", 9)].

(** The table [custom_fields_type], source type to target type. *)
Definition custom_fields_type : list (Z * Z) :=
  [(1, 1); (2, 0); (3, 2); (4, 7); (5, 4); (6, 3); (7, 8); (8, 9); (12, 6)].

End Mappings.

(** ** entities/fields.py *)

Module Fields.

(** The inner [for ... else] of the mapping loop: the id of the first
    target value whose trimmed title is the trimmed source title. *)
Fixpoint first_match (tr_title : string) (qase_values : list (scalar * string))
  : option scalar :=
  match qase_values with
  | [] => None
  | (qase_id, qase_title) :: rest =>
      if String.eqb (strip tr_title) (strip qase_title) then Some qase_id
      else first_match tr_title rest
  end.

(** The outer loop, [for tr_key, tr_title in tr_values.items()]. *)
Definition match_values (tr_values : list (string * string))
    (qase_values : list (scalar * string)) : list (string * scalar) :=
  fold_left
    (fun mapping '(tr_key, tr_title) =>
       match first_match tr_title qase_values with
       | Some qase_id => Dict.set String.eqb mapping tr_key qase_id
       | None => mapping
       end)
    tr_values [].

(** [_create_tr_key_to_qase_id_mapping(field)]: the field as the call
    leaves it.  Reading an absent [qase_values] raises; log lines are
    left out. *)
Definition _create_tr_key_to_qase_id_mapping (f : field) : result field :=
  match configs f with
  | [] => Returned f
  | config :: _ =>
      match items (options config) with
      | None => Returned f
      | Some items =>
          if negb (truthy_scalar (PyStr items)) then Returned f
          else
            let tr_values := parse_items items in
            match qase_values f with
            | None => Raised KeyError
            | Some qase_values =>
                Returned (with_tr_key_to_qase_id f (match_values tr_values qase_values))
            end
      end
  end.

(** The options of the system field with a given slug. *)
Definition options_of (wanted : string) (system_fields : list system_field)
  : list system_option :=
  flat_map
    (fun f => if String.eqb (slug f) wanted then system_options f else [])
    system_fields.

(** [_create_types_map], given what [get_case_types] returned. *)
Definition _create_types_map (tr_types : list named)
    (system_fields : list system_field) (m : Mappings.t) : Mappings.t :=
  let qase_types := options_of "type" system_fields in
  fold_left
    (fun m tr_type =>
       let m := Mappings.set_type m (named_id tr_type) 1 in
       fold_left
         (fun m qase_type =>
            if String.eqb (lower (named_name tr_type)) (lower (option_title qase_type))
            then Mappings.set_type m (named_id tr_type) (option_id qase_type)
            else m)
         qase_types m)
    tr_types m.

(** The first loop of [_create_priorities_map]: the default priority and
    the store, after the search for a target priority titled "high". *)
Fixpoint find_default_priority (qase_priorities : list system_option)
    (m : Mappings.t) : Z * Mappings.t :=
  match qase_priorities with
  | [] => (1, m)
  | qase_priority :: rest =>
      if String.eqb (lower (option_title qase_priority)) "high"
      then (option_id qase_priority,
            Mappings.set_default_priority m (option_id qase_priority))
      else find_default_priority rest m
  end.

(** [_create_priorities_map], given what [get_priorities] returned. *)
Definition _create_priorities_map (tr_priorities : list named)
    (system_fields : list system_field) (m : Mappings.t) : Mappings.t :=
  let qase_priorities := options_of "priority" system_fields in
  let '(default_priority, m) := find_default_priority qase_priorities m in
  fold_left
    (fun m tr_priority =>
       let m := Mappings.set_priority m (named_id tr_priority) default_priority in
       fold_left
         (fun m qase_priority =>
            if String.eqb (lower (named_name tr_priority))
                          (lower (option_title qase_priority))
            then Mappings.set_priority m (named_id tr_priority) (option_id qase_priority)
            else m)
         qase_priorities m)
    tr_priorities m.

(** [_create_result_statuses_map], given what [get_result_statuses]
    returned. *)
Definition _create_result_statuses_map (tr_statuses : list labelled)
    (system_fields : list system_field) (m : Mappings.t) : Mappings.t :=
  let qase_statuses := options_of "result_status" system_fields in
  fold_left
    (fun m tr_status =>
       let m := Mappings.set_result_status m (labelled_id tr_status) "skipped" in
       fold_left
         (fun m qase_status =>
            if String.eqb (lower (labelled_label tr_status))
                          (lower (option_title qase_status))
            then Mappings.set_result_status m (labelled_id tr_status)
                   (option_slug qase_status)
            else m)
         qase_statuses m)
    tr_statuses m.

(** The request [_create_refs_field] sends when it creates the field. *)
Definition refs_field_data : custom_field_create :=
  {| cf_title := "Refs"; cf_entity := 0; cf_type := 2;
     cf_is_filterable := true; cf_is_visible := true;
     cf_is_required := false; cf_is_enabled_for_all_projects := true |}.

(** [not self.mappings.refs_id]. *)
Definition no_refs_id (m : Mappings.t) : bool :=
  match Mappings.refs_id m with
  | Some id => id =? 0
  | None => true
  end.

Section RefsField.

(** The target's answer to a creation request: the new id, or 0. *)
Variable create_custom_field : custom_field_create -> Z.

(** [_create_refs_field(qase_custom_fields)]: the store and the creation
    requests sent.  [refs_enable] is the truth value of
    [config.get('tests.refs.enable')]; a missing list of target fields is
    the empty list. *)
Definition _create_refs_field (refs_enable : bool)
    (qase_custom_fields : list qase_field) (m : Mappings.t)
  : Mappings.t * list custom_field_create :=
  if refs_enable then
    let m :=
      fold_left
        (fun m qase_field =>
           if String.eqb (qase_field_title qase_field) "Refs"
           then Mappings.set_refs_id m (qase_field_id qase_field)
           else m)
        qase_custom_fields m in
    if no_refs_id m
    then (Mappings.set_refs_id m (create_custom_field refs_field_data),
          [refs_field_data])
    else (m, [])
  else (m, []).

End RefsField.

End Fields.

(** ** entities/cases.py *)

Module Cases.

(** [MAX_SAFE_ID = 2**31 - 1]. *)
Definition MAX_SAFE_ID : Z := 2 ^ 31 - 1.

(** [int(hashlib.md5(str(original_id).encode()).hexdigest()[:8], 16)]. *)
Definition hashed (original_id : Z) : result Z :=
  Hashlib.int16 (substring 0 8 (Hashlib.md5_hexdigest (str_of_int original_id))).

(** The two-way choice that opens [_prepare_case].  [preserve_ids] is the
    truth value of [config.get('tests.preserve_ids')], [now_ms] the value
    of [int(time.time() * 1000)] when the case is prepared. *)
Definition choose_safe_id (preserve_ids : bool) (now_ms original_id : Z) : result Z :=
  if preserve_ids then
    if original_id <=? MAX_SAFE_ID then Returned original_id
    else bind (hashed original_id) (fun hashed_id =>
         Returned (hashed_id mod MAX_SAFE_ID))
  else
    if original_id <=? MAX_SAFE_ID then Returned (now_ms mod MAX_SAFE_ID)
    else bind (hashed original_id) (fun hashed_id =>
         Returned (hashed_id mod MAX_SAFE_ID)).

(** [_prepare_case] up to the additional safety check: the id of the
    payload and the store. *)
Definition prepare_case_id (preserve_ids : bool) (now_ms original_id : Z)
    (m : Mappings.t) : result (Z * Mappings.t) :=
  bind (choose_safe_id preserve_ids now_ms original_id) (fun safe_id =>
  let m := Mappings.add_case_id_mapping m original_id safe_id in
  if safe_id >? MAX_SAFE_ID then
    let safe_id := safe_id mod MAX_SAFE_ID in
    Returned (safe_id, Mappings.add_case_id_mapping m original_id safe_id)
  else Returned (safe_id, m)).

(** The store after the cases of a page have been prepared, each given as
    its id and its clock reading.  The id part of [_prepare_case] has no
    suspension point, so the tasks run it one after the other; a case
    whose preparation raises is logged and leaves the store as it was. *)
Definition prepare_cases_ids (preserve_ids : bool) (cases : list (Z * Z))
    (m : Mappings.t) : Mappings.t :=
  fold_left
    (fun m '(original_id, now_ms) =>
       match prepare_case_id preserve_ids now_ms original_id m with
       | Returned (_, m') => m'
       | Raised _ => m
       end)
    cases m.

(** Warnings the enum branch and the validation write to the log; the
    lines of other levels are left out. *)
Inductive warning : Type :=
| NoConfigs (field_name : string)
| NoItems (field_name : string)
| InvalidValue (field_name : string) (item : scalar)
| NoValidValues (field_name : string)
| NotInMapping (field_name : string) (v : scalar)
| NoValidQaseIds (field_name : string).

(** The payload under construction, as far as the custom fields go. *)
Record payload : Type := {
  custom_field : gmap string string;
  preconditions : option string;
  steps : list (string * option string * option string * Z)
}.

Definition set_custom_field (data : payload) (k v : string) : payload :=
  {| custom_field := <[k := v]> (custom_field data);
     preconditions := preconditions data; steps := steps data |}.

(** [custom_field.get('project_id')] and the like, as conditions. *)
Definition has_project_id (f : field) : bool :=
  match project_id f with
  | Some id => negb (id =? 0)
  | None => false
  end.

Definition has_project_code (f : field) : bool :=
  match project_code f with
  | Some c => negb (String.eqb c "")
  | None => false
  end.

Section Project.

(** [self.project['code']] and [self.project['testrail_id']]. *)
Variable project_code_ : string.
Variable project_testrail_id : Z.

(** The choice of [configs] in [_validate_custom_field_values]. *)
Definition select_configs (f : field) : result (list config) :=
  if has_project_id f && has_project_code f then Returned (configs f)
  else
    match
      find
        (fun config =>
           match project_ids (context config) with
           | Some ids =>
               match ids with
               | [] => false
               | _ => existsb (Z.eqb project_testrail_id) ids
               end
           | None => false
           end)
        (configs f)
    with
    | Some matching_config => Returned [matching_config]
    | None =>
        match configs f with
        | first :: _ => Returned [first]
        | [] => Raised IndexError
        end
    end.

(** [_validate_custom_field_values(custom_field, value)], with the log. *)
Definition _validate_custom_field_values (f : field) (value : pyobj)
    (log : list warning) : result (option (list scalar) * list warning) :=
  if negb (truthy value) then Returned (None, log)
  else
    bind (select_configs f) (fun configs =>
    match configs with
    | [] => Returned (None, log ++ [NoConfigs (name f)])
    | config :: _ =>
        let items := match items (options config) with
                     | Some items => items
                     | None => ""
                     end in
        if String.eqb items "" then Returned (None, log ++ [NoItems (name f)])
        else
          let values := parse_items items in
          match value with
          | PyList l =>
              let filtered_values :=
                List.filter (fun item => Dict.mem String.eqb values (str item)) l in
              let log :=
                log ++ map (InvalidValue (name f))
                         (List.filter (fun item => negb (Dict.mem String.eqb values (str item))) l) in
              match filtered_values with
              | [] => Returned (None, log ++ [NoValidValues (name f)])
              | _ => Returned (Some filtered_values, log)
              end
          | Scalar x =>
              if Dict.mem String.eqb values (str x) then Returned (Some [x], log)
              else Returned (None, log ++ [InvalidValue (name f) x])
          end
    end).

(** [custom_field.get('tr_key_to_qase_id') and key in
    custom_field['tr_key_to_qase_id']], with the value found. *)
Definition mapped (f : field) (testrail_key : string) : option scalar :=
  match tr_key_to_qase_id f with
  | Some ((_ :: _) as mapping) => Dict.get String.eqb mapping testrail_key
  | _ => None
  end.

(** [custom_field.get('qase_values') and key in custom_field['qase_values']],
    with the value found. *)
Definition old_mapped (f : field) (testrail_key : string) : option string :=
  match qase_values f with
  | Some ((_ :: _) as values) => Dict.get Dict.py_eqb values (PyStr testrail_key)
  | _ => None
  end.

(** The loop over the validated values of a multi-select field that has
    no [project_id]. *)
Definition global_multiselect_values (f : field) (validated_values : list scalar)
    (log : list warning) : list string * list warning :=
  fold_left
    (fun '(qase_values, log) v =>
       let testrail_key := str v in
       match mapped f testrail_key with
       | Some qase_id => (qase_values ++ [str qase_id], log)
       | None =>
           match old_mapped f testrail_key with
           | Some qase_id => (qase_values ++ [qase_id], log)
           | None => (qase_values, log ++ [NotInMapping (name f) v])
           end
       end)
    validated_values ([], log).

(** The loop over the values of a multi-select field of one project. *)
Definition project_multiselect_values (f : field) (value : list scalar) : list string :=
  map (fun v => match mapped f (str v) with
                | Some qase_id => str qase_id
                | None => str v
                end) value.

(** What the enum branch does with a validated value.  The validation
    returns a list or [None], so the branch for a bare [str] or [int]
    is never taken. *)
Definition import_enum_value (f : field) (value : list scalar) (data : payload)
    (log : list warning) : result (payload * list warning) :=
  if type_id f =? 12 then
    if negb (has_project_id f) then
      bind (_validate_custom_field_values f (PyList value) log) (fun '(validated_values, log) =>
      match validated_values with
      | Some ((_ :: _) as validated_values) =>
          let '(qase_values, log) := global_multiselect_values f validated_values log in
          match qase_values with
          | [] => Returned (data, log ++ [NoValidQaseIds (name f)])
          | _ => Returned (set_custom_field data (str_of_int (qase_id f)) (join "," qase_values), log)
          end
      | _ => Returned (data, log)
      end)
    else
      Returned (set_custom_field data (str_of_int (qase_id f))
                  (join "," (project_multiselect_values f value)), log)
  else
    match value with
    | first :: _ =>
        match mapped f (str first) with
        | Some target_id =>
            Returned (set_custom_field data (str_of_int (qase_id f)) (str target_id), log)
        | None =>
            Returned (set_custom_field data (str_of_int (qase_id f)) (str first), log)
        end
    | [] => Raised IndexError
    end.

(** Whether the loop over the fields of the case goes on. *)
Inductive flow : Type := Next | Return.

(** The enum branch, [if custom_field['type_id'] in (6, 12)].  Of its two
    copies only the one for a field found under its bare name returns
    from the function when the validation fails. *)
Definition import_enum_field (project_specific : bool) (f : field) (raw : pyobj)
    (data : payload) (log : list warning) : result (payload * list warning * flow) :=
  bind (_validate_custom_field_values f raw log) (fun '(value, log) =>
  match value with
  | Some ((_ :: _) as value) =>
      bind (import_enum_value f value data log) (fun '(data, log) =>
      Returned (data, log, Next))
  | _ => Returned (data, log, if project_specific then Next else Return)
  end).

(** [__normalize_custom_field_name]. *)
Definition normalize_custom_field_name (field_name : string) : string :=
  match strip_prefix "case_" field_name with
  | Some r => r
  | None =>
      match strip_prefix "test_" field_name with
      | Some r => r
      | None =>
          match strip_prefix "tr_" field_name with
          | Some r => r
          | None => field_name
          end
      end
  end.

(** The branches that are not about enums (date pickers and texts) and
    the two step blocks that close the loop body.  They work on
    attachments and on step records and do not read the enum mapping. *)
Variable import_plain_field : field -> string -> pyobj -> payload -> payload.
Variable import_steps : string -> pyobj -> payload -> payload.

(** One turn of [for field_name in case] in
    [_import_custom_fields_for_case]. *)
Definition import_case_field (custom_fields : gmap string field)
    (field_name : string) (raw : pyobj) (data : payload) (log : list warning)
  : result (payload * list warning * flow) :=
  let branch :=
    match strip_prefix "custom_" field_name with
    | Some suffix =>
        let normalized_name := normalize_custom_field_name suffix in
        let project_specific_key := normalized_name +:+ "_" +:+ project_code_ in
        match (if truthy raw then custom_fields !! project_specific_key else None) with
        | Some f =>
            if (type_id f =? 6) || (type_id f =? 12)
            then import_enum_field true f raw data log
            else Returned (import_plain_field f normalized_name raw data, log, Next)
        | None =>
            match (if truthy raw then custom_fields !! normalized_name else None) with
            | Some f =>
                if (type_id f =? 6) || (type_id f =? 12)
                then import_enum_field false f raw data log
                else Returned (import_plain_field f normalized_name raw data, log, Next)
            | None => Returned (data, log, Next)
            end
        end
    | None => Returned (data, log, Next)
    end in
  bind branch (fun '(data, log, fl) =>
  match fl with
  | Return => Returned (data, log, Return)
  | Next => Returned (import_steps field_name raw data, log, Next)
  end).

(** [_import_custom_fields_for_case(case, data)]: the payload and the
    log, or the exception that leaves the function. *)
Fixpoint _import_custom_fields_for_case (custom_fields : gmap string field)
    (case : list (string * pyobj)) (data : payload) (log : list warning)
  : result (payload * list warning) :=
  match case with
  | [] => Returned (data, log)
  | (field_name, raw) :: rest =>
      bind (import_case_field custom_fields field_name raw data log)
        (fun '(data, log, fl) =>
           match fl with
           | Return => Returned (data, log)
           | Next => _import_custom_fields_for_case custom_fields rest data log
           end)
  end.

End Project.

End Cases.

(** ** Reference definitions used in the statements *)

Module Reference.

Import TextUtils.

(** A line that [re.match(r'^(\d+)\. ', line)] accepts. *)
Definition numbered (line : string) : Prop := is_Some (numbering_match line).

(** Line [i] of [lines] has exactly [k] numbered lines right before it:
    lines [i - k] to [i - 1] are numbered, and they start the text or
    follow a line that is not.  A numbered line [i] is then line [k + 1]
    of its block. *)
Definition block_position (lines : list string) (i k : nat) : Prop :=
  (k <= i)%nat
  /\ (forall j, (i - k <= j < i)%nat ->
        exists l, lines !! j = Some l /\ numbered l)
  /\ (k = i \/ exists l, lines !! (i - k - 1)%nat = Some l /\ numbering_match l = None).

(** Renumbering in one pass, [k] being the count of numbered lines right
    before the head of [lines]. *)
Fixpoint renumbered (k : nat) (lines : list string) : list string :=
  match lines with
  | [] => []
  | line :: rest =>
      match numbering_match line with
      | Some _ => renumber (S k) line :: renumbered (S k) rest
      | None => line :: renumbered 0 rest
      end
  end.

(** The three-token special case of the estimate parser: days, hours and
    minutes lead the phrase. *)
Definition day_hour_minute (matches : list (string * string)) : bool :=
  match matches with
  | (_, first_unit) :: (_, second_unit) :: (_, third_unit) :: _ =>
      unit_in (lower first_unit) day_units
      && unit_in (lower second_unit) hour_units
      && unit_in (lower third_unit) minute_units
  | _ => false
  end.

(** The unit tokens of an estimate phrase, as the parser finds them. *)
Definition estimate_tokens (estimate_string : string) : list (string * string) :=
  findall_estimate 0 (strip estimate_string).

(** The entries of the store that the claims speak about. *)
Definition safe_entry (preserve_ids : bool) (original_id safe_id : Z) : Prop :=
  safe_id <= Cases.MAX_SAFE_ID
  /\ (Cases.MAX_SAFE_ID < original_id ->
      exists hashed_id, Cases.hashed original_id = Returned hashed_id
                        /\ safe_id = hashed_id mod Cases.MAX_SAFE_ID)
  /\ (preserve_ids = true -> original_id <= Cases.MAX_SAFE_ID -> safe_id = original_id).

(** A dictionary of target values holds no two keys that are equal in
    Python's sense. *)
Definition distinct_keys (values : list (scalar * string)) : Prop :=
  forall i j k1 t1 k2 t2,
    values !! i = Some (k1, t1) ->
    values !! j = Some (k2, t2) ->
    Dict.py_eqb k1 k2 = true -> i = j.

(** The label of an enum value is unique in the source and in the target:
    one source key carries it, and one target value has it as its trimmed
    title. *)
Definition unique_label (tr_values : list (string * string))
    (qase_values : list (scalar * string)) (label : string) : Prop :=
  (forall k1 k2,
      Dict.get String.eqb tr_values k1 = Some label ->
      Dict.get String.eqb tr_values k2 = Some label -> k1 = k2)
  /\ (forall i j id1 t1 id2 t2,
        qase_values !! i = Some (id1, t1) ->
        qase_values !! j = Some (id2, t2) ->
        strip t1 = label -> strip t2 = label -> i = j).

(** The default of the priorities map: the id of the first target
    priority titled "high" in any case, 1 when there is none. *)
Definition default_priority_of (system_fields : list system_field) : Z :=
  match
    find (fun q => String.eqb (lower (option_title q)) "high")
         (Fields.options_of "priority" system_fields)
  with
  | Some q => option_id q
  | None => 1
  end.

(** What a validated key of a multi-select field without [project_id]
    contributes to the emitted value: the id it is mapped to, else the
    entry of [qase_values] under the key itself, else nothing. *)
Definition emitted (f : field) (v : scalar) : list string :=
  match Cases.mapped f (str v) with
  | Some target_id => [str target_id]
  | None =>
      match Cases.old_mapped f (str v) with
      | Some title => [title]
      | None => []
      end
  end.

(** A key found neither in [tr_key_to_qase_id] nor in [qase_values]. *)
Definition unmapped (f : field) (v : scalar) : bool :=
  match Cases.mapped f (str v), Cases.old_mapped f (str v) with
  | None, None => true
  | _, _ => false
  end.

(** The id a key is mapped to, or the key itself. *)
Definition mapped_or_raw (f : field) (v : scalar) : string :=
  match Cases.mapped f (str v) with
  | Some target_id => str target_id
  | None => str v
  end.

(** Sample data for the enum branch: a field with the items [1,Low],
    [2,High] and [3,Mid], whose mapping only knows key 1, as a
    single-select and as a multi-select field, and an empty payload. *)
Definition sample_enum_field (type_id : Z) : field :=
  {| name := "severity"; label := "Severity"; type_id := type_id;
     configs :=
       [{| context := {| is_global := true; project_ids := None |};
           options := {| items := Some "1,Low
2,High
3,Mid" |} |}];
     qase_id := 3; project_id := None; project_code := None;
     qase_values := Some [(PyInt 7, "Low")];
     tr_key_to_qase_id := Some [("1", PyInt 7)] |}.

Definition empty_payload : Cases.payload :=
  {| Cases.custom_field := ∅; Cases.preconditions := None; Cases.steps := [] |}.

End Reference.

Import Reference.

(** ** entities/cases.py and support/mappings.py: lookups and the page loop *)

Module CaseImport.

(** [Mappings.get_qase_case_id(testrail_id)]:
    [case_id_mapping.get(testrail_id, testrail_id)]. *)
Definition get_qase_case_id (m : Mappings.t) (testrail_id : Z) : Z :=
  match Mappings.case_id_mapping m !! testrail_id with
  | Some qase_id => qase_id
  | None => testrail_id
  end.

(** [_set_priority]: the value stored under [data['priority']]. *)
Definition _set_priority (m : Mappings.t) (priority_id : Z) : Z :=
  match Mappings.priorities m !! priority_id with
  | Some priority => priority
  | None => Mappings.default_priority m
  end.

(** [_set_type]: the value stored under [data['type']]. *)
Definition _set_type (m : Mappings.t) (type_id : Z) : Z :=
  match Mappings.types m !! type_id with
  | Some type => type
  | None => 1
  end.

Section Pages.

(** [process_cases(suite_id, offset, limit)] as the loop of
    [import_cases_for_suite] sees it: the size of the page the source
    returned, or 0 when the call raised and the exception was logged. *)
Variable process_cases : Z -> Z -> Z.

(** The [while True] of [import_cases_for_suite], from a given offset:
    the offsets it asks for, [None] when [fuel] turns do not end it. *)
Fixpoint import_pages (fuel : nat) (offset limit : Z) : option (list Z) :=
  match fuel with
  | O => None
  | S fuel' =>
      let count := process_cases offset limit in
      if count <? limit then Some [offset]
      else
        match import_pages fuel' (offset + limit) limit with
        | Some offsets => Some (offset :: offsets)
        | None => None
        end
  end.

(** [import_cases_for_suite(suite_id)]; [enterprise] is the truth value of
    [config.get('qase.enterprise')]. *)
Definition import_cases_for_suite (fuel : nat) (enterprise : bool) : option (list Z) :=
  import_pages fuel 0 (if enterprise then 20 else 100).

End Pages.

End CaseImport.

(** ** service/qase.py: the values of a created enum field *)

Module Qase.

(** [key, value = item.split(delimiter)] with the default delimiter: the
    unpacking raises unless the item holds exactly one comma. *)
Definition split_pair (item : string) : result (string * string) :=
  match split "," item with
  | [key; value] => Returned (key, value)
  | _ => Raised ValueError
  end.

(** [__split_values(string)]: keys and values are taken as they are. *)
Definition __split_values (items : string) : result (list (string * string)) :=
  fold_left
    (fun result item =>
       bind result (fun result =>
       if String.eqb item "" then Returned result
       else
         bind (split_pair item) (fun '(key, value) =>
         Returned (Dict.set String.eqb result key value))))
    (split newline items) (Returned []).

(** What the loop over [values.items()] updates: [data['value']],
    [field['qase_values']], the set [unique_values] (kept as the list of
    its elements) and [next_id]. *)
Record values_state : Type := {
  data_value : list (Z * string);
  field_qase_values : list (scalar * string);
  unique_values : list string;
  next_id : Z
}.

Definition no_values : values_state :=
  {| data_value := []; field_qase_values := []; unique_values := []; next_id := 1 |}.

(** One turn of [for key, value in values.items()]. *)
Definition add_value (st : values_state) (entry : string * string) : values_state :=
  let value_stripped := strip (snd entry) in
  if existsb (String.eqb value_stripped) (unique_values st) then st
  else
    {| data_value := data_value st ++ [(next_id st, value_stripped)];
       field_qase_values :=
         Dict.set Dict.py_eqb (field_qase_values st) (PyInt (next_id st)) value_stripped;
       unique_values := unique_values st ++ [value_stripped];
       next_id := next_id st + 1 |}.

Definition with_qase_values (f : field) (values : list (scalar * string)) : field :=
  {| name := name f; label := label f; type_id := type_id f;
     configs := configs f; qase_id := qase_id f;
     project_id := project_id f; project_code := project_code f;
     qase_values := Some values; tr_key_to_qase_id := tr_key_to_qase_id f |}.

(** [prepare_custom_field_data(field, mappings)]: the field as the call
    leaves it, and of the request the keys [type] and [value].  The type
    is looked up first, and an unknown [type_id] raises; the values are
    filled in for the types 12 and 6 when the first configuration has
    items. *)
Definition prepare_custom_field_data (f : field)
  : result (field * (Z * list (Z * string))) :=
  match Dict.get Z.eqb Mappings.custom_fields_type (type_id f) with
  | None => Raised KeyError
  | Some type =>
      match configs f with
      | config :: _ =>
          match items (options config) with
          | Some items =>
              if ((type_id f =? 12) || (type_id f =? 6)) && negb (String.eqb items "")
              then
                bind (__split_values items) (fun values =>
                let st := fold_left add_value values no_values in
                Returned (with_qase_values f (field_qase_values st), (type, data_value st)))
              else Returned (f, (type, []))
          | None => Returned (f, (type, []))
          end
      | [] => Returned (f, (type, []))
      end
  end.

End Qase.

(** ** entities/fields.py: a new global field *)

Module FieldCreation.

Definition with_qase_id (f : field) (new_id : Z) : field :=
  {| name := name f; label := label f; type_id := type_id f;
     configs := configs f; qase_id := new_id;
     project_id := project_id f; project_code := project_code f;
     qase_values := qase_values f; tr_key_to_qase_id := tr_key_to_qase_id f |}.

(** [self.mappings.custom_fields[field['name']] = field]. *)
Definition store_custom_field (m : Mappings.t) (f : field) : Mappings.t :=
  {| Mappings.types := Mappings.types m;
     Mappings.priorities := Mappings.priorities m;
     Mappings.result_statuses := Mappings.result_statuses m;
     Mappings.custom_fields := <[name f := f]> (Mappings.custom_fields m);
     Mappings.default_priority := Mappings.default_priority m;
     Mappings.refs_id := Mappings.refs_id m;
     Mappings.case_id_mapping := Mappings.case_id_mapping m |}.

(** [field.get('qase_values')] as a condition. *)
Definition has_qase_values (f : field) : bool :=
  match qase_values f with
  | Some (_ :: _) => true
  | _ => false
  end.

Section Create.

(** The target's answer to the creation request: the new id, or 0. *)
Variable create_custom_field : Z * list (Z * string) -> Z.

(** [_create_single_global_field] from the comment [Create new global
    field] on: what it does when no field of the target has the label and
    the type of the source field. *)
Definition create_new_global_field (f : field) (m : Mappings.t) : result Mappings.t :=
  bind (Qase.prepare_custom_field_data f) (fun '(f, data) =>
  let new_id := create_custom_field data in
  if 0 <? new_id then
    let f := with_qase_id f new_id in
    bind (if has_qase_values f then Fields._create_tr_key_to_qase_id_mapping f
          else Returned f) (fun f =>
    Returned (store_custom_field m f))
  else Returned m).

End Create.

End FieldCreation.

(** ** entities/cases.py: the Refs field of a case *)

Module Urllib.

(** The characters [quote] never escapes: letters, digits and [_.-~]. *)
Definition always_safe (n : nat) : bool :=
  between 65 90 n || between 97 122 n || between 48 57 n
  || Nat.eqb n 95 || Nat.eqb n 46 || Nat.eqb n 45 || Nat.eqb n 126.

(** With [safe="/:"]. *)
Definition safe_byte (n : nat) : bool :=
  always_safe n || Nat.eqb n 47 || Nat.eqb n 58.

(** [c.encode('utf-8')] for a code point below 256. *)
Definition utf8 (c : ascii) : list nat :=
  let n := code c in
  if Nat.ltb n 128 then [n] else [192 + n / 64; 128 + n mod 64]%nat.

Definition hex_upper (d : nat) : ascii :=
  if Nat.ltb d 10 then ascii_of_nat (48 + d) else ascii_of_nat (55 + d).

(** A byte as it is, or as [%XX]. *)
Definition quote_byte (n : nat) : string :=
  if safe_byte n then String (ascii_of_nat n) EmptyString
  else String "%" (String (hex_upper (n / 16)) (String (hex_upper (n mod 16)) EmptyString)).

Definition quote_char (c : ascii) : string :=
  fold_right (fun n rest => quote_byte n +:+ rest) EmptyString (utf8 c).

(** [urllib.parse.quote(s, safe="/:")]. *)
Fixpoint quote (s : string) : string :=
  match s with
  | EmptyString => EmptyString
  | String c s' => quote_char c +:+ quote s'
  end.

End Urllib.

Module CaseRefs.

(** [s.rstrip(ch)] for one character. *)
Fixpoint rstrip_char (ch : ascii) (s : string) : string :=
  match s with
  | EmptyString => EmptyString
  | String c s' =>
      match rstrip_char ch s' with
      | EmptyString => if Ascii.eqb c ch then EmptyString else String c EmptyString
      | r => String c r
      end
  end.

(** [_get_ref(ref, url)]. *)
Definition _get_ref (ref url : string) : string :=
  let link_url :=
    match strip_prefix "http" ref with
    | Some _ => Urllib.quote ref
    | None => Urllib.quote (url +:+ "/" +:+ ref)
    end in
  "[" +:+ ref +:+ "](" +:+ link_url +:+ ")".

(** [case.get('refs')] as a condition. *)
Definition has_refs (case_refs : option string) : bool :=
  match case_refs with
  | Some refs => negb (String.eqb refs "")
  | None => false
  end.

(** [_set_refs(case, data)].  [case_refs] is [case.get('refs')],
    [refs_enable] the truth value of [config.get('tests.refs.enable')] and
    [refs_url] the value of [config.get('tests.refs.url')], [None] when
    the key is not set. *)
Definition _set_refs (m : Mappings.t) (refs_enable : bool) (refs_url : option string)
    (case_refs : option string) (data : Cases.payload) : result Cases.payload :=
  if negb (negb (Fields.no_refs_id m) && has_refs case_refs && refs_enable)
  then Returned data
  else
    match case_refs, Mappings.refs_id m with
    | Some case_refs, Some refs_id =>
        let refs := map strip (split "," case_refs) in
        match refs_url with
        | None => Raised AttributeError
        | Some refs_url =>
            let url := rstrip_char "/" refs_url in
            let processed_refs := map (fun ref => _get_ref ref url) refs in
            Returned
              (Cases.set_custom_field data (str_of_int refs_id)
                 (join (String newline EmptyString) processed_refs))
        end
    | _, _ => Returned data
    end.

End CaseRefs.

(** ** api/testrail.py: send_request *)

Module TestrailApi.

(** What one call of [request_method] comes to: a response with its
    status code and what [response.json()] gives ([None] when it raises),
    or one of the connection errors that [send_request] catches. *)
Inductive answer : Type :=
| Response (status_code : Z) (json : option string)
| ConnectionFailed.

(** How [send_request] ends: with a value, by falling off the loop, which
    returns [None], or with an [APIError]. *)
Inductive outcome : Type :=
| Value (json : string)
| NoValue
| APIError (message : string).

(** The calls of [time.sleep]: the retry delay of the rate limiter, or a
    number of seconds. *)
Inductive pause : Type :=
| RetryDelay
| Backoff (seconds : Z).

(** [process_response(response, uri)]. *)
Definition process_response (json : option string) : outcome :=
  match json with
  | Some value => Value value
  | None => APIError "Failed to parse JSON response"
  end.

Section SendRequest.

(** The answer to the request of each attempt. *)
Variable request : Z -> answer.
Variable max_retries : Z.
Variable backoff_factor : Z.

(** The [for attempt in range(self.max_retries + 1)], with [remaining]
    turns to go: the outcome and the pauses made. *)
Fixpoint attempts (remaining : nat) (attempt : Z) (pauses : list pause)
  : outcome * list pause :=
  match remaining with
  | O => (NoValue, pauses)
  | S remaining' =>
      match request attempt with
      | Response status_code json =>
          if status_code =? 429
          then attempts remaining' (attempt + 1) (pauses ++ [RetryDelay])
          else if status_code <=? 201 then (process_response json, pauses)
          else if status_code =? 403 then (APIError "Access denied.", pauses)
          else if status_code =? 400
               then (APIError "Invalid data or entity not found.", pauses)
          else
            let pauses := pauses ++ [Backoff (backoff_factor * 2 ^ attempt)] in
            if attempt =? max_retries
            then (APIError "Max retries reached or server error.", pauses)
            else attempts remaining' (attempt + 1) pauses
      | ConnectionFailed =>
          let pauses := pauses ++ [Backoff (backoff_factor * 2 ^ attempt)] in
          if attempt =? max_retries
          then (APIError "Max retries reached or server error.", pauses)
          else attempts remaining' (attempt + 1) pauses
      end
  end.

(** [send_request(request_method, uri, payload)]. *)
Definition send_request : outcome * list pause :=
  attempts (Z.to_nat (max_retries + 1)) 0 [].

End SendRequest.

End TestrailApi.

(** ** entities/fields.py: which source fields are imported *)

Module FieldSelection.

(** A custom field as the source lists it: what [field] holds, and the
    keys [system_name] and [is_active]. *)
Record case_field : Type := {
  body : field;
  system_name : string;
  is_active : bool
}.

(** [_get_fields_to_import(custom_fields)]; [tests_fields] is
    [config.get('tests.fields')], [None] when the key is not set. *)
Definition _get_fields_to_import (tests_fields : option (list string))
    (custom_fields : list case_field) : option (list string) :=
  match tests_fields with
  | Some [] =>
      Some
        (fold_left
           (fun fields_to_import field =>
              match strip_prefix "custom_" (system_name field) with
              | Some _ => fields_to_import ++ [name (body field)]
              | None => fields_to_import
              end)
           custom_fields [])
  | _ => tests_fields
  end.

(** [field['type_id'] in self.mappings.custom_fields_type]. *)
Definition known_type (type_id : Z) : bool :=
  Dict.mem Z.eqb Mappings.custom_fields_type type_id.

(** The [for] loop of [import_fields_async] over the source fields: the
    fields handed to [_create_custom_field] and [mappings.step_fields].
    The membership test on a missing list raises; the task group around
    the loop passes the exception on inside an exception group. *)
Fixpoint select_fields (fields_to_import : option (list string))
    (custom_fields created : list case_field) (step_fields : list string)
  : result (list case_field * list string) :=
  match custom_fields with
  | [] => Returned (created, step_fields)
  | field :: rest =>
      match fields_to_import with
      | None => Raised TypeError
      | Some names =>
          let created :=
            if existsb (String.eqb (name (body field))) names && is_active field
            then if known_type (type_id (body field)) then created ++ [field]
                 else created
            else created in
          let step_fields :=
            if type_id (body field) =? 10 then step_fields ++ [name (body field)]
            else step_fields in
          select_fields fields_to_import rest created step_fields
      end
  end.

Definition import_fields_selection (tests_fields : option (list string))
    (custom_fields : list case_field) : result (list case_field * list string) :=
  select_fields (_get_fields_to_import tests_fields custom_fields) custom_fields [] [].

End FieldSelection.

(** ** entities/cases.py: the steps of a step field *)

Module CaseSteps.

(** A step of a step field; [additional_info] may be missing. *)
Record step : Type := {
  content : option string;
  expected : option string;
  additional_info : option (option string)
}.

(** A character of the class [[a-f0-9-]]. *)
Definition is_attachment_id_char (c : ascii) : bool :=
  between 97 102 (code c) || between 48 57 (code c) || Nat.eqb (code c) 45.

(** [check_attachments(string)] as a condition: whether
    [index\.php\?/attachments/get/([a-f0-9-]+)] is found. *)
Fixpoint has_attachment (s : string) : bool :=
  match strip_prefix "index.php?/attachments/get/" s with
  | Some (String c _) =>
      is_attachment_id_char c
      || match s with
         | String _ s' => has_attachment s'
         | EmptyString => false
         end
  | _ =>
      match s with
      | String _ s' => has_attachment s'
      | EmptyString => false
      end
  end.

Section Attachments.

(** [replace_attachments(string, code)]: it works on the store of the
    attachments and always returns a text. *)
Variable replace_attachments : string -> string.

(** [check_and_replace_attachments(string, code)]; a null comes back as
    the text of [str(None)]. *)
Definition check_and_replace_attachments (text : option string) : string :=
  match text with
  | Some s =>
      if negb (String.eqb s "") && has_attachment s then replace_attachments s
      else s
  | None => "None"
  end.

(** One turn of the loop over the steps of a step field: the steps
    gathered and the next position. *)
Definition import_step (acc : list (string * option string * option string * Z) * Z)
    (s : step) : list (string * option string * option string * Z) * Z :=
  let '(steps, i) := acc in
  let action := check_and_replace_attachments (content s) in
  let expected := check_and_replace_attachments (expected s) in
  let input_data :=
    check_and_replace_attachments
      (match additional_info s with
       | Some info => info
       | None => Some EmptyString
       end) in
  let action := strip action in
  let expected := strip expected in
  let input_data := strip input_data in
  if negb (String.eqb action "")
     || (String.eqb action "" && negb (String.eqb expected ""))
  then
    let action :=
      if String.eqb action "" || String.eqb action " " then "No action" else action in
    (steps ++ [(format_links_str action, Some (format_links_str expected),
                Some (format_links_str input_data), i)],
     i + 1)
  else (steps, i).

(** The block of [_import_custom_fields_for_case] for a step field with
    a value: what it stores under [data['steps']]. *)
Definition import_step_field (steps : list step)
  : list (string * option string * option string * Z) :=
  fst (fold_left import_step steps ([], 1)).

End Attachments.

End CaseSteps.

(** ** The TestRail Original ID field *)

Module OriginalId.

(** The request [_create_testrail_original_id_field] sends when it
    creates the field. *)
Definition original_id_field_data : custom_field_create :=
  {| cf_title := "TestRail Original ID"; cf_entity := 0; cf_type := 1;
     cf_is_filterable := true; cf_is_visible := true;
     cf_is_required := false; cf_is_enabled_for_all_projects := true |}.

Section OriginalIdField.

(** The target's answer to a creation request: the new id, or 0. *)
Variable create_custom_field : custom_field_create -> Z.

(** [_create_testrail_original_id_field(qase_custom_fields)] in
    fields.py: the attribute [mappings.testrail_original_id_field_id]
    ([None] while it has not been set) and the creation requests sent. *)
Definition _create_testrail_original_id_field (preserve_ids : bool)
    (qase_custom_fields : list qase_field) (field_id : option Z)
  : option Z * list custom_field_create :=
  if negb preserve_ids then
    let field_id :=
      fold_left
        (fun field_id qase_field =>
           if String.eqb (qase_field_title qase_field) "TestRail Original ID"
           then Some (qase_field_id qase_field)
           else field_id)
        qase_custom_fields field_id in
    match field_id with
    | Some found =>
        if found =? 0
        then (Some (create_custom_field original_id_field_data), [original_id_field_data])
        else (field_id, [])
    | None => (Some (create_custom_field original_id_field_data), [original_id_field_data])
    end
  else (field_id, []).

End OriginalIdField.

(** The lines of [_prepare_case] in cases.py that save the original id
    in the payload. *)
Definition store_original_id (preserve_ids : bool) (field_id : option Z)
    (original_id : Z) (data : Cases.payload) : Cases.payload :=
  match field_id with
  | Some field_id =>
      if negb preserve_ids
      then Cases.set_custom_field data (str_of_int field_id) (str_of_int original_id)
      else data
  | None => data
  end.

End OriginalId.

(** ** More reference definitions *)

Module Reference2.

(** One turn of the loop of [parse_items]. *)
Definition parse_line (values : list (string * string)) (line : string)
  : list (string * string) :=
  if contains "," line then
    let '(key, title) := split_once "," line in
    Dict.set String.eqb values (strip key) (strip title)
  else values.

(** The key and the label a line with a comma stands for. *)
Definition line_key (line : string) : string := strip (fst (split_once "," line)).
Definition line_label (line : string) : string := strip (snd (split_once "," line)).

(** A source of [total] cases answering every page request in full. *)
Definition pages_of (total offset limit : Z) : Z :=
  Z.min limit (Z.max 0 (total - offset)).

(** Sample system fields of the target: two case types and three
    priorities. *)
Definition sample_system_fields : list system_field :=
  [{| slug := "type";
      system_options :=
        [{| option_id := 1; option_title := "Other"; option_slug := "other" |};
         {| option_id := 8; option_title := "Functional"; option_slug := "functional" |}] |};
   {| slug := "priority";
      system_options :=
        [{| option_id := 3; option_title := "Low"; option_slug := "low" |};
         {| option_id := 2; option_title := "Medium"; option_slug := "medium" |};
         {| option_id := 5; option_title := "High"; option_slug := "high" |}] |}].

(** [s.startswith(p)] and [p in s] for a literal [p]. *)
Definition starts (p s : string) : bool :=
  match strip_prefix p s with
  | Some _ => true
  | None => false
  end.

Fixpoint occurs (p s : string) : bool :=
  starts p s
  || match s with
     | EmptyString => false
     | String _ s' => occurs p s'
     end.

(** The occurrences of a character in a text. *)
Fixpoint count_char (sep : ascii) (s : string) : nat :=
  match s with
  | EmptyString => O
  | String c s' => (if Ascii.eqb c sep then 1 else 0) + count_char sep s'
  end.

(** The entry of the created target values under an id. *)
Definition lift_value (entry : Z * string) : scalar * string :=
  (PyInt (fst entry), snd entry).

(** One turn of the loop of [__split_values]. *)
Definition split_values_step (result : result (list (string * string)))
    (item : string) : Py.result (list (string * string)) :=
  bind result (fun result =>
  if String.eqb item "" then Returned result
  else
    bind (Qase.split_pair item) (fun '(key, value) =>
    Returned (Dict.set String.eqb result key value))).

(** Every parsed key stands for a raw key of the split values, with the
    label being the trimmed raw value. *)
Definition covers (values parsed : list (string * string)) : Prop :=
  forall key label,
    Dict.get String.eqb parsed key = Some label ->
    exists raw value,
      Dict.get String.eqb values raw = Some value
      /\ strip raw = key /\ strip value = label.

(** The state of the values loop is well numbered: the ids are 1, 2, ...
    in order, the titles are the trimmed values seen, each once, and the
    field holds the same entries as the request. *)
Definition well_numbered (st : Qase.values_state) : Prop :=
  Qase.field_qase_values st = map lift_value (Qase.data_value st)
  /\ map fst (Qase.data_value st)
     = map Z.of_nat (seq 1 (List.length (Qase.data_value st)))
  /\ Qase.next_id st = Z.of_nat (S (List.length (Qase.data_value st)))
  /\ map snd (Qase.data_value st) = Qase.unique_values st
  /\ List.NoDup (Qase.unique_values st)
  /\ Forall (fun title => strip title = title) (Qase.unique_values st).

(** The sample enum field as a creation that was answered with the id 7
    leaves it. *)
Definition sample_created_field : field :=
  {| name := "severity"; label := "Severity"; type_id := 12;
     configs := configs (sample_enum_field 12);
     qase_id := 7; project_id := None; project_code := None;
     qase_values := Some [(PyInt 1, "Low"); (PyInt 2, "High"); (PyInt 3, "Mid")];
     tr_key_to_qase_id := Some [("1", PyInt 1); ("2", PyInt 2); ("3", PyInt 3)] |}.

(** A character that [quote] leaves as it is, and a character that may
    occur in what [quote] returns. *)
Definition safe_char (c : ascii) : bool := Urllib.safe_byte (code c).

Definition url_char (c : ascii) : bool := safe_char c || Ascii.eqb c "%".

Definition all_chars (p : ascii -> bool) (s : string) : Prop :=
  forall c, In c (list_ascii_of_string s) -> p c = true.

(** An answer that is rate limited, and an answer that makes
    [send_request] back off: a connection error or a status code that is
    none of 429, 403, 400 and above 201. *)
Definition rate_limited (a : TestrailApi.answer) : bool :=
  match a with
  | TestrailApi.Response status_code _ => status_code =? 429
  | TestrailApi.ConnectionFailed => false
  end.

Definition backed_off (a : TestrailApi.answer) : bool :=
  match a with
  | TestrailApi.Response status_code _ =>
      negb (status_code =? 429) && negb (status_code <=? 201)
      && negb (status_code =? 403) && negb (status_code =? 400)
  | TestrailApi.ConnectionFailed => true
  end.

(** The pause after an answer that does not end the loop. *)
Definition pause_after (backoff_factor : Z) (request : Z -> TestrailApi.answer)
    (attempt : Z) : TestrailApi.pause :=
  if rate_limited (request attempt) then TestrailApi.RetryDelay
  else TestrailApi.Backoff (backoff_factor * 2 ^ attempt).

(** The seconds of back-off in a list of pauses. *)
Definition backoff_seconds (pauses : list TestrailApi.pause) : Z :=
  fold_right
    (fun p total => match p with
                    | TestrailApi.Backoff seconds => seconds + total
                    | TestrailApi.RetryDelay => total
                    end) 0 pauses.

(** The names a run imports: the configured ones, or, when the
    configured list is empty, the names of the source fields whose system
    name starts with [custom_]. *)
Definition wanted_names (names : list string)
    (custom_fields : list FieldSelection.case_field) : list string :=
  match names with
  | [] =>
      map (fun cf => name (FieldSelection.body cf))
        (List.filter (fun cf => starts "custom_" (FieldSelection.system_name cf))
           custom_fields)
  | _ => names
  end.

(** The trimmed action, expected result and data of a step after the
    attachments have been replaced, and whether the step is kept. *)
Definition step_action (replace_attachments : string -> string) (s : CaseSteps.step)
  : string :=
  strip (CaseSteps.check_and_replace_attachments replace_attachments (CaseSteps.content s)).

Definition step_expected (replace_attachments : string -> string) (s : CaseSteps.step)
  : string :=
  strip (CaseSteps.check_and_replace_attachments replace_attachments (CaseSteps.expected s)).

Definition step_data (replace_attachments : string -> string) (s : CaseSteps.step)
  : string :=
  strip (CaseSteps.check_and_replace_attachments replace_attachments
           (match CaseSteps.additional_info s with
            | Some info => info
            | None => Some EmptyString
            end)).

Definition step_kept (replace_attachments : string -> string) (s : CaseSteps.step)
  : bool :=
  negb (String.eqb (step_action replace_attachments s) "")
  || negb (String.eqb (step_expected replace_attachments s) "").

(** The step created for a kept step at a position. *)
Definition created_step (replace_attachments : string -> string) (s : CaseSteps.step)
    (position : Z) : string * option string * option string * Z :=
  (format_links_str
     (if String.eqb (step_action replace_attachments s) "" then "No action"
      else step_action replace_attachments s),
   Some (format_links_str (step_expected replace_attachments s)),
   Some (format_links_str (step_data replace_attachments s)),
   position).

(** The kept steps, numbered from a position on. *)
Fixpoint numbered_steps (replace_attachments : string -> string) (position : Z)
    (steps : list CaseSteps.step) : list (string * option string * option string * Z) :=
  match steps with
  | [] => []
  | s :: rest =>
      if step_kept replace_attachments s
      then created_step replace_attachments s position
           :: numbered_steps replace_attachments (position + 1) rest
      else numbered_steps replace_attachments position rest
  end.

(** The position of a created step. *)
Definition step_position (created : string * option string * option string * Z) : Z :=
  snd created.

(** The id of the last target field with a given title, when it is not 0. *)
Definition last_titled (title : string) (qase_custom_fields : list qase_field)
  : option Z :=
  match
    find (fun q => String.eqb (qase_field_title q) title) (rev qase_custom_fields)
  with
  | Some q => if qase_field_id q =? 0 then None else Some (qase_field_id q)
  | None => None
  end.

(** The full word of a unit token, letter case aside, as the
    specification lists the units. *)
Definition unit_word (unit : string) : option string :=
  let u := lower unit in
  if String.eqb u "wk" || String.eqb u "week" then Some "week"
  else if String.eqb u "d" || String.eqb u "day" then Some "day"
  else if String.eqb u "hr" || String.eqb u "hour" || String.eqb u "h" then Some "hour"
  else if String.eqb u "min" || String.eqb u "minute" || String.eqb u "m" then Some "minute"
  else if String.eqb u "sec" || String.eqb u "second" then Some "second"
  else None.

(** A count with its word: nothing for a count of zero, the word alone
    for one, the word with an [s] otherwise. *)
Definition counted (count : Z) (word : string) : list string :=
  if count <=? 0 then []
  else if count =? 1 then [str_of_int count +:+ " " +:+ word]
  else [str_of_int count +:+ " " +:+ word +:+ "s"].

(** What a unit token with a rounded count contributes. *)
Definition token_words (unit : string) (count : Z) : list string :=
  match unit_word unit with
  | Some word => counted count word
  | None => []
  end.

(** The parts joined by blanks, or the phrase as given when there is no
    part. *)
Definition phrase_of (parts : list string) (given : string) : string :=
  match parts with
  | [] => given
  | _ => join " " parts
  end.

(** [math.ceil(float(value))] for the number of a token. *)
Definition rounded_up (value : string) : result Z :=
  Float.ceil (Float.of_decimal value).

(** Whether a unit token stands for a given word. *)
Definition has_word (unit word : string) : bool :=
  match unit_word unit with
  | Some w => String.eqb w word
  | None => false
  end.

(** Days, hours and minutes lead the tokens, in this order. *)
Definition days_hours_minutes_lead (tokens : list (string * string)) : bool :=
  match tokens with
  | (_, u1) :: (_, u2) :: (_, u3) :: _ =>
      has_word u1 "day" && has_word u2 "hour" && has_word u3 "minute"
  | _ => false
  end.

(** The field that a custom field of a case is imported into: the one
    stored under the normalized name followed by the project code, else
    the one stored under the normalized name alone; with whether it was
    found under the key of the project. *)
Definition found_field (custom_fields : gmap string field)
    (project_code suffix : string) : option (bool * field) :=
  let normalized_name := Cases.normalize_custom_field_name suffix in
  match custom_fields !! (normalized_name +:+ "_" +:+ project_code) with
  | Some f => Some (true, f)
  | None =>
      match custom_fields !! normalized_name with
      | Some f => Some (false, f)
      | None => None
      end
  end.

(** A second sample enum field, a single-select one, and a store that
    holds both sample fields under their bare names. *)
Definition sample_impact_field : field :=
  {| name := "impact"; label := "Impact"; type_id := 6;
     configs := configs (sample_enum_field 6);
     qase_id := 4; project_id := None; project_code := None;
     qase_values := Some [(PyInt 7, "Low")];
     tr_key_to_qase_id := Some [("1", PyInt 7)] |}.

Definition sample_custom_fields : gmap string field :=
  <["severity" := sample_enum_field 12]> (<["impact" := sample_impact_field]> ∅).

(** Branches and step blocks that leave the payload alone. *)
Definition no_plain_field (f : field) (normalized_name : string) (raw : pyobj)
    (data : Cases.payload) : Cases.payload := data.

Definition no_steps (field_name : string) (raw : pyobj) (data : Cases.payload)
  : Cases.payload := data.

End Reference2.

Import Reference2.

(** * Properties *)

(** ** fix_numbering *)

Section FixNumbering.

Lemma numbered_block_renumbered (lines : list string) :
  forall n out remaining,
    numbered_block (S n) lines = (out, remaining) ->
    out ++ renumbered 0 remaining = renumbered n lines
    /\ (List.length remaining <= List.length lines)%nat.
Proof.
  induction lines as [|line rest IH]; intros n out remaining H; simpl in H.
  - inversion H; subst. split; [reflexivity | lia].
  - simpl. destruct (numbering_match line) as [r|] eqn:Hm.
    + destruct (numbered_block (S (S n)) rest) as [out' rem'] eqn:Hb.
      inversion H; subst. destruct (IH _ _ _ Hb) as [Heq Hlen].
      split; [simpl; now rewrite Heq | simpl; lia].
    + inversion H; subst. split; [simpl; now rewrite Hm | simpl; lia].
Qed.

Lemma fix_lines_renumbered (fuel : nat) :
  forall lines, (List.length lines <= fuel)%nat ->
    fix_lines fuel lines = renumbered 0 lines.
Proof.
  induction fuel as [|fuel IH]; intros lines Hlen.
  - destruct lines; [reflexivity | simpl in Hlen; lia].
  - destruct lines as [|line rest]; [reflexivity|].
    cbn [fix_lines]. destruct (numbering_match line) as [r|] eqn:Hm.
    + cbn [numbered_block]. rewrite Hm.
      destruct (numbered_block 2 rest) as [out rem] eqn:Hb.
      destruct (numbered_block_renumbered rest 1 out rem Hb) as [Heq Hl].
      cbn [renumbered]. rewrite Hm. simpl. f_equal.
      rewrite IH by (simpl in Hlen; lia). exact Heq.
    + cbn [renumbered]. rewrite Hm. f_equal. apply IH. simpl in Hlen; lia.
Qed.

Lemma renumbered_length (lines : list string) :
  forall k, List.length (renumbered k lines) = List.length lines.
Proof.
  induction lines as [|line rest IH]; intros k; simpl; [reflexivity|].
  destruct (numbering_match line); simpl; now rewrite IH.
Qed.

Lemma block_position_snoc (pre : list string) (line : string) (k : nat) :
  block_position pre (List.length pre) k ->
  block_position (pre ++ [line]) (List.length (pre ++ [line]))
    (match numbering_match line with Some _ => S k | None => 0 end).
Proof.
  intros (Hk & Hrun & Hstart). rewrite length_app. simpl.
  destruct (numbering_match line) as [r|] eqn:Hm.
  - split; [lia|]. split.
    + intros j Hj. destruct (decide (j = List.length pre)) as [->|Hne].
      * exists line. split; [|red; rewrite Hm; eauto].
        rewrite lookup_app_r by lia. now rewrite Nat.sub_diag.
      * destruct (Hrun j) as (l & Hl & Hn); [lia|].
        exists l. split; [|exact Hn]. rewrite lookup_app_l; [exact Hl|].
        apply lookup_lt_Some in Hl. exact Hl.
    + destruct Hstart as [->|(l & Hl & Hn)]; [left; lia|].
      right. exists l. split; [|exact Hn].
      replace (List.length pre + 1 - S k - 1)%nat with (List.length pre - k - 1)%nat by lia.
      rewrite lookup_app_l; [exact Hl|]. apply lookup_lt_Some in Hl. exact Hl.
  - split; [lia|]. split; [intros j Hj; lia|].
    right. exists line. split; [|exact Hm].
    replace (List.length pre + 1 - 0 - 1)%nat with (List.length pre) by lia.
    rewrite lookup_app_r by lia. now rewrite Nat.sub_diag.
Qed.

Lemma block_position_app (pre post : list string) (k : nat) :
  block_position pre (List.length pre) k ->
  block_position (pre ++ post) (List.length pre) k.
Proof.
  intros (Hk & Hrun & Hstart). split; [exact Hk|]. split.
  - intros j Hj. destruct (Hrun j Hj) as (l & Hl & Hn). exists l.
    split; [|exact Hn]. rewrite lookup_app_l; [exact Hl|].
    apply lookup_lt_Some in Hl. exact Hl.
  - destruct Hstart as [->|(l & Hl & Hn)]; [now left|]. right. exists l.
    split; [|exact Hn]. rewrite lookup_app_l; [exact Hl|].
    apply lookup_lt_Some in Hl. exact Hl.
Qed.

Lemma renumbered_lookup (lines : list string) :
  forall pre k i line,
    block_position pre (List.length pre) k ->
    lines !! i = Some line ->
    match numbering_match line with
    | None => renumbered k lines !! i = Some line
    | Some rest =>
        exists k', block_position (pre ++ lines) (List.length pre + i) k'
          /\ renumbered k lines !! i
             = Some (str_of_int (Z.of_nat (S k')) +:+ ". " +:+ rest)
    end.
Proof.
  induction lines as [|head rest IH]; intros pre k i line Hpre Hi.
  - destruct i; discriminate.
  - destruct i as [|i].
    + simpl in Hi. inversion Hi; subst head. simpl.
      destruct (numbering_match line) as [r|] eqn:Hm; [|reflexivity].
      exists k. split.
      * rewrite Nat.add_0_r. now apply block_position_app.
      * simpl. unfold renumber. now rewrite Hm.
    + simpl in Hi.
      pose proof (block_position_snoc pre head k Hpre) as Hsnoc.
      specialize (IH (pre ++ [head])
                     (match numbering_match head with Some _ => S k | None => 0%nat end)
                     i line Hsnoc Hi).
      rewrite <- app_assoc in IH. simpl in IH.
      rewrite length_app in IH. simpl in IH.
      replace (List.length pre + 1 + i)%nat with (List.length pre + S i)%nat in IH by lia.
      simpl. destruct (numbering_match head); simpl; exact IH.
Qed.

End FixNumbering.

(** C8: [fix_numbering] renumbers every maximal block of consecutive
    numbered lines as 1..K in order and leaves the other lines as they are:
    the result has the lines of the input, a line that is not numbered is
    unchanged, and a numbered line with [k] numbered lines right before it
    (no more) gets the number [k + 1] in front of its text.  On the five
    lines of the example it gives 1, 2, text, 1, 2. *)
Theorem fix_numbering_renumbers_blocks :
  (forall text : string,
      exists result_lines,
        fix_numbering (PyStr text)
        = Returned (Scalar (PyStr (join (String newline EmptyString) result_lines)))
        /\ List.length result_lines = List.length (split newline text)
        /\ forall i line,
            split newline text !! i = Some line ->
            match numbering_match line with
            | None => result_lines !! i = Some line
            | Some rest =>
                exists k, block_position (split newline text) i k
                  /\ result_lines !! i
                     = Some (str_of_int (Z.of_nat (S k)) +:+ ". " +:+ rest)
            end)
  /\ fix_numbering (PyStr "0. A
0. B
text
0. C
0. D") = Returned (Scalar (PyStr "1. A
2. B
text
1. C
2. D")).
Proof.
  split; [|reflexivity].
  intros text. exists (renumbered 0 (split newline text)).
  split; [|split].
  - cbn [fix_numbering]. unfold fix_numbering_str.
    now rewrite fix_lines_renumbered by lia.
  - apply renumbered_length.
  - intros i line Hi.
    assert (Hstart : block_position [] (List.length (@nil string)) 0).
    { split; [simpl; lia|]. split; [intros j Hj; simpl in Hj; lia | now left]. }
    exact (renumbered_lookup (split newline text) [] 0%nat i line Hstart Hi).
Qed.

(** ** format_links_as_markdown *)

(** C7: on the text [http://a.com] the formatter returns
    [[http://a.com](http://a.com)], and on that text it returns something
    else: the address inside the square brackets is wrapped again.  Two
    applications do not equal one. *)
Theorem format_links_as_markdown_twice_differs :
  format_links_as_markdown (PyStr "http://a.com")
  = Returned (Scalar (PyStr "[http://a.com](http://a.com)"))
  /\ format_links_as_markdown (PyStr "[http://a.com](http://a.com)")
     = Returned (Scalar (PyStr "[[http://a.com](http://a.com)](http://a.com](http://a.com))"))
  /\ bind (format_links_as_markdown (PyStr "http://a.com")) format_links_as_markdown
     <> format_links_as_markdown (PyStr "http://a.com").
Proof.
  split; [reflexivity|]. split; [reflexivity|].
  intros H. vm_compute in H. discriminate H.
Qed.

(** ** Degenerate inputs *)

(** C10: [format_links_as_markdown] and [fix_numbering] return [None] on
    [None]; [convert_testrail_date_to_iso] and
    [convert_estimate_time_to_hours] return their argument on [None], on the
    empty string and on every value that is not a string.  None of these
    calls raises. *)
Theorem text_transforms_on_degenerate_inputs :
  format_links_as_markdown PyNone = Returned (Scalar PyNone)
  /\ fix_numbering PyNone = Returned (Scalar PyNone)
  /\ forall (first_parsed_format : string -> option string) (x : pyobj),
      x = Scalar PyNone \/ x = Scalar (PyStr "") \/ is_str x = false ->
      convert_testrail_date_to_iso first_parsed_format x = Returned x
      /\ convert_estimate_time_to_hours x = Returned x.
Proof.
  split; [reflexivity|]. split; [reflexivity|].
  intros fpf x [-> | [-> | Hx]]; [split; reflexivity | split; reflexivity |].
  unfold convert_testrail_date_to_iso, convert_estimate_time_to_hours.
  rewrite Hx. rewrite orb_true_r. split; reflexivity.
Qed.

(** ** convert_estimate_time_to_hours *)

Section Estimate.

Import Stdlib.Floats.SpecFloat.

Lemma of_ratio_sign (n d : Z) :
  match Float.of_ratio n d with
  | S754_finite s _ _ => s = false
  | _ => True
  end.
Proof.
  unfold Float.of_ratio. destruct n as [|p|p]; try exact I.
  destruct (SFdiv_core_binary Float.prec Float.emax (Z.pos p) 0 d 0) as [[q e] l].
  unfold binary_round_aux.
  destruct (shr_fexp Float.prec Float.emax q e l) as [mrs' e'].
  destruct (shr_fexp Float.prec Float.emax _ e' loc_Exact) as [mrs'' e''].
  destruct (shr_m mrs''); try exact I.
  now destruct (e'' <=? Float.emax - Float.prec).
Qed.

(** The number of a token is not negative, and neither is it rounded up. *)
Lemma rounded_up_nonneg (value : string) (count : Z) :
  rounded_up value = Returned count -> 0 <= count.
Proof.
  unfold rounded_up, Float.of_decimal.
  destruct (span is_digit value) as [int_part rest].
  assert (H : forall n d c, Float.ceil (Float.of_ratio n d) = Returned c -> 0 <= c).
  { intros n d c. pose proof (of_ratio_sign n d) as Hs.
    destruct (Float.of_ratio n d) as [s | s | | s m e]; cbn [Float.ceil];
      intros Hc; inversion Hc; subst; [lia|].
    destruct (0 <=? e) eqn:He.
    - apply Z.leb_le in He. pose proof (Z.pow_pos_nonneg 2 e). lia.
    - apply Z.leb_gt in He.
      assert (Hp : 0 < 2 ^ (- e)) by (apply Z.pow_pos_nonneg; lia).
      assert (Hd : Z.neg m / 2 ^ (- e) < 0) by (apply Z.div_lt_upper_bound; lia).
      change (- Z.pos m) with (Z.neg m). lia. }
  destruct rest; apply H.
Qed.

(** The unit lists of the code against the words of the specification. *)
Ltac by_unit_cases unit :=
  unfold has_word, unit_word, unit_in, week_units, day_units, hour_units,
    minute_units, second_units;
  cbn [existsb]; generalize (lower unit); intros l;
  repeat match goal with
         | |- context [String.eqb l ?x] =>
             destruct (String.eqb_spec l x) as [-> | ?]; try reflexivity
         end.

Lemma week_unit (unit : string) :
  unit_in (lower unit) week_units = has_word unit "week".
Proof. by_unit_cases unit. Qed.

Lemma day_unit (unit : string) :
  unit_in (lower unit) day_units = has_word unit "day".
Proof. by_unit_cases unit. Qed.

Lemma hour_unit (unit : string) :
  unit_in (lower unit) hour_units = has_word unit "hour".
Proof. by_unit_cases unit. Qed.

Lemma minute_unit (unit : string) :
  unit_in (lower unit) minute_units = has_word unit "minute".
Proof. by_unit_cases unit. Qed.

Lemma second_unit (unit : string) :
  unit_in (lower unit) second_units = has_word unit "second".
Proof. by_unit_cases unit. Qed.

Lemma has_word_token (unit word : string) (count : Z) :
  has_word unit word = true -> token_words unit count = counted count word.
Proof.
  unfold has_word, token_words. destruct (unit_word unit) as [w|]; [|discriminate].
  intros H. apply String.eqb_eq in H. now subst.
Qed.

Lemma append_empty (s : string) : s +:+ "" = s.
Proof.
  induction s as [|c s IH]; [reflexivity|].
  change (String c s +:+ "") with (String c (s +:+ "")). now rewrite IH.
Qed.

Lemma plural_counted (count : Z) (word : string) :
  0 < count -> [plural count word] = counted count word.
Proof.
  intros H. unfold plural, counted.
  replace (count <=? 0) with false by (symmetry; apply Z.leb_gt; lia).
  destruct (count =? 1); [now rewrite append_empty | reflexivity].
Qed.

Lemma append_if_positive_counted (result_parts : list string) (count : Z)
    (word : string) :
  append_if_positive result_parts count word = result_parts ++ counted count word.
Proof.
  unfold append_if_positive. destruct (Z.ltb_spec 0 count) as [H | H].
  - now rewrite plural_counted.
  - unfold counted. replace (count <=? 0) with true by (symmetry; apply Z.leb_le; lia).
    now rewrite app_nil_r.
Qed.

(** One turn of the regular loop writes the words of its token. *)
Lemma append_unit_words (result_parts : list string) (value unit : string)
    (count : Z) :
  rounded_up value = Returned count ->
  append_unit result_parts (value, unit)
  = Returned (result_parts ++ token_words unit count).
Proof.
  intros H. pose proof (rounded_up_nonneg _ _ H) as Hpos.
  unfold append_unit. unfold rounded_up in H. rewrite H. cbn [bind].
  rewrite week_unit, day_unit, hour_unit, minute_unit, second_unit.
  destruct (Z.eqb_spec count 0) as [-> | Hne].
  - unfold token_words, counted. cbn [Z.leb Z.compare].
    destruct (unit_word unit); now rewrite app_nil_r.
  - assert (Hcount : 0 < count) by lia.
    unfold has_word, token_words, unit_word.
    generalize (lower unit). intros l.
    destruct (String.eqb l "wk" || String.eqb l "week");
      [cbn; now rewrite plural_counted|].
    destruct (String.eqb l "d" || String.eqb l "day");
      [cbn; now rewrite plural_counted|].
    destruct (String.eqb l "hr" || String.eqb l "hour" || String.eqb l "h");
      [cbn; now rewrite plural_counted|].
    destruct (String.eqb l "min" || String.eqb l "minute" || String.eqb l "m");
      [cbn; now rewrite plural_counted|].
    destruct (String.eqb l "sec" || String.eqb l "second");
      [cbn; now rewrite plural_counted|].
    cbn. now rewrite app_nil_r.
Qed.

Lemma convert_estimate_str_tokens (estimate_string : string) :
  convert_estimate_str estimate_string
  = estimate_of_matches (strip estimate_string) (estimate_tokens estimate_string).
Proof.
  unfold convert_estimate_str, estimate_tokens.
  destruct (String.eqb (strip estimate_string) "") eqn:He; [|reflexivity].
  apply String.eqb_eq in He. rewrite He. reflexivity.
Qed.

(** A phrase of one token: the words of the token. *)
Lemma one_token_words (estimate_string value unit : string) (count : Z) :
  rounded_up value = Returned count ->
  estimate_of_matches estimate_string [(value, unit)]
  = Returned (phrase_of (token_words unit count) estimate_string).
Proof.
  intros H. cbn [estimate_of_matches first_two firstn append_units].
  rewrite (append_unit_words [] value unit count H). reflexivity.
Qed.

(** The first two tokens, whichever branch writes them. *)
Lemma first_two_words (estimate_string v1 u1 v2 u2 : string)
    (rest : list (string * string)) (n1 n2 : Z) :
  rounded_up v1 = Returned n1 ->
  rounded_up v2 = Returned n2 ->
  first_two estimate_string ((v1, u1) :: (v2, u2) :: rest)
  = Returned (phrase_of (token_words u1 n1 ++ token_words u2 n2) estimate_string).
Proof.
  intros H1 H2. unfold first_two. cbn [firstn].
  rewrite !hour_unit, minute_unit, day_unit.
  destruct (has_word u1 "hour" && has_word u2 "minute") eqn:Hhm.
  - apply andb_prop in Hhm as [Hh Hm].
    rewrite (has_word_token u1 "hour" n1 Hh), (has_word_token u2 "minute" n2 Hm).
    unfold rounded_up in H1, H2. rewrite H1. cbn [bind]. rewrite H2. cbn [bind].
    now rewrite !append_if_positive_counted.
  - destruct (has_word u1 "day" && has_word u2 "hour") eqn:Hdh.
    + apply andb_prop in Hdh as [Hd Hh].
      rewrite (has_word_token u1 "day" n1 Hd), (has_word_token u2 "hour" n2 Hh).
      unfold rounded_up in H1, H2. rewrite H1. cbn [bind]. rewrite H2. cbn [bind].
      now rewrite !append_if_positive_counted.
    + cbn [append_units].
      rewrite (append_unit_words [] v1 u1 n1 H1). cbn [bind app].
      rewrite (append_unit_words _ v2 u2 n2 H2). reflexivity.
Qed.

(** Outside the special case the third token and the ones after it are
    not read. *)
Lemma two_tokens_words (estimate_string v1 u1 v2 u2 : string)
    (rest : list (string * string)) (n1 n2 : Z) :
  days_hours_minutes_lead ((v1, u1) :: (v2, u2) :: rest) = false ->
  rounded_up v1 = Returned n1 ->
  rounded_up v2 = Returned n2 ->
  estimate_of_matches estimate_string ((v1, u1) :: (v2, u2) :: rest)
  = Returned (phrase_of (token_words u1 n1 ++ token_words u2 n2) estimate_string).
Proof.
  intros Hlead H1 H2. cbn [estimate_of_matches].
  destruct rest as [|[v3 u3] rest]; [now apply first_two_words|].
  cbn [days_hours_minutes_lead] in Hlead.
  rewrite day_unit, hour_unit, minute_unit, Hlead.
  now apply first_two_words.
Qed.

Lemma has_word_of (unit word : string) :
  unit_word unit = Some word -> has_word unit word = true.
Proof.
  unfold has_word. intros ->. apply String.eqb_refl.
Qed.

(** Days, hours, minutes: the minutes are added to the hours. *)
Lemma days_hours_minutes_words (estimate_string : string)
    (d ud h uh m um : string) (rest : list (string * string)) (days hours : Z) :
  unit_word ud = Some "day" ->
  unit_word uh = Some "hour" ->
  unit_word um = Some "minute" ->
  rounded_up d = Returned days ->
  Float.ceil (Float.add (Float.of_decimal h)
                (Float.div (Float.of_decimal m) (Float.of_int 60)))
  = Returned hours ->
  estimate_of_matches estimate_string ((d, ud) :: (h, uh) :: (m, um) :: rest)
  = Returned (phrase_of (counted days "day" ++ counted hours "hour") estimate_string).
Proof.
  intros Hd Hh Hm Hdays Hhours. cbn [estimate_of_matches].
  rewrite day_unit, hour_unit, minute_unit.
  rewrite (has_word_of _ _ Hd), (has_word_of _ _ Hh), (has_word_of _ _ Hm).
  cbn [andb]. unfold rounded_up in Hdays. rewrite Hdays. cbn [bind].
  rewrite Hhours. cbn [bind]. now rewrite !append_if_positive_counted.
Qed.

End Estimate.

(** C4: the estimate parser reads the unit tokens of a phrase and writes
    the first two of them, and only these, each as its number rounded up
    followed by the full word of its unit (week, day, hour, minute or
    second, with an [s] unless the number is 1, and nothing for a zero);
    when days, hours and minutes lead the phrase it writes the days and,
    as hours, the hours plus the minutes over sixty, rounded up; when
    hours and minutes lead it writes both, each rounded up, without
    adding them.  The three phrases of the specification give
    [1 week 1 day], [5 hours 30 minutes] and [1 day 4 hours]. *)
Theorem estimate_parser_first_two_units :
  (forall estimate_string value unit count,
      estimate_tokens estimate_string = [(value, unit)] ->
      rounded_up value = Returned count ->
      convert_estimate_str estimate_string
      = Returned (phrase_of (token_words unit count) (strip estimate_string)))
  /\ (forall estimate_string v1 u1 v2 u2 rest n1 n2,
        estimate_tokens estimate_string = (v1, u1) :: (v2, u2) :: rest ->
        days_hours_minutes_lead (estimate_tokens estimate_string) = false ->
        rounded_up v1 = Returned n1 ->
        rounded_up v2 = Returned n2 ->
        convert_estimate_str estimate_string
        = Returned (phrase_of (token_words u1 n1 ++ token_words u2 n2)
                      (strip estimate_string)))
  /\ (forall estimate_string d ud h uh m um rest days hours,
        estimate_tokens estimate_string = (d, ud) :: (h, uh) :: (m, um) :: rest ->
        unit_word ud = Some "day" ->
        unit_word uh = Some "hour" ->
        unit_word um = Some "minute" ->
        rounded_up d = Returned days ->
        Float.ceil (Float.add (Float.of_decimal h)
                      (Float.div (Float.of_decimal m) (Float.of_int 60)))
        = Returned hours ->
        convert_estimate_str estimate_string
        = Returned (phrase_of (counted days "day" ++ counted hours "hour")
                      (strip estimate_string)))
  /\ (forall estimate_string h uh m um rest hours minutes,
        estimate_tokens estimate_string = (h, uh) :: (m, um) :: rest ->
        unit_word uh = Some "hour" ->
        unit_word um = Some "minute" ->
        rounded_up h = Returned hours ->
        rounded_up m = Returned minutes ->
        convert_estimate_str estimate_string
        = Returned (phrase_of (counted hours "hour" ++ counted minutes "minute")
                      (strip estimate_string)))
  /\ convert_estimate_time_to_hours (PyStr "1wk 1d 1hr 1min 1sec")
     = Returned (Scalar (PyStr "1 week 1 day"))
  /\ convert_estimate_time_to_hours (PyStr "5hr 30min")
     = Returned (Scalar (PyStr "5 hours 30 minutes"))
  /\ convert_estimate_time_to_hours (PyStr "1d 3h 50m")
     = Returned (Scalar (PyStr "1 day 4 hours"))
  /\ convert_estimate_time_to_hours (PyStr "3min 20sec")
     = Returned (Scalar (PyStr "3 minutes 20 seconds"))
  /\ convert_estimate_time_to_hours (PyStr "2weeks 1.5hours")
     = Returned (Scalar (PyStr "2 weeks 2 hours"))
  /\ convert_estimate_time_to_hours (PyStr "1 DAY 1 Hour")
     = Returned (Scalar (PyStr "1 day 1 hour"))
  /\ convert_estimate_time_to_hours (PyStr "2H 5M 7S")
     = Returned (Scalar (PyStr "2 hours 5 minutes"))
  /\ convert_estimate_time_to_hours (PyStr "0.2d 45 seconds")
     = Returned (Scalar (PyStr "1 day 45 seconds")).
Proof.
  refine (conj _ (conj _ (conj _ (conj _ _)))).
  - intros s value unit count Ht Hc. rewrite convert_estimate_str_tokens, Ht.
    now apply one_token_words.
  - intros s v1 u1 v2 u2 rest n1 n2 Ht Hlead H1 H2.
    rewrite convert_estimate_str_tokens. rewrite Ht in *.
    now apply two_tokens_words.
  - intros s d ud h uh m um rest days hours Ht. rewrite convert_estimate_str_tokens, Ht.
    apply days_hours_minutes_words.
  - intros s h uh m um rest hours minutes Ht Hh Hm Hhours Hminutes.
    rewrite convert_estimate_str_tokens, Ht.
    rewrite (two_tokens_words _ h uh m um rest hours minutes); [|
      | exact Hhours | exact Hminutes].
    + unfold token_words. now rewrite Hh, Hm.
    + destruct rest as [|[v3 u3] rest]; [reflexivity|].
      cbn [days_hours_minutes_lead]. unfold has_word at 1. now rewrite Hh.
  - repeat split; vm_compute; reflexivity.
Qed.

(** ** Case ids *)

Section CaseIds.

Import Hashlib Cases.

Lemma hex_value_digit (n : Z) :
  0 <= n < 16 -> hex_value (hex_digit n) = Some n.
Proof.
  intros H. rewrite <- (Z2Nat.id n) by lia.
  assert (Hk : (Z.to_nat n < 16)%nat) by lia.
  revert Hk. generalize (Z.to_nat n). intros k Hk.
  do 16 (destruct k as [|k]; [reflexivity|]). lia.
Qed.

Lemma int16_from_byte (acc b : Z) (rest : string) :
  int16_from acc (String (hex_digit (b mod 256 / 16))
                    (String (hex_digit (b mod 256 mod 16)) rest))
  = int16_from (16 * (16 * acc + b mod 256 / 16) + b mod 256 mod 16) rest.
Proof.
  cbn [int16_from].
  rewrite hex_value_digit
    by (split; [apply Z.div_pos; [apply Z.mod_pos_bound|]
               | apply Z.div_lt_upper_bound; [|apply Z.mod_pos_bound]]; lia).
  rewrite hex_value_digit by (apply Z.mod_pos_bound; lia).
  reflexivity.
Qed.

Lemma le_bytes_4 (x : Z) :
  le_bytes 4 x
  = [x mod 256; (x / 256) mod 256; (x / 256 / 256) mod 256;
     (x / 256 / 256 / 256) mod 256].
Proof. reflexivity. Qed.

(** The digest always starts with four bytes, so its first eight
    hexadecimal digits always read as a number. *)
Lemma hashed_returns (original_id : Z) :
  exists hashed_id, hashed original_id = Returned hashed_id.
Proof.
  unfold hashed, md5_hexdigest, digest.
  destruct (fold_left compress _ initial) as [[[a b] c] d].
  rewrite (le_bytes_4 a). cbn [app hex].
  set (tail := hex _). cbn [substring].
  replace (substring 0 0 tail) with EmptyString by (destruct tail; reflexivity).
  unfold int16.
  replace (a / 256 mod 256) with ((a / 256) mod 256 mod 256)
    by (rewrite Z.mod_mod; lia).
  replace (a / 256 / 256 mod 256) with ((a / 256 / 256) mod 256 mod 256)
    by (rewrite Z.mod_mod; lia).
  replace (a / 256 / 256 / 256 mod 256) with ((a / 256 / 256 / 256) mod 256 mod 256)
    by (rewrite Z.mod_mod; lia).
  replace (a mod 256) with (a mod 256 mod 256) by (rewrite Z.mod_mod; lia).
  rewrite !int16_from_byte. cbn [int16_from]. eauto.
Qed.

Lemma max_safe_id_value : MAX_SAFE_ID = 2147483647.
Proof. reflexivity. Qed.

(** What one case leaves in the store. *)
Lemma prepare_case_id_spec (preserve_ids : bool) (now_ms original_id : Z)
    (m : Mappings.t) :
  exists safe_id,
    prepare_case_id preserve_ids now_ms original_id m
    = Returned (safe_id, Mappings.add_case_id_mapping m original_id safe_id)
    /\ safe_id <= MAX_SAFE_ID
    /\ (MAX_SAFE_ID < original_id ->
        exists hashed_id, hashed original_id = Returned hashed_id
                          /\ safe_id = hashed_id mod MAX_SAFE_ID)
    /\ (preserve_ids = true -> original_id <= MAX_SAFE_ID -> safe_id = original_id).
Proof.
  destruct (hashed_returns original_id) as [h Hh].
  pose proof max_safe_id_value as HM.
  assert (Hmod : forall x, x mod MAX_SAFE_ID <= MAX_SAFE_ID).
  { intros x. pose proof (Z.mod_pos_bound x MAX_SAFE_ID). lia. }
  unfold prepare_case_id, choose_safe_id. rewrite Hh.
  destruct (original_id <=? MAX_SAFE_ID) eqn:Hle.
  - apply Z.leb_le in Hle. destruct preserve_ids; cbn [bind].
    + exists original_id.
      replace (original_id >? MAX_SAFE_ID) with false by (symmetry; lia).
      repeat split; [exact Hle | lia].
    + exists (now_ms mod MAX_SAFE_ID). specialize (Hmod now_ms).
      replace (now_ms mod MAX_SAFE_ID >? MAX_SAFE_ID) with false by (symmetry; lia).
      repeat split; [exact Hmod | lia | discriminate].
  - apply Z.leb_gt in Hle. specialize (Hmod h).
    exists (h mod MAX_SAFE_ID).
    destruct preserve_ids; cbn [bind];
      replace (h mod MAX_SAFE_ID >? MAX_SAFE_ID) with false by (symmetry; lia);
      (repeat split; [exact Hmod | intros _; eauto | intros; lia]).
Qed.

Lemma prepare_cases_ids_safe (preserve_ids : bool) (cases : list (Z * Z)) :
  forall m,
    (forall s t, Mappings.case_id_mapping m !! s = Some t -> safe_entry preserve_ids s t) ->
    forall s t,
      Mappings.case_id_mapping (prepare_cases_ids preserve_ids cases m) !! s = Some t ->
      safe_entry preserve_ids s t.
Proof.
  induction cases as [|[original_id now_ms] rest IH]; intros m Hm; [exact Hm|].
  cbn [prepare_cases_ids fold_left].
  destruct (prepare_case_id_spec preserve_ids now_ms original_id m)
    as (safe_id & -> & H1 & H2 & H3).
  apply IH. intros s t. cbn [Mappings.add_case_id_mapping Mappings.case_id_mapping].
  rewrite lookup_insert. case_decide as Hs.
  - intros Ht. inversion Ht; subst. repeat split; assumption.
  - apply Hm.
Qed.

Lemma prepare_cases_ids_keeps (preserve_ids : bool) (cases : list (Z * Z)) :
  forall m s,
    is_Some (Mappings.case_id_mapping m !! s) ->
    is_Some (Mappings.case_id_mapping (prepare_cases_ids preserve_ids cases m) !! s).
Proof.
  induction cases as [|[original_id now_ms] rest IH]; intros m s Hs; [exact Hs|].
  cbn [prepare_cases_ids fold_left].
  destruct (prepare_case_id_spec preserve_ids now_ms original_id m)
    as (safe_id & -> & _).
  apply IH. cbn [Mappings.add_case_id_mapping Mappings.case_id_mapping].
  rewrite lookup_insert. case_decide; [eauto | exact Hs].
Qed.

Lemma prepare_cases_ids_records (preserve_ids : bool) (cases : list (Z * Z)) :
  forall m s now_ms,
    In (s, now_ms) cases ->
    is_Some (Mappings.case_id_mapping (prepare_cases_ids preserve_ids cases m) !! s).
Proof.
  induction cases as [|[original_id now] rest IH]; intros m s now_ms Hin; [destruct Hin|].
  destruct Hin as [Heq | Hin].
  - inversion Heq; subst. cbn [prepare_cases_ids fold_left].
    destruct (prepare_case_id_spec preserve_ids now_ms s m) as (safe_id & -> & _).
    apply prepare_cases_ids_keeps.
    cbn [Mappings.add_case_id_mapping Mappings.case_id_mapping].
    rewrite lookup_insert_eq. eauto.
  - cbn [prepare_cases_ids fold_left].
    destruct (prepare_case_id preserve_ids now original_id m) as [[? m']|];
      eapply IH; exact Hin.
Qed.

Lemma prepare_cases_ids_keeps_identity (cases : list (Z * Z)) :
  forall m s,
    s <= MAX_SAFE_ID ->
    Mappings.case_id_mapping m !! s = Some s ->
    Mappings.case_id_mapping (prepare_cases_ids true cases m) !! s = Some s.
Proof.
  induction cases as [|[original_id now_ms] rest IH]; intros m s Hs Hm; [exact Hm|].
  cbn [prepare_cases_ids fold_left].
  destruct (prepare_case_id_spec true now_ms original_id m)
    as (safe_id & -> & _ & _ & Hid).
  apply IH; [exact Hs|].
  cbn [Mappings.add_case_id_mapping Mappings.case_id_mapping].
  rewrite lookup_insert. case_decide as Heq; [|exact Hm].
  subst original_id. now rewrite Hid.
Qed.

End CaseIds.

(** C1: whatever [tests.preserve_ids] is, every case that has been
    prepared has an entry in [case_id_mapping], and every entry of the
    store is at most 2,147,483,647; the entry of a source id above that
    bound is the first eight hexadecimal digits of the MD5 of its decimal
    text, read as a number, modulo 2^31 - 1, whatever the clock and the
    setting.  For the id 9,000,000,000 that is 1,797,906,794. *)
Theorem case_ids_fit_int32 :
  forall (preserve_ids : bool) (cases : list (Z * Z)),
    let store :=
      Mappings.case_id_mapping
        (Cases.prepare_cases_ids preserve_ids cases Mappings.init) in
    (forall s now_ms, In (s, now_ms) cases -> is_Some (store !! s))
    /\ (forall s t,
          store !! s = Some t ->
          t <= 2147483647
          /\ (2147483647 < s ->
              exists hashed_id,
                Hashlib.int16
                  (substring 0 8 (Hashlib.md5_hexdigest (str_of_int s)))
                = Returned hashed_id
                /\ t = hashed_id mod (2 ^ 31 - 1)))
    /\ (forall now_ms,
          Mappings.case_id_mapping
            (Cases.prepare_cases_ids preserve_ids [(9000000000, now_ms)] Mappings.init)
            !! 9000000000
          = Some 1797906794).
Proof.
  intros preserve_ids cases store. split; [|split].
  - intros s now_ms Hin. eapply prepare_cases_ids_records; exact Hin.
  - intros s t Hst.
    destruct (prepare_cases_ids_safe preserve_ids cases Mappings.init) with (s := s) (t := t)
      as (H1 & H2 & _); [| exact Hst |].
    + intros s' t' H. cbn in H. rewrite lookup_empty in H. discriminate H.
    + split; [exact H1|]. intros Hs. apply H2. exact Hs.
  - intros now_ms. cbn [Cases.prepare_cases_ids fold_left].
    destruct (prepare_case_id_spec preserve_ids now_ms 9000000000 Mappings.init)
      as (safe_id & -> & _ & Hh & _).
    cbn [Mappings.add_case_id_mapping Mappings.case_id_mapping].
    rewrite lookup_insert_eq. f_equal.
    destruct Hh as (h & Hh & ->); [reflexivity|].
    assert (Hv : Cases.hashed 9000000000 = Returned 1797906794) by (vm_compute; reflexivity).
    rewrite Hv in Hh. inversion Hh; subst h. reflexivity.
Qed.

(** C5: with [tests.preserve_ids] on, a prepared case whose source id is
    at most 2,147,483,647 is recorded under its own id. *)
Theorem preserved_ids_are_kept (cases : list (Z * Z)) (m : Mappings.t)
    (s now_ms : Z) :
  In (s, now_ms) cases ->
  s <= 2147483647 ->
  Mappings.case_id_mapping (Cases.prepare_cases_ids true cases m) !! s = Some s.
Proof.
  revert m. induction cases as [|[original_id now] rest IH]; intros m Hin Hs;
    [destruct Hin|].
  destruct Hin as [Heq | Hin].
  - inversion Heq; subst. cbn [Cases.prepare_cases_ids fold_left].
    destruct (prepare_case_id_spec true now_ms s m) as (safe_id & -> & _ & _ & Hid).
    apply prepare_cases_ids_keeps_identity; [exact Hs|].
    cbn [Mappings.add_case_id_mapping Mappings.case_id_mapping].
    rewrite lookup_insert_eq. now rewrite Hid.
  - cbn [Cases.prepare_cases_ids fold_left].
    destruct (Cases.prepare_case_id true now original_id m) as [[? m']|];
      apply IH; assumption.
Qed.

(** Three prepared cases, the last with the largest id that is kept. *)
Lemma preserved_ids_are_kept_witness :
  Mappings.case_id_mapping
    (Cases.prepare_cases_ids true
       [(5, 1700000000000); (9000000000, 1700000000001); (2147483647, 1700000000002)]
       Mappings.init) !! 2147483647
  = Some 2147483647.
Proof.
  apply (preserved_ids_are_kept
           [(5, 1700000000000); (9000000000, 1700000000001); (2147483647, 1700000000002)]
           Mappings.init 2147483647 1700000000002).
  - right. right. left. reflexivity.
  - intros H. discriminate H.
Defined.

(** ** Dictionaries and trimming *)

Section Dictionaries.

Context {V : Type}.

Lemma dict_get_set_eq (d : list (string * V)) (k : string) (v : V) :
  Dict.get String.eqb (Dict.set String.eqb d k v) k = Some v.
Proof.
  induction d as [|[k' v'] d IH]; simpl.
  - now rewrite String.eqb_refl.
  - destruct (String.eqb k' k) eqn:E; simpl; rewrite E; [reflexivity | exact IH].
Qed.

Lemma dict_get_set_ne (d : list (string * V)) (k k0 : string) (v : V) :
  k <> k0 ->
  Dict.get String.eqb (Dict.set String.eqb d k v) k0 = Dict.get String.eqb d k0.
Proof.
  intros Hne. induction d as [|[k' v'] d IH]; simpl.
  - apply String.eqb_neq in Hne. now rewrite Hne.
  - destruct (String.eqb k' k) eqn:E; simpl.
    + apply String.eqb_eq in E. subst k'.
      apply String.eqb_neq in Hne. now rewrite Hne.
    + destruct (String.eqb k' k0); [reflexivity | exact IH].
Qed.

Lemma dict_get_not_in (d : list (string * V)) (k : string) :
  ~ In k (map fst d) -> Dict.get String.eqb d k = None.
Proof.
  induction d as [|[k' v'] d IH]; simpl; intros Hn; [reflexivity|].
  destruct (String.eqb k' k) eqn:E.
  - apply String.eqb_eq in E. tauto.
  - apply IH. tauto.
Qed.

Lemma dict_set_keys (d : list (string * V)) (k : string) (v : V) :
  map fst (Dict.set String.eqb d k v)
  = if Dict.mem String.eqb d k then map fst d else map fst d ++ [k].
Proof.
  unfold Dict.mem. induction d as [|[k' v'] d IH]; simpl; [reflexivity|].
  destruct (String.eqb k' k) eqn:E; simpl; [reflexivity|].
  rewrite IH. now destruct (Dict.get String.eqb d k).
Qed.

Lemma dict_set_nodup (d : list (string * V)) (k : string) (v : V) :
  List.NoDup (map fst d) -> List.NoDup (map fst (Dict.set String.eqb d k v)).
Proof.
  intros Hd. rewrite dict_set_keys. unfold Dict.mem.
  destruct (Dict.get String.eqb d k) eqn:E; [exact Hd|].
  apply NoDup_ListNoDup. apply NoDup_app. split; [|split].
  - now apply NoDup_ListNoDup.
  - intros x Hx Hk. apply list_elem_of_In in Hx.
    apply list_elem_of_In in Hk. destruct Hk as [<- | []].
    clear Hd. induction d as [|[k' v'] d IH]; simpl in *; [tauto|].
    destruct (String.eqb k' k) eqn:E'; [discriminate|].
    apply String.eqb_neq in E'. destruct Hx as [Hx | Hx]; [tauto | now apply IH].
  - apply NoDup_ListNoDup. constructor; [tauto | constructor].
Qed.

End Dictionaries.

Section Trimming.

Lemma rstrip_idempotent (s : string) : rstrip (rstrip s) = rstrip s.
Proof.
  induction s as [|c s IH]; [reflexivity|].
  cbn [rstrip]. destruct (rstrip s) as [|d r] eqn:E.
  - destruct (is_space c) eqn:Hc; [reflexivity|].
    cbn [rstrip]. now rewrite Hc.
  - cbn [rstrip]. cbn [rstrip] in IH. now rewrite IH.
Qed.

Lemma rstrip_head (c : ascii) (s : string) :
  is_space c = false -> rstrip (String c s) = String c (rstrip s).
Proof.
  intros Hc. cbn [rstrip]. destruct (rstrip s); [now rewrite Hc | reflexivity].
Qed.

Lemma lstrip_head (s : string) :
  lstrip s = EmptyString
  \/ exists c r, lstrip s = String c r /\ is_space c = false.
Proof.
  induction s as [|c s IH]; [now left|].
  cbn [lstrip]. destruct (is_space c) eqn:Hc; [exact IH|].
  right. eauto.
Qed.

Lemma strip_idempotent (s : string) : strip (strip s) = strip s.
Proof.
  unfold strip. destruct (lstrip_head s) as [-> | (c & r & -> & Hc)]; [reflexivity|].
  rewrite (rstrip_head c r Hc). cbn [lstrip]. rewrite Hc.
  rewrite <- (rstrip_head c r Hc). apply rstrip_idempotent.
Qed.

Lemma parse_items_trimmed (items key label : string) :
  Dict.get String.eqb (parse_items items) key = Some label -> strip label = label.
Proof.
  unfold parse_items.
  assert (H : forall lines acc,
             (forall k l, Dict.get String.eqb acc k = Some l -> strip l = l) ->
             forall k l,
               Dict.get String.eqb
                 (fold_left
                    (fun values line =>
                       if contains "," line then
                         let '(key, title) := split_once "," line in
                         Dict.set String.eqb values (strip key) (strip title)
                       else values) lines acc) k = Some l ->
               strip l = l).
  { induction lines as [|line lines IH]; intros acc Hacc k l; [apply Hacc|].
    cbn [fold_left]. apply IH. intros k' l'.
    destruct (contains "," line); [|apply Hacc].
    destruct (split_once "," line) as [key' title'].
    destruct (String.eqb_spec (strip key') k') as [<- | Hne].
    - rewrite dict_get_set_eq. intros Heq. inversion Heq. apply strip_idempotent.
    - rewrite dict_get_set_ne by exact Hne. apply Hacc. }
  apply H. intros k l Hk. discriminate Hk.
Qed.

Lemma parse_items_nodup (items : string) :
  List.NoDup (map fst (parse_items items)).
Proof.
  unfold parse_items.
  assert (H : forall lines acc,
             List.NoDup (map fst acc) ->
             List.NoDup
               (map fst
                  (fold_left
                     (fun values line =>
                        if contains "," line then
                          let '(key, title) := split_once "," line in
                          Dict.set String.eqb values (strip key) (strip title)
                        else values) lines acc))).
  { induction lines as [|line lines IH]; intros acc Hacc; [exact Hacc|].
    cbn [fold_left]. apply IH.
    destruct (contains "," line); [|exact Hacc].
    destruct (split_once "," line) as [key' title'].
    now apply dict_set_nodup. }
  apply H. constructor.
Qed.

End Trimming.

(** ** The mapping from source enum keys to target value ids *)

Section EnumMapping.

Import Fields.

Lemma first_match_sound (tr_title : string) (qase_values : list (scalar * string)) :
  forall qase_id,
    first_match tr_title qase_values = Some qase_id ->
    exists qase_title,
      In (qase_id, qase_title) qase_values /\ strip qase_title = strip tr_title.
Proof.
  induction qase_values as [|[id title] rest IH]; intros qase_id H; [discriminate|].
  cbn [first_match] in H.
  destruct (String.eqb_spec (strip tr_title) (strip title)) as [Heq | Hne].
  - inversion H; subst. exists title. split; [now left | now symmetry].
  - destruct (IH _ H) as (t & Hin & Ht). exists t. split; [now right | exact Ht].
Qed.

Lemma first_match_none (tr_title : string) (qase_values : list (scalar * string)) :
  (forall qase_id qase_title,
      In (qase_id, qase_title) qase_values -> strip qase_title <> strip tr_title) ->
  first_match tr_title qase_values = None.
Proof.
  induction qase_values as [|[id title] rest IH]; intros H; [reflexivity|].
  cbn [first_match].
  destruct (String.eqb_spec (strip tr_title) (strip title)) as [Heq | Hne].
  - exfalso. apply (H id title); [now left | now symmetry].
  - apply IH. intros i t Hin. apply (H i t). now right.
Qed.

Lemma first_match_some (tr_title : string) (qase_values : list (scalar * string)) :
  forall qase_id qase_title,
    In (qase_id, qase_title) qase_values ->
    strip qase_title = strip tr_title ->
    is_Some (first_match tr_title qase_values).
Proof.
  intros qase_id qase_title Hin Heq.
  destruct (first_match tr_title qase_values) eqn:E; [eauto|].
  exfalso. revert Hin E. induction qase_values as [|[id title] rest IH]; intros Hin E;
    [destruct Hin|].
  cbn [first_match] in E.
  destruct (String.eqb_spec (strip tr_title) (strip title)) as [|Hne]; [discriminate|].
  destruct Hin as [Hhd | Hin]; [inversion Hhd; subst; congruence | now apply (IH Hin)].
Qed.

Lemma match_values_fold (qase_values : list (scalar * string))
    (tr_values : list (string * string)) :
  List.NoDup (map fst tr_values) ->
  forall acc key,
    Dict.get String.eqb
      (fold_left
         (fun mapping '(tr_key, tr_title) =>
            match first_match tr_title qase_values with
            | Some qase_id => Dict.set String.eqb mapping tr_key qase_id
            | None => mapping
            end) tr_values acc) key
    = match Dict.get String.eqb tr_values key with
      | Some tr_title =>
          match first_match tr_title qase_values with
          | Some qase_id => Some qase_id
          | None => Dict.get String.eqb acc key
          end
      | None => Dict.get String.eqb acc key
      end.
Proof.
  induction tr_values as [|[k t] rest IH]; intros Hnd acc key; [reflexivity|].
  cbn [map fst] in Hnd. inversion Hnd as [|? ? Hnotin Hrest]; subst.
  cbn [fold_left]. rewrite (IH Hrest). cbn [Dict.get].
  destruct (String.eqb_spec k key) as [<- | Hne].
  - rewrite (dict_get_not_in rest k Hnotin).
    destruct (first_match t qase_values); [apply dict_get_set_eq | reflexivity].
  - destruct (Dict.get String.eqb rest key) as [t'|].
    + destruct (first_match t' qase_values); [reflexivity|].
      destruct (first_match t qase_values); [now apply dict_get_set_ne | reflexivity].
    + destruct (first_match t qase_values); [now apply dict_get_set_ne | reflexivity].
Qed.

(** Every key of the mapping is looked up as the first target value whose
    trimmed title is the trimmed label of the key. *)
Lemma match_values_get (items : string) (qase_values : list (scalar * string))
    (key : string) :
  Dict.get String.eqb (match_values (parse_items items) qase_values) key
  = match Dict.get String.eqb (parse_items items) key with
    | Some label => first_match label qase_values
    | None => None
    end.
Proof.
  unfold match_values. rewrite match_values_fold by apply parse_items_nodup.
  destruct (Dict.get String.eqb (parse_items items) key) as [label|]; [|reflexivity].
  now destruct (first_match label qase_values).
Qed.

Lemma py_eqb_refl (x : scalar) : Dict.py_eqb x x = true.
Proof.
  destruct x as [|b|z|s]; cbn.
  - reflexivity.
  - now destruct b.
  - apply Z.eqb_refl.
  - apply String.eqb_refl.
Qed.

Lemma distinct_keys_get (qase_values : list (scalar * string)) :
  distinct_keys qase_values ->
  forall qase_id qase_title,
    In (qase_id, qase_title) qase_values ->
    Dict.get Dict.py_eqb qase_values qase_id = Some qase_title.
Proof.
  induction qase_values as [|[id title] rest IH]; intros Hd qase_id qase_title Hin;
    [destruct Hin|].
  cbn [Dict.get]. destruct Hin as [Heq | Hin].
  - inversion Heq; subst. now rewrite py_eqb_refl.
  - destruct (Dict.py_eqb id qase_id) eqn:E.
    + apply list_elem_of_In, list_elem_of_lookup in Hin. destruct Hin as [j Hj].
      specialize (Hd 0%nat (S j) id title qase_id qase_title eq_refl Hj E).
      discriminate Hd.
    + apply IH; [|exact Hin].
      intros i j k1 t1 k2 t2 Hi Hj Hk.
      specialize (Hd (S i) (S j) k1 t1 k2 t2 Hi Hj Hk). now inversion Hd.
Qed.

End EnumMapping.

(** The round trip from a key to the label of its target id is exact
    only for trimmed target titles: with the item [1,Low] and the single
    target value 7 titled [Low ] (a trailing blank), the label is unique
    on both sides, key 1 is sent to 7, and the label of 7 is not the source
    label.  No call of [_create_tr_key_to_qase_id_mapping] passes such
    values. *)
Lemma tr_key_round_trip_is_not_exact :
  ~ (forall items qase_values key label qase_id qase_title,
        Dict.get String.eqb (parse_items items) key = Some label ->
        unique_label (parse_items items) qase_values label ->
        Dict.get String.eqb (Fields.match_values (parse_items items) qase_values) key
        = Some qase_id ->
        Dict.get Dict.py_eqb qase_values qase_id = Some qase_title ->
        qase_title = label).
Proof.
  intros H.
  specialize (H "1,Low" [(PyInt 7, "Low ")] "1" "Low" (PyInt 7) "Low ").
  assert (Hbad : "Low " = "Low"); [|discriminate Hbad].
  apply H; try reflexivity.
  split.
  - assert (Hp : parse_items "1,Low" = [("1", "Low")]) by reflexivity.
    rewrite Hp. intros k1 k2 H1 H2. cbn [Dict.get] in H1, H2.
    destruct (String.eqb_spec "1" k1) as [<-|]; [|discriminate H1].
    destruct (String.eqb_spec "1" k2) as [<-|]; [reflexivity | discriminate H2].
  - intros [|i] [|j] id1 t1 id2 t2 Hi Hj; try discriminate; reflexivity.
Qed.

(** ** System enum maps *)

Section SystemMaps.

(** The three maps are built by the same two nested loops over a store
    with a lookup and an update. *)
Context {M A Q V : Type}.
Variable get : M -> Z -> option V.
Variable upd : M -> Z -> V -> M.
Hypothesis get_upd_eq : forall m k v, get (upd m k v) k = Some v.
Hypothesis get_upd_ne : forall m k k' v, k <> k' -> get (upd m k v) k' = get m k'.
Variable key : A -> Z.
Variable hit : A -> Q -> bool.
Variable val : Q -> V.
Variable default : V.

Lemma inner_loop_other (x : A) (qs : list Q) :
  forall m k, key x <> k ->
    get (fold_left (fun m q => if hit x q then upd m (key x) (val q) else m) qs m) k
    = get m k.
Proof.
  induction qs as [|q qs IH]; intros m k Hk; [reflexivity|].
  cbn [fold_left]. rewrite IH by exact Hk.
  destruct (hit x q); [now apply get_upd_ne | reflexivity].
Qed.

Lemma inner_loop_no_hit (x : A) (qs : list Q) :
  forall m, (forall q, In q qs -> hit x q = false) ->
    fold_left (fun m q => if hit x q then upd m (key x) (val q) else m) qs m = m.
Proof.
  induction qs as [|q qs IH]; intros m H; [reflexivity|].
  cbn [fold_left]. rewrite (H q) by now left.
  apply IH. intros q' Hq'. apply H. now right.
Qed.

Lemma outer_loop_default (qs : list Q) (xs : list A) :
  forall m id,
    get m id = Some default \/ (exists x, In x xs /\ key x = id) ->
    (forall x q, In x xs -> key x = id -> In q qs -> hit x q = false) ->
    get (fold_left
           (fun m x =>
              fold_left (fun m q => if hit x q then upd m (key x) (val q) else m)
                qs (upd m (key x) default))
           xs m) id
    = Some default.
Proof.
  induction xs as [|x xs IH]; intros m id Hid Hno.
  - destruct Hid as [H | (x & [] & _)]. exact H.
  - cbn [fold_left]. apply IH.
    + destruct (Z.eq_dec (key x) id) as [Heq | Hne].
      * left. rewrite inner_loop_no_hit.
        -- rewrite <- Heq. apply get_upd_eq.
        -- intros q Hq. apply (Hno x q); [now left | exact Heq | exact Hq].
      * destruct Hid as [H | (x' & [<- | Hin] & Hk)].
        -- left. rewrite inner_loop_other by exact Hne.
           rewrite get_upd_ne by exact Hne. exact H.
        -- contradiction.
        -- right. eauto.
    + intros x' q Hin. apply Hno. now right.
Qed.

End SystemMaps.

Section SystemEnums.

Import Fields.

Lemma find_default_priority_value (qase_priorities : list system_option)
    (m : Mappings.t) :
  fst (find_default_priority qase_priorities m)
  = match find (fun q => String.eqb (lower (option_title q)) "high") qase_priorities with
    | Some q => option_id q
    | None => 1
    end
  /\ Mappings.priorities (snd (find_default_priority qase_priorities m))
     = Mappings.priorities m.
Proof.
  induction qase_priorities as [|q qs IH]; [split; reflexivity|].
  cbn [find_default_priority find].
  destruct (String.eqb (lower (option_title q)) "high"); [split; reflexivity | exact IH].
Qed.

Lemma unmatched_type (tr_types : list named) (system_fields : list system_field)
    (m : Mappings.t) (id : Z) :
  (exists t, In t tr_types /\ named_id t = id) ->
  (forall t q, In t tr_types -> named_id t = id ->
               In q (options_of "type" system_fields) ->
               lower (named_name t) <> lower (option_title q)) ->
  Mappings.types (_create_types_map tr_types system_fields m) !! id = Some 1.
Proof.
  intros Hex Hno. unfold _create_types_map.
  apply (outer_loop_default (fun m k => Mappings.types m !! k) Mappings.set_type
           (fun m k v => lookup_insert_eq (Mappings.types m) k v)
           (fun m k k' v Hne => lookup_insert_ne (Mappings.types m) k k' v Hne)
           named_id
           (fun t q => String.eqb (lower (named_name t)) (lower (option_title q)))
           option_id 1).
  - right. exact Hex.
  - intros t q Ht Hk Hq. apply String.eqb_neq. now apply Hno.
Qed.

Lemma unmatched_result_status (tr_statuses : list labelled)
    (system_fields : list system_field) (m : Mappings.t) (id : Z) :
  (exists t, In t tr_statuses /\ labelled_id t = id) ->
  (forall t q, In t tr_statuses -> labelled_id t = id ->
               In q (options_of "result_status" system_fields) ->
               lower (labelled_label t) <> lower (option_title q)) ->
  Mappings.result_statuses (_create_result_statuses_map tr_statuses system_fields m) !! id
  = Some "skipped".
Proof.
  intros Hex Hno. unfold _create_result_statuses_map.
  apply (outer_loop_default (fun m k => Mappings.result_statuses m !! k)
           Mappings.set_result_status
           (fun m k v => lookup_insert_eq (Mappings.result_statuses m) k v)
           (fun m k k' v Hne => lookup_insert_ne (Mappings.result_statuses m) k k' v Hne)
           labelled_id
           (fun t q => String.eqb (lower (labelled_label t)) (lower (option_title q)))
           option_slug "skipped").
  - right. exact Hex.
  - intros t q Ht Hk Hq. apply String.eqb_neq. now apply Hno.
Qed.

Lemma unmatched_priority (tr_priorities : list named)
    (system_fields : list system_field) (m : Mappings.t) (id : Z) :
  (exists t, In t tr_priorities /\ named_id t = id) ->
  (forall t q, In t tr_priorities -> named_id t = id ->
               In q (options_of "priority" system_fields) ->
               lower (named_name t) <> lower (option_title q)) ->
  Mappings.priorities (_create_priorities_map tr_priorities system_fields m) !! id
  = Some (default_priority_of system_fields).
Proof.
  intros Hex Hno. unfold _create_priorities_map, default_priority_of.
  destruct (find_default_priority_value (options_of "priority" system_fields) m)
    as [Hd _].
  destruct (find_default_priority (options_of "priority" system_fields) m)
    as [default_priority m'].
  cbn [fst] in Hd. rewrite <- Hd.
  apply (outer_loop_default (fun m k => Mappings.priorities m !! k)
           Mappings.set_priority
           (fun m k v => lookup_insert_eq (Mappings.priorities m) k v)
           (fun m k k' v Hne => lookup_insert_ne (Mappings.priorities m) k k' v Hne)
           named_id
           (fun t q => String.eqb (lower (named_name t)) (lower (option_title q)))
           option_id default_priority).
  - right. exact Hex.
  - intros t q Ht Hk Hq. apply String.eqb_neq. now apply Hno.
Qed.

Lemma default_priority_without_high (system_fields : list system_field) :
  (forall q, In q (options_of "priority" system_fields) ->
             lower (option_title q) <> "high") ->
  default_priority_of system_fields = 1.
Proof.
  unfold default_priority_of. intros H.
  destruct (find _ _) as [q|] eqn:E; [|reflexivity].
  apply find_some in E as [Hin Hq]. apply String.eqb_eq in Hq.
  now destruct (H q Hin).
Qed.

Lemma default_priority_first_high (system_fields : list system_field)
    (before after : list system_option) (q : system_option) :
  options_of "priority" system_fields = before ++ q :: after ->
  lower (option_title q) = "high" ->
  (forall p, In p before -> lower (option_title p) <> "high") ->
  default_priority_of system_fields = option_id q.
Proof.
  unfold default_priority_of. intros -> Hq Hbefore.
  induction before as [|p before IH]; cbn [app find].
  - apply String.eqb_eq in Hq. now rewrite Hq.
  - replace (String.eqb (lower (option_title p)) "high") with false
      by (symmetry; apply String.eqb_neq, Hbefore; now left).
    apply IH. intros p' Hin. apply Hbefore. now right.
Qed.

End SystemEnums.

(** C6, as amended: a source type, priority or result status whose
    label equals, letter case aside, the title of no target option is
    mapped to a default: type 1, result status [skipped], and for a
    priority the id of the first target priority titled [high] (letter
    case aside), or 1 when the target has no such priority. *)
Theorem unmatched_system_enums_get_defaults :
  forall (system_fields : list system_field) (m : Mappings.t),
    (forall tr_types id,
        (exists t, In t tr_types /\ named_id t = id) ->
        (forall t q, In t tr_types -> named_id t = id ->
                     In q (Fields.options_of "type" system_fields) ->
                     lower (named_name t) <> lower (option_title q)) ->
        Mappings.types (Fields._create_types_map tr_types system_fields m) !! id
        = Some 1)
    /\ (forall tr_priorities id,
          (exists t, In t tr_priorities /\ named_id t = id) ->
          (forall t q, In t tr_priorities -> named_id t = id ->
                       In q (Fields.options_of "priority" system_fields) ->
                       lower (named_name t) <> lower (option_title q)) ->
          Mappings.priorities
            (Fields._create_priorities_map tr_priorities system_fields m) !! id
          = Some (default_priority_of system_fields))
    /\ (forall before q after,
          Fields.options_of "priority" system_fields = before ++ q :: after ->
          lower (option_title q) = "high" ->
          (forall p, In p before -> lower (option_title p) <> "high") ->
          default_priority_of system_fields = option_id q)
    /\ ((forall q, In q (Fields.options_of "priority" system_fields) ->
                   lower (option_title q) <> "high") ->
        default_priority_of system_fields = 1)
    /\ (forall tr_statuses id,
          (exists t, In t tr_statuses /\ labelled_id t = id) ->
          (forall t q, In t tr_statuses -> labelled_id t = id ->
                       In q (Fields.options_of "result_status" system_fields) ->
                       lower (labelled_label t) <> lower (option_title q)) ->
          Mappings.result_statuses
            (Fields._create_result_statuses_map tr_statuses system_fields m) !! id
          = Some "skipped").
Proof.
  intros system_fields m. split; [|split; [|split; [|split]]].
  - intros tr_types id. apply unmatched_type.
  - intros tr_priorities id. apply unmatched_priority.
  - intros before q after. apply default_priority_first_high.
  - apply default_priority_without_high.
  - intros tr_statuses id. apply unmatched_result_status.
Qed.

(** C6 as stated fails for priorities: with the single target priority 5
    titled [High], the source priority 9 named [Urgent] matches no target
    option and is mapped to 5, not to 1. *)
Lemma unmatched_priority_is_not_always_1 :
  ~ (forall tr_priorities system_fields m id,
        (exists t, In t tr_priorities /\ named_id t = id) ->
        (forall t q, In t tr_priorities -> named_id t = id ->
                     In q (Fields.options_of "priority" system_fields) ->
                     lower (named_name t) <> lower (option_title q)) ->
        Mappings.priorities
          (Fields._create_priorities_map tr_priorities system_fields m) !! id
        = Some 1).
Proof.
  intros H.
  specialize
    (H [{| named_id := 9; named_name := "Urgent" |}]
       [{| slug := "priority";
           system_options :=
             [{| option_id := 5; option_title := "High"; option_slug := "high" |}] |}]
       Mappings.init 9).
  assert (Hv : Mappings.priorities
                 (Fields._create_priorities_map
                    [{| named_id := 9; named_name := "Urgent" |}]
                    [{| slug := "priority";
                        system_options :=
                          [{| option_id := 5; option_title := "High";
                              option_slug := "high" |}] |}]
                    Mappings.init) !! 9 = Some 5) by reflexivity.
  rewrite Hv in H. assert (Hbad : Some 5 = Some 1); [|discriminate Hbad].
  apply H.
  - eexists. split; [now left | reflexivity].
  - intros t q [<- | []] _ [<- | []]. cbn. discriminate.
Qed.

(** ** The Refs field *)

Section Refs.

Import Fields.

Lemma refs_lookup_keeps_rest (qase_custom_fields : list qase_field) :
  forall m,
    let m' :=
      fold_left
        (fun m qase_field =>
           if String.eqb (qase_field_title qase_field) "Refs"
           then Mappings.set_refs_id m (qase_field_id qase_field)
           else m)
        qase_custom_fields m in
    (forall f, In f qase_custom_fields -> qase_field_title f <> "Refs") -> m' = m.
Proof.
  induction qase_custom_fields as [|f fs IH]; intros m m' H; [reflexivity|].
  subst m'. cbn [fold_left].
  destruct (String.eqb_spec (qase_field_title f) "Refs") as [Heq | Hne].
  - exfalso. apply (H f); [now left | exact Heq].
  - apply IH. intros f' Hf'. apply H. now right.
Qed.

End Refs.

(** C9, as amended: [_create_refs_field] works on the Refs field exactly
    when [tests.refs.enable] is set.  Unset, it leaves the store alone and
    sends nothing.  Set, it either sends one creation request and records
    the id that comes back, or it sends none and the store holds the id of
    a target field titled [Refs]; with no such field and no id in the
    store it sends the request.  The request is for a field named [Refs],
    enabled for all projects, of type 2, which the table of target types
    lists as [text]; [url] is type 7. *)
Theorem refs_field_ensured_iff_enabled :
  forall (create_custom_field : custom_field_create -> Z) (refs_enable : bool)
         (qase_custom_fields : list qase_field) (m : Mappings.t),
    let result :=
      Fields._create_refs_field create_custom_field refs_enable qase_custom_fields m in
    (refs_enable = false -> fst result = m /\ snd result = [])
    /\ (refs_enable = true ->
        (snd result = [Fields.refs_field_data]
         /\ Mappings.refs_id (fst result)
            = Some (create_custom_field Fields.refs_field_data))
        \/ (snd result = []
            /\ exists id, Mappings.refs_id (fst result) = Some id /\ id <> 0))
    /\ (refs_enable = true ->
        (forall f, In f qase_custom_fields -> qase_field_title f <> "Refs") ->
        Mappings.refs_id m = None ->
        snd result = [Fields.refs_field_data])
    /\ (forall request, In request (snd result) ->
          refs_enable = true
          /\ cf_title request = "Refs"
          /\ cf_is_enabled_for_all_projects request = true
          /\ Dict.get String.eqb Mappings.qase_fields_type "text"
             = Some (cf_type request))
    /\ Dict.get String.eqb Mappings.qase_fields_type "url" = Some 7.
Proof.
  intros create refs_enable fields m result. subst result.
  unfold Fields._create_refs_field.
  destruct refs_enable.
  - set (m1 := fold_left _ fields m).
    assert (Hm1 : (forall f, In f fields -> qase_field_title f <> "Refs") -> m1 = m)
      by apply refs_lookup_keeps_rest.
    destruct (Fields.no_refs_id m1) eqn:Hno; cbn [fst snd].
    + refine (conj _ (conj _ (conj _ (conj _ _)))).
      * discriminate.
      * intros _. left. split; reflexivity.
      * reflexivity.
      * intros request [<- | []]. repeat split.
      * reflexivity.
    + refine (conj _ (conj _ (conj _ (conj _ _)))).
      * discriminate.
      * intros _. right. split; [reflexivity|].
        unfold Fields.no_refs_id in Hno.
        destruct (Mappings.refs_id m1) as [id|]; [|discriminate].
        exists id. split; [reflexivity | lia].
      * intros _ Hnone Hm. rewrite (Hm1 Hnone) in Hno.
        unfold Fields.no_refs_id in Hno. rewrite Hm in Hno. discriminate.
      * intros request [].
      * reflexivity.
  - cbn [fst snd]. refine (conj _ (conj _ (conj _ (conj _ _)))).
    + intros _. split; reflexivity.
    + discriminate.
    + discriminate.
    + intros request [].
    + reflexivity.
Qed.

(** C9 as stated fails on the type: the request that creates the Refs
    field carries type 2, and the type the table lists for [url] is 7. *)
Lemma refs_field_is_not_created_as_url :
  Dict.get String.eqb Mappings.qase_fields_type "url"
  <> Some (cf_type Fields.refs_field_data).
Proof. intros H. discriminate H. Qed.

(** ** Enum custom fields of a case *)

Section EnumFields.

Import Cases.

Lemma mapped_built (f : field) (mapping : list (string * scalar)) (key : string) :
  tr_key_to_qase_id f = Some mapping -> mapping <> [] ->
  mapped f key = Dict.get String.eqb mapping key.
Proof.
  intros Hm Hne. unfold mapped. rewrite Hm. destruct mapping; [contradiction | reflexivity].
Qed.

Lemma global_multiselect_values_fold (f : field) (values : list scalar) :
  forall acc log,
    fold_left
      (fun '(qase_values, log) v =>
         let testrail_key := str v in
         match mapped f testrail_key with
         | Some target_id => (qase_values ++ [str target_id], log)
         | None =>
             match old_mapped f testrail_key with
             | Some target_id => (qase_values ++ [target_id], log)
             | None => (qase_values, log ++ [NotInMapping (name f) v])
             end
         end)
      values (acc, log)
    = (acc ++ flat_map (emitted f) values,
       log ++ map (NotInMapping (name f)) (List.filter (unmapped f) values)).
Proof.
  induction values as [|v values IH]; intros acc log.
  - cbn. now rewrite !app_nil_r.
  - cbn [fold_left flat_map List.filter]. unfold emitted at 1, unmapped at 1.
    destruct (mapped f (str v)) as [id|].
    + rewrite IH. now rewrite <- app_assoc.
    + destruct (old_mapped f (str v)) as [t|].
      * rewrite IH. now rewrite <- app_assoc.
      * rewrite IH. cbn [map app]. now rewrite <- app_assoc.
Qed.

Lemma global_multiselect_values_spec (f : field) (values : list scalar)
    (log : list warning) :
  global_multiselect_values f values log
  = (flat_map (emitted f) values,
     log ++ map (NotInMapping (name f)) (List.filter (unmapped f) values)).
Proof. unfold global_multiselect_values. apply global_multiselect_values_fold. Qed.

Lemma filter_filter_same {A : Type} (p : A -> bool) (l : list A) :
  List.filter p (List.filter p l) = List.filter p l.
Proof.
  induction l as [|x l IH]; [reflexivity|].
  cbn [List.filter]. destruct (p x) eqn:E; [|exact IH].
  cbn [List.filter]. now rewrite E, IH.
Qed.

Lemma filter_filter_none {A : Type} (p : A -> bool) (l : list A) :
  List.filter (fun x => negb (p x)) (List.filter p l) = [].
Proof.
  induction l as [|x l IH]; [reflexivity|].
  cbn [List.filter]. destruct (p x) eqn:E; [|exact IH].
  cbn [List.filter]. now rewrite E.
Qed.

(** A value that came out of the validation passes it again unchanged. *)
Lemma validate_again (project_testrail_id : Z) (f : field) (raw : pyobj)
    (log log1 : list warning) (value : list scalar) :
  _validate_custom_field_values project_testrail_id f raw log
  = Returned (Some value, log1) ->
  value <> [] ->
  _validate_custom_field_values project_testrail_id f (PyList value) log1
  = Returned (Some value, log1).
Proof.
  unfold _validate_custom_field_values. intros H Hne.
  destruct (truthy raw); cbn [negb] in H; [|discriminate].
  replace (truthy (PyList value)) with true by (destruct value; [contradiction | reflexivity]).
  cbn [negb].
  destruct (select_configs project_testrail_id f) as [configs|]; [|discriminate].
  cbn [bind] in *. destruct configs as [|config configs]; [discriminate|].
  destruct (String.eqb _ ""); [discriminate|].
  set (values := parse_items _) in *.
  destruct raw as [x | l].
  - destruct (Dict.mem String.eqb values (str x)) eqn:Hx; [|discriminate].
    inversion H; subst. cbn [List.filter]. rewrite Hx. cbn [negb map].
    now rewrite app_nil_r.
  - destruct (List.filter (fun item => Dict.mem String.eqb values (str item)) l)
      as [|v vs] eqn:Hf; [discriminate|].
    inversion H; subst value log1. rewrite <- Hf.
    rewrite filter_filter_same, filter_filter_none. rewrite Hf.
    cbn [map]. now rewrite !app_nil_r.
Qed.

Lemma import_enum_field_validated (project_testrail_id : Z) (project_specific : bool)
    (f : field) (raw : pyobj) (data : payload) (log log1 : list warning)
    (value : list scalar) :
  _validate_custom_field_values project_testrail_id f raw log
  = Returned (Some value, log1) ->
  value <> [] ->
  import_enum_field project_testrail_id project_specific f raw data log
  = bind (import_enum_value project_testrail_id f value data log1)
      (fun '(data, log) => Returned (data, log, Next)).
Proof.
  intros H Hne. unfold import_enum_field. rewrite H. cbn [bind].
  destruct value; [contradiction | reflexivity].
Qed.

End EnumFields.

Section EnumFieldOfACase.

Import Cases.

Variable project_code : string.
Variable project_testrail_id : Z.
Variable import_plain_field : field -> string -> pyobj -> payload -> payload.
Variable import_steps : string -> pyobj -> payload -> payload.
Variable custom_fields : gmap string field.

Lemma validated_not_empty (f : field) (raw : pyobj) (log log1 : list warning)
    (value : list scalar) :
  _validate_custom_field_values project_testrail_id f raw log
  = Returned (Some value, log1) ->
  value <> [].
Proof.
  unfold _validate_custom_field_values. intros H.
  destruct (truthy raw); cbn [negb] in H; [|discriminate].
  destruct (select_configs project_testrail_id f) as [configs|]; [|discriminate].
  cbn [bind] in H. destruct configs as [|config configs]; [discriminate|].
  destruct (String.eqb _ ""); [discriminate|].
  destruct raw as [x | l].
  - destruct (Dict.mem String.eqb _ (str x)); [|discriminate].
    inversion H; subst. discriminate.
  - destruct (List.filter _ l) as [|v vs]; [discriminate|].
    inversion H; subst. discriminate.
Qed.

(** The turn of the loop for an enum field with a value: the enum branch,
    then the step blocks unless the branch has returned. *)
Lemma import_case_field_enum (field_name suffix : string) (project_specific : bool)
    (f : field) (raw : pyobj) (data : payload) (log : list warning) :
  strip_prefix "custom_" field_name = Some suffix ->
  truthy raw = true ->
  found_field custom_fields project_code suffix = Some (project_specific, f) ->
  type_id f = 6 \/ type_id f = 12 ->
  import_case_field project_code project_testrail_id import_plain_field import_steps
    custom_fields field_name raw data log
  = bind (import_enum_field project_testrail_id project_specific f raw data log)
      (fun '(data, log, fl) =>
         match fl with
         | Return => Returned (data, log, Return)
         | Next => Returned (import_steps field_name raw data, log, Next)
         end).
Proof.
  intros Hprefix Htruthy Hfound Htype. unfold import_case_field, found_field in *.
  rewrite Hprefix, Htruthy.
  assert (Henum : (type_id f =? 6) || (type_id f =? 12) = true).
  { destruct Htype as [-> | ->]; reflexivity. }
  destruct (custom_fields !! _) as [f1|].
  - inversion Hfound; subst. now rewrite Henum.
  - destruct (custom_fields !! _) as [f2|]; [|discriminate].
    inversion Hfound; subst. now rewrite Henum.
Qed.

End EnumFieldOfACase.




(** * Further properties *)

(** ** Validation of enum values *)

(** X1: when [_validate_custom_field_values] returns values, they are not
    empty, each of them is, as text, a key of the items of the chosen
    configuration, a list keeps its accepted elements in order with one
    warning per rejected element, a single value is returned alone with no
    warning, and validating the result again changes nothing. *)
Theorem validated_values_are_item_keys (project_testrail_id : Z) (f : field)
    (raw : pyobj) (log log1 : list Cases.warning) (value : list scalar) :
  Cases._validate_custom_field_values project_testrail_id f raw log
  = Returned (Some value, log1) ->
  value <> []
  /\ (exists config rest items,
        Cases.select_configs project_testrail_id f = Returned (config :: rest)
        /\ Schema.items (options config) = Some items
        /\ Forall (fun v => Dict.mem String.eqb (parse_items items) (str v) = true) value
        /\ match raw with
           | PyList l =>
               value = List.filter
                         (fun v => Dict.mem String.eqb (parse_items items) (str v)) l
               /\ log1 = log ++ map (Cases.InvalidValue (name f))
                                 (List.filter
                                    (fun v => negb (Dict.mem String.eqb (parse_items items) (str v)))
                                    l)
           | Scalar x => value = [x] /\ log1 = log
           end)
  /\ Cases._validate_custom_field_values project_testrail_id f (PyList value) log1
     = Returned (Some value, log1).
Proof.
  intros H.
  assert (Hne : value <> []).
  { unfold Cases._validate_custom_field_values in H.
    destruct (truthy raw); cbn [negb] in H; [|discriminate].
    destruct (Cases.select_configs project_testrail_id f) as [configs|]; [|discriminate].
    cbn [bind] in H. destruct configs as [|config configs]; [discriminate|].
    destruct (String.eqb _ ""); [discriminate|].
    destruct raw as [x | l].
    - destruct (Dict.mem _ _ _); inversion H; discriminate.
    - destruct (List.filter _ l) eqn:E; inversion H; subst; discriminate. }
  split; [exact Hne|]. split; [|now apply (validate_again _ _ raw log)].
  unfold Cases._validate_custom_field_values in H.
  destruct (truthy raw); cbn [negb] in H; [|discriminate].
  destruct (Cases.select_configs project_testrail_id f) as [configs|] eqn:Hs;
    [|discriminate].
  cbn [bind] in H. destruct configs as [|config configs]; [discriminate|].
  destruct (Schema.items (options config)) as [items|] eqn:Hi;
    [|cbn in H; discriminate].
  destruct (String.eqb items ""); [discriminate|].
  exists config, configs, items. split; [reflexivity|]. split; [exact Hi|].
  destruct raw as [x | l].
  - destruct (Dict.mem String.eqb (parse_items items) (str x)) eqn:Hx; [|discriminate].
    inversion H; subst. split; [|split; reflexivity].
    constructor; [exact Hx | constructor].
  - destruct (List.filter _ l) as [|v vs] eqn:E; [discriminate|].
    inversion H; subst value log1. rewrite <- E. split; [|split; reflexivity].
    apply Forall_forall. intros v' Hv'. apply list_elem_of_In in Hv'.
    apply filter_In in Hv'. apply Hv'.
Qed.

(** The sample multi-select field with the values 1, 9 and 2: 9 is no key
    of the items and is rejected with a warning. *)
Lemma validated_values_are_item_keys_witness :
  [PyInt 1; PyInt 2] <> []
  /\ (exists config rest items,
        Cases.select_configs 1 (sample_enum_field 12) = Returned (config :: rest)
        /\ Schema.items (options config) = Some items
        /\ Forall (fun v => Dict.mem String.eqb (parse_items items) (str v) = true)
             [PyInt 1; PyInt 2]
        /\ ([PyInt 1; PyInt 2]
            = List.filter (fun v => Dict.mem String.eqb (parse_items items) (str v))
                [PyInt 1; PyInt 9; PyInt 2]
            /\ [Cases.InvalidValue "severity" (PyInt 9)]
               = [] ++ map (Cases.InvalidValue (name (sample_enum_field 12)))
                         (List.filter
                            (fun v => negb (Dict.mem String.eqb (parse_items items) (str v)))
                            [PyInt 1; PyInt 9; PyInt 2])))
  /\ Cases._validate_custom_field_values 1 (sample_enum_field 12)
       (PyList [PyInt 1; PyInt 2]) [Cases.InvalidValue "severity" (PyInt 9)]
     = Returned (Some [PyInt 1; PyInt 2], [Cases.InvalidValue "severity" (PyInt 9)]).
Proof.
  apply (validated_values_are_item_keys 1 (sample_enum_field 12)
           (PyList [PyInt 1; PyInt 9; PyInt 2]) []
           [Cases.InvalidValue "severity" (PyInt 9)] [PyInt 1; PyInt 2]).
  reflexivity.
Defined.

(** ** The parsed items of an enum field *)

Section ParsedItems.

Lemma parse_items_fold (items : string) :
  parse_items items = fold_left parse_line (split newline items) [].
Proof.
  unfold parse_items, parse_line. f_equal.
Qed.

Lemma parse_line_get (values : list (string * string)) (line key : string) :
  Dict.get String.eqb (parse_line values line) key
  = if contains "," line && String.eqb (line_key line) key
    then Some (line_label line)
    else Dict.get String.eqb values key.
Proof.
  unfold parse_line, line_key, line_label.
  destruct (contains "," line); [|reflexivity].
  destruct (split_once "," line) as [k t]. cbn [fst snd andb].
  destruct (String.eqb_spec (strip k) key) as [<- | Hne].
  - apply dict_get_set_eq.
  - now apply dict_get_set_ne.
Qed.

Lemma parse_lines_get (lines : list string) :
  forall values key,
    Dict.get String.eqb (fold_left parse_line lines values) key
    = match
        find (fun line => contains "," line && String.eqb (line_key line) key)
          (rev lines)
      with
      | Some line => Some (line_label line)
      | None => Dict.get String.eqb values key
      end.
Proof.
  induction lines as [|line lines IH] using rev_ind; intros values key; [reflexivity|].
  rewrite fold_left_app, rev_app_distr. cbn [fold_left rev app find].
  rewrite parse_line_get.
  destruct (contains "," line && String.eqb (line_key line) key); [reflexivity|].
  apply IH.
Qed.

Lemma parse_lines_keys_trimmed (lines : list string) :
  forall values,
    (forall key, In key (map fst values) -> strip key = key) ->
    forall key, In key (map fst (fold_left parse_line lines values)) -> strip key = key.
Proof.
  induction lines as [|line lines IH]; intros values Hv; [exact Hv|].
  cbn [fold_left]. apply IH. intros key. unfold parse_line.
  destruct (contains "," line); [|apply Hv].
  destruct (split_once "," line) as [k t]. rewrite dict_set_keys.
  destruct (Dict.mem String.eqb values (strip k)); [apply Hv|].
  intros Hin. apply in_app_or in Hin. destruct Hin as [Hin | [<- | []]];
    [now apply Hv | apply strip_idempotent].
Qed.

End ParsedItems.

(** X2: the items of an enum field are parsed into a dictionary with
    pairwise distinct keys; keys and labels are trimmed; and a key is
    looked up as the label of the last line with a comma whose trimmed
    text before the first comma is the key, lines without a comma being
    passed over. *)
Theorem parse_items_last_line_wins :
  forall items : string,
    List.NoDup (map fst (parse_items items))
    /\ (forall key, In key (map fst (parse_items items)) -> strip key = key)
    /\ forall key,
        Dict.get String.eqb (parse_items items) key
        = match
            find (fun line => contains "," line && String.eqb (line_key line) key)
              (rev (split newline items))
          with
          | Some line => Some (line_label line)
          | None => None
          end
        /\ (forall label,
               Dict.get String.eqb (parse_items items) key = Some label ->
               strip label = label).
Proof.
  intros items. split; [apply parse_items_nodup|]. split.
  - rewrite parse_items_fold. apply parse_lines_keys_trimmed. intros key [].
  - intros key. split.
    + rewrite parse_items_fold. apply parse_lines_get.
    + intros label. apply parse_items_trimmed.
Qed.

(** ** Case ids, continued *)

Section CaseIdsMore.

Import Cases CaseImport.

Lemma prepare_cases_ids_untouched (preserve_ids : bool) (cases : list (Z * Z)) :
  forall m s,
    (forall now_ms, ~ In (s, now_ms) cases) ->
    Mappings.case_id_mapping (prepare_cases_ids preserve_ids cases m) !! s
    = Mappings.case_id_mapping m !! s.
Proof.
  induction cases as [|[original_id now] rest IH]; intros m s Hs; [reflexivity|].
  cbn [prepare_cases_ids fold_left].
  destruct (prepare_case_id_spec preserve_ids now original_id m) as (safe_id & -> & _).
  etransitivity;
    [apply (IH (Mappings.add_case_id_mapping m original_id safe_id) s)|].
  - intros now_ms Hin. apply (Hs now_ms). now right.
  - cbn [Mappings.add_case_id_mapping Mappings.case_id_mapping].
    apply lookup_insert_ne. intros ->. apply (Hs now). now left.
Qed.

Lemma prepare_case_id_regenerated (now_ms original_id : Z) (m : Mappings.t) :
  exists safe_id,
    prepare_case_id false now_ms original_id m
    = Returned (safe_id, Mappings.add_case_id_mapping m original_id safe_id)
    /\ 0 <= safe_id < MAX_SAFE_ID
    /\ (original_id <= MAX_SAFE_ID -> safe_id = now_ms mod MAX_SAFE_ID).
Proof.
  destruct (hashed_returns original_id) as [h Hh].
  pose proof max_safe_id_value as HM.
  assert (Hmod : forall x, 0 <= x mod MAX_SAFE_ID < MAX_SAFE_ID)
    by (intros x; apply Z.mod_pos_bound; lia).
  unfold prepare_case_id, choose_safe_id. rewrite Hh.
  destruct (original_id <=? MAX_SAFE_ID) eqn:Hle; cbn [bind].
  - exists (now_ms mod MAX_SAFE_ID). specialize (Hmod now_ms).
    replace (now_ms mod MAX_SAFE_ID >? MAX_SAFE_ID) with false by (symmetry; lia).
    repeat split; lia.
  - apply Z.leb_gt in Hle. exists (h mod MAX_SAFE_ID). specialize (Hmod h).
    replace (h mod MAX_SAFE_ID >? MAX_SAFE_ID) with false by (symmetry; lia).
    repeat split; lia.
Qed.

Lemma regenerated_ids_in_range (cases : list (Z * Z)) :
  forall m,
    (forall s t, Mappings.case_id_mapping m !! s = Some t -> 0 <= t < MAX_SAFE_ID) ->
    forall s t,
      Mappings.case_id_mapping (prepare_cases_ids false cases m) !! s = Some t ->
      0 <= t < MAX_SAFE_ID.
Proof.
  induction cases as [|[original_id now_ms] rest IH]; intros m Hm; [exact Hm|].
  cbn [prepare_cases_ids fold_left].
  destruct (prepare_case_id_regenerated now_ms original_id m) as (safe_id & -> & Hr & _).
  apply IH. intros s t. cbn [Mappings.add_case_id_mapping Mappings.case_id_mapping].
  rewrite lookup_insert. case_decide; [intros Ht; inversion Ht; subst; exact Hr | apply Hm].
Qed.

Lemma regenerated_id_of_single (cases : list (Z * Z)) :
  forall m s now_ms,
    List.NoDup (map fst cases) ->
    In (s, now_ms) cases ->
    s <= MAX_SAFE_ID ->
    Mappings.case_id_mapping (prepare_cases_ids false cases m) !! s
    = Some (now_ms mod MAX_SAFE_ID).
Proof.
  induction cases as [|[original_id now] rest IH]; intros m s now_ms Hnd Hin Hs;
    [destruct Hin|].
  cbn [map fst] in Hnd. inversion Hnd as [|? ? Hnotin Hrest]; subst.
  cbn [prepare_cases_ids fold_left].
  destruct (prepare_case_id_regenerated now original_id m) as (safe_id & -> & _ & Hv).
  destruct Hin as [Heq | Hin].
  - inversion Heq; subst.
    etransitivity;
      [apply (prepare_cases_ids_untouched false rest
                (Mappings.add_case_id_mapping m s safe_id) s)|].
    + intros now' Hin'. apply Hnotin. apply in_map_iff. now exists (s, now').
    + cbn [Mappings.add_case_id_mapping Mappings.case_id_mapping].
      rewrite lookup_insert_eq. now rewrite Hv.
  - now apply IH.
Qed.

End CaseIdsMore.

(** X3: [get_qase_case_id] gives, for a case that has been prepared, the
    id recorded for it, which fits in 32 bits; for an id that has not been
    prepared it gives the id itself, whatever its size. *)
Theorem get_qase_case_id_of_prepared :
  forall (preserve_ids : bool) (cases : list (Z * Z)) (s : Z),
    let m := Cases.prepare_cases_ids preserve_ids cases Mappings.init in
    ((exists now_ms, In (s, now_ms) cases) ->
     Mappings.case_id_mapping m !! s = Some (CaseImport.get_qase_case_id m s)
     /\ CaseImport.get_qase_case_id m s <= 2147483647)
    /\ ((forall now_ms, ~ In (s, now_ms) cases) ->
        CaseImport.get_qase_case_id m s = s).
Proof.
  intros preserve_ids cases s m. subst m. unfold CaseImport.get_qase_case_id. split.
  - intros [now_ms Hin].
    destruct (prepare_cases_ids_records preserve_ids cases Mappings.init s now_ms Hin)
      as [t Ht].
    rewrite Ht. split; [reflexivity|].
    destruct (prepare_cases_ids_safe preserve_ids cases Mappings.init) with (s := s) (t := t)
      as (H1 & _); [| exact Ht | exact H1].
    intros s' t' H. cbn in H. rewrite lookup_empty in H. discriminate H.
  - intros Hs. rewrite prepare_cases_ids_untouched by exact Hs.
    cbn. now rewrite lookup_empty.
Qed.

(** X4: with [tests.preserve_ids] off every recorded id lies between 0 and
    2^31 - 2, and the id of a case whose source id fits in 32 bits is the
    clock reading modulo 2^31 - 1 alone: in a run where every source id
    occurs once, two such cases prepared at the same reading get the same
    id. *)
Theorem regenerated_ids_follow_the_clock :
  forall cases : list (Z * Z),
    let store :=
      Mappings.case_id_mapping (Cases.prepare_cases_ids false cases Mappings.init) in
    (forall s t, store !! s = Some t -> 0 <= t < 2147483647)
    /\ (List.NoDup (map fst cases) ->
        forall s1 s2 now_ms,
          In (s1, now_ms) cases -> In (s2, now_ms) cases ->
          s1 <= 2147483647 -> s2 <= 2147483647 ->
          store !! s1 = Some (now_ms mod (2 ^ 31 - 1))
          /\ store !! s2 = store !! s1).
Proof.
  intros cases store. subst store. split.
  - intros s t. apply regenerated_ids_in_range.
    intros s' t' H. cbn in H. rewrite lookup_empty in H. discriminate H.
  - intros Hnd s1 s2 now_ms H1 H2 Hs1 Hs2.
    rewrite (regenerated_id_of_single cases Mappings.init s1 now_ms Hnd H1 Hs1).
    rewrite (regenerated_id_of_single cases Mappings.init s2 now_ms Hnd H2 Hs2).
    split; reflexivity.
Qed.

(** ** The page loop *)

Section PageLoop.

Import CaseImport.

Variable process_cases : Z -> Z -> Z.

Lemma import_pages_stops (limit : Z) (k : nat) :
  forall fuel j,
    (forall i, (j <= i < j + k)%nat ->
               limit <= process_cases (Z.of_nat i * limit) limit) ->
    process_cases (Z.of_nat (j + k) * limit) limit < limit ->
    (k < fuel)%nat ->
    import_pages process_cases fuel (Z.of_nat j * limit) limit
    = Some (map (fun i => Z.of_nat i * limit) (seq j (S k))).
Proof.
  induction k as [|k IH]; intros fuel j Hfull Hshort Hfuel.
  - destruct fuel as [|fuel]; [lia|]. cbn [import_pages].
    rewrite Nat.add_0_r in Hshort. apply Z.ltb_lt in Hshort. now rewrite Hshort.
  - destruct fuel as [|fuel]; [lia|]. cbn [import_pages].
    replace (process_cases (Z.of_nat j * limit) limit <? limit) with false
      by (symmetry; apply Z.ltb_ge; apply Hfull; lia).
    replace (Z.of_nat j * limit + limit) with (Z.of_nat (S j) * limit) by lia.
    rewrite (IH fuel (S j)).
    + reflexivity.
    + intros i Hi. apply Hfull. lia.
    + replace (S j + k)%nat with (j + S k)%nat by lia. exact Hshort.
    + lia.
Qed.

End PageLoop.

(** X5: [import_cases_for_suite] asks for the offsets 0, limit, 2 limit and
    so on, with limit 20 on the enterprise target and 100 otherwise, and
    stops after the first page whose reported size is below the limit; a
    page whose import failed reports 0 and ends the loop too.  With k full
    pages before that page it returns after k + 1 requests. *)
Theorem pages_stop_at_first_short_page (process_cases : Z -> Z -> Z)
    (enterprise : bool) (k fuel : nat) :
  let limit := if enterprise then 20 else 100 in
  (forall i, (i < k)%nat -> limit <= process_cases (Z.of_nat i * limit) limit) ->
  process_cases (Z.of_nat k * limit) limit < limit ->
  (k < fuel)%nat ->
  CaseImport.import_cases_for_suite process_cases fuel enterprise
  = Some (map (fun i => Z.of_nat i * limit) (seq 0 (S k))).
Proof.
  intros limit Hfull Hshort Hfuel. unfold CaseImport.import_cases_for_suite.
  fold limit. change 0 with (Z.of_nat 0 * limit).
  apply import_pages_stops; [intros i Hi; apply Hfull; lia | exact Hshort | exact Hfuel].
Qed.

(** A source of 250 cases on the cloud target: pages at 0, 100 and 200. *)
Lemma pages_stop_at_first_short_page_witness :
  CaseImport.import_cases_for_suite (pages_of 250) 3 false = Some [0; 100; 200].
Proof.
  apply (pages_stop_at_first_short_page (pages_of 250) false 2 3).
  - intros i Hi. unfold pages_of. lia.
  - unfold pages_of. lia.
  - lia.
Defined.

(** ** System enum maps, continued *)

Section SystemMapsMatched.

Context {M A Q V : Type}.
Variable get : M -> Z -> option V.
Variable upd : M -> Z -> V -> M.
Hypothesis get_upd_eq : forall m k v, get (upd m k v) k = Some v.
Hypothesis get_upd_ne : forall m k k' v, k <> k' -> get (upd m k v) k' = get m k'.
Variable key : A -> Z.
Variable hit : A -> Q -> bool.
Variable val : Q -> V.
Variable default : V.

Lemma outer_loop_other (qs : list Q) (xs : list A) :
  forall m id,
    (forall x, In x xs -> key x <> id) ->
    get (fold_left
           (fun m x =>
              fold_left (fun m q => if hit x q then upd m (key x) (val q) else m)
                qs (upd m (key x) default))
           xs m) id
    = get m id.
Proof.
  induction xs as [|x xs IH]; intros m id Hne; [reflexivity|].
  cbn [fold_left]. rewrite IH by (intros y Hy; apply Hne; now right).
  rewrite (inner_loop_other get upd get_upd_ne key hit val)
    by (apply Hne; now left).
  apply get_upd_ne. apply Hne. now left.
Qed.

Lemma outer_loop_last_match (qpre qpost : list Q) (q : Q) (pre post : list A) (x : A) :
  forall m,
    hit x q = true ->
    (forall q', In q' qpost -> hit x q' = false) ->
    (forall y, In y post -> key y <> key x) ->
    get (fold_left
           (fun m x =>
              fold_left (fun m q => if hit x q then upd m (key x) (val q) else m)
                (qpre ++ q :: qpost) (upd m (key x) default))
           (pre ++ x :: post) m) (key x)
    = Some (val q).
Proof.
  intros m Hq Hpost Hother.
  rewrite fold_left_app. cbn [fold_left].
  rewrite outer_loop_other by exact Hother.
  rewrite fold_left_app. cbn [fold_left]. rewrite Hq.
  rewrite (inner_loop_no_hit upd key hit val) by exact Hpost.
  apply get_upd_eq.
Qed.

End SystemMapsMatched.

Section SystemEnumsMore.

Import Fields CaseImport.

Lemma listed_or_not {A : Type} (key : A -> Z) (xs : list A) (id : Z) :
  (exists x, In x xs /\ key x = id) \/ (forall x, In x xs -> key x <> id).
Proof.
  induction xs as [|x xs [(y & Hy & Hk) | Hno]].
  - right. intros x [].
  - left. exists y. split; [now right | exact Hk].
  - destruct (Z.eq_dec (key x) id) as [Heq | Hne].
    + left. exists x. split; [now left | exact Heq].
    + right. intros y [<- | Hy]; [exact Hne | now apply Hno].
Qed.

Lemma fold_left_preserves {X Y P : Type} (f : X -> Y -> X) (proj : X -> P) :
  (forall a b, proj (f a b) = proj a) ->
  forall l a, proj (fold_left f l a) = proj a.
Proof.
  intros Hf l. induction l as [|b l IH]; intros a; [reflexivity|].
  cbn [fold_left]. now rewrite IH, Hf.
Qed.

Lemma types_map_keeps_rest (tr_types : list named) (system_fields : list system_field)
    (m : Mappings.t) :
  Mappings.priorities (_create_types_map tr_types system_fields m)
  = Mappings.priorities m
  /\ Mappings.default_priority (_create_types_map tr_types system_fields m)
     = Mappings.default_priority m.
Proof.
  unfold _create_types_map. split.
  - apply (fold_left_preserves _ Mappings.priorities). intros a t.
    rewrite (fold_left_preserves _ Mappings.priorities); [reflexivity|].
    intros a' q. now destruct (String.eqb _ _).
  - apply (fold_left_preserves _ Mappings.default_priority). intros a t.
    rewrite (fold_left_preserves _ Mappings.default_priority); [reflexivity|].
    intros a' q. now destruct (String.eqb _ _).
Qed.

Lemma priorities_loop_keeps_rest (qs : list system_option) (default_priority : Z)
    (tr_priorities : list named) (m : Mappings.t) :
  let m' :=
    fold_left
      (fun m tr_priority =>
         fold_left
           (fun m qase_priority =>
              if String.eqb (lower (named_name tr_priority))
                            (lower (option_title qase_priority))
              then Mappings.set_priority m (named_id tr_priority)
                     (option_id qase_priority)
              else m)
           qs (Mappings.set_priority m (named_id tr_priority) default_priority))
      tr_priorities m in
  Mappings.types m' = Mappings.types m
  /\ Mappings.default_priority m' = Mappings.default_priority m.
Proof.
  intros m'. subst m'. split.
  - apply (fold_left_preserves _ Mappings.types). intros a t.
    rewrite (fold_left_preserves _ Mappings.types); [reflexivity|].
    intros a' q. now destruct (String.eqb _ _).
  - apply (fold_left_preserves _ Mappings.default_priority). intros a t.
    rewrite (fold_left_preserves _ Mappings.default_priority); [reflexivity|].
    intros a' q. now destruct (String.eqb _ _).
Qed.

Lemma find_default_priority_store (qase_priorities : list system_option)
    (m : Mappings.t) :
  Mappings.default_priority (snd (find_default_priority qase_priorities m))
  = match find (fun q => String.eqb (lower (option_title q)) "high") qase_priorities with
    | Some q => option_id q
    | None => Mappings.default_priority m
    end
  /\ Mappings.types (snd (find_default_priority qase_priorities m)) = Mappings.types m.
Proof.
  induction qase_priorities as [|q qs IH]; [split; reflexivity|].
  cbn [find_default_priority find].
  destruct (String.eqb (lower (option_title q)) "high"); [split; reflexivity | exact IH].
Qed.

End SystemEnumsMore.

(** X6: in the three system enum maps a source id whose label equals,
    letter case aside, the title of target options is sent to the last
    such option (its id, or its slug for a result status), provided no
    later source entry carries the same id.  With the sample target the
    source type 3 named FUNCTIONAL is sent to 8. *)
Theorem matched_system_enums_take_last_match :
  forall (system_fields : list system_field) (m : Mappings.t),
    (forall pre t post qpre q qpost,
        Fields.options_of "type" system_fields = qpre ++ q :: qpost ->
        lower (named_name t) = lower (option_title q) ->
        (forall q', In q' qpost -> lower (named_name t) <> lower (option_title q')) ->
        (forall y, In y post -> named_id y <> named_id t) ->
        Mappings.types (Fields._create_types_map (pre ++ t :: post) system_fields m)
          !! named_id t
        = Some (option_id q))
    /\ (forall pre t post qpre q qpost,
          Fields.options_of "priority" system_fields = qpre ++ q :: qpost ->
          lower (named_name t) = lower (option_title q) ->
          (forall q', In q' qpost -> lower (named_name t) <> lower (option_title q')) ->
          (forall y, In y post -> named_id y <> named_id t) ->
          Mappings.priorities
            (Fields._create_priorities_map (pre ++ t :: post) system_fields m)
            !! named_id t
          = Some (option_id q))
    /\ (forall pre t post qpre q qpost,
          Fields.options_of "result_status" system_fields = qpre ++ q :: qpost ->
          lower (labelled_label t) = lower (option_title q) ->
          (forall q', In q' qpost -> lower (labelled_label t) <> lower (option_title q')) ->
          (forall y, In y post -> labelled_id y <> labelled_id t) ->
          Mappings.result_statuses
            (Fields._create_result_statuses_map (pre ++ t :: post) system_fields m)
            !! labelled_id t
          = Some (option_slug q))
    /\ Mappings.types
         (Fields._create_types_map [{| named_id := 3; named_name := "FUNCTIONAL" |}]
            sample_system_fields Mappings.init) !! 3
       = Some 8.
Proof.
  intros system_fields m. refine (conj _ (conj _ (conj _ _))).
  - intros pre t post qpre q qpost Hq Hhit Hpost Hother.
    unfold Fields._create_types_map. rewrite Hq.
    apply (outer_loop_last_match (fun m k => Mappings.types m !! k) Mappings.set_type
             (fun m k v => lookup_insert_eq (Mappings.types m) k v)
             (fun m k k' v Hne => lookup_insert_ne (Mappings.types m) k k' v Hne)
             named_id
             (fun t q => String.eqb (lower (named_name t)) (lower (option_title q)))
             option_id 1).
    + now apply String.eqb_eq.
    + intros q' Hq'. apply String.eqb_neq. now apply Hpost.
    + exact Hother.
  - intros pre t post qpre q qpost Hq Hhit Hpost Hother.
    unfold Fields._create_priorities_map. rewrite Hq.
    destruct (Fields.find_default_priority (qpre ++ q :: qpost) m)
      as [default_priority m'].
    apply (outer_loop_last_match (fun m k => Mappings.priorities m !! k)
             Mappings.set_priority
             (fun m k v => lookup_insert_eq (Mappings.priorities m) k v)
             (fun m k k' v Hne => lookup_insert_ne (Mappings.priorities m) k k' v Hne)
             named_id
             (fun t q => String.eqb (lower (named_name t)) (lower (option_title q)))
             option_id default_priority).
    + now apply String.eqb_eq.
    + intros q' Hq'. apply String.eqb_neq. now apply Hpost.
    + exact Hother.
  - intros pre t post qpre q qpost Hq Hhit Hpost Hother.
    unfold Fields._create_result_statuses_map. rewrite Hq.
    apply (outer_loop_last_match (fun m k => Mappings.result_statuses m !! k)
             Mappings.set_result_status
             (fun m k v => lookup_insert_eq (Mappings.result_statuses m) k v)
             (fun m k k' v Hne => lookup_insert_ne (Mappings.result_statuses m) k k' v Hne)
             labelled_id
             (fun t q => String.eqb (lower (labelled_label t)) (lower (option_title q)))
             option_slug "skipped").
    + now apply String.eqb_eq.
    + intros q' Hq'. apply String.eqb_neq. now apply Hpost.
    + exact Hother.
  - reflexivity.
Qed.

(** X7: after the types map and the priorities map have been built on a
    fresh store, a case whose type id has no label match among the target
    types is given type 1, and a case whose priority id has no label
    match among the target priorities is given the default priority (the
    id of the first target priority titled high, else 1), whether or not
    the source listed the id. *)
Theorem unmatched_case_enums_fall_back (tr_types tr_priorities : list named)
    (system_fields : list system_field) (type_id priority_id : Z) :
  (forall t q, In t tr_types -> named_id t = type_id ->
               In q (Fields.options_of "type" system_fields) ->
               lower (named_name t) <> lower (option_title q)) ->
  (forall t q, In t tr_priorities -> named_id t = priority_id ->
               In q (Fields.options_of "priority" system_fields) ->
               lower (named_name t) <> lower (option_title q)) ->
  let m :=
    Fields._create_priorities_map tr_priorities system_fields
      (Fields._create_types_map tr_types system_fields Mappings.init) in
  CaseImport._set_type m type_id = 1
  /\ CaseImport._set_priority m priority_id = default_priority_of system_fields.
Proof.
  intros Ht Hp m. subst m. split.
  - unfold CaseImport._set_type.
    assert (Htypes : Mappings.types
                       (Fields._create_priorities_map tr_priorities system_fields
                          (Fields._create_types_map tr_types system_fields Mappings.init))
                     = Mappings.types
                         (Fields._create_types_map tr_types system_fields Mappings.init)).
    { unfold Fields._create_priorities_map.
      destruct (find_default_priority_store
                  (Fields.options_of "priority" system_fields)
                  (Fields._create_types_map tr_types system_fields Mappings.init))
        as [_ Hty].
      destruct (Fields.find_default_priority _ _) as [d m']. cbn [snd] in Hty.
      rewrite <- Hty. apply priorities_loop_keeps_rest. }
    rewrite Htypes.
    destruct (listed_or_not named_id tr_types type_id) as [Hex | Hno].
    + now rewrite (unmatched_type tr_types system_fields Mappings.init type_id Hex Ht).
    + unfold Fields._create_types_map.
      rewrite (outer_loop_other (fun m k => Mappings.types m !! k) Mappings.set_type
                 (fun m k k' v Hne => lookup_insert_ne (Mappings.types m) k k' v Hne)
                 named_id
                 (fun t q => String.eqb (lower (named_name t)) (lower (option_title q)))
                 option_id 1 _ _ _ _ Hno).
      reflexivity.
  - unfold CaseImport._set_priority.
    set (m0 := Fields._create_types_map tr_types system_fields Mappings.init).
    destruct (listed_or_not named_id tr_priorities priority_id) as [Hex | Hno].
    + now rewrite (unmatched_priority tr_priorities system_fields m0 priority_id Hex Hp).
    + assert (Hm0 : Mappings.priorities m0 = ∅ /\ Mappings.default_priority m0 = 1).
      { destruct (types_map_keeps_rest tr_types system_fields Mappings.init) as [H1 H2].
        subst m0. rewrite H1, H2. split; reflexivity. }
      destruct Hm0 as [Hpr Hdp].
      unfold Fields._create_priorities_map, default_priority_of.
      destruct (find_default_priority_store
                  (Fields.options_of "priority" system_fields) m0) as [Hd _].
      destruct (find_default_priority_value
                  (Fields.options_of "priority" system_fields) m0) as [_ Hprio].
      destruct (Fields.find_default_priority _ m0) as [d m']. cbn [snd] in Hd, Hprio.
      rewrite (outer_loop_other (fun m k => Mappings.priorities m !! k)
                 Mappings.set_priority
                 (fun m k k' v Hne => lookup_insert_ne (Mappings.priorities m) k k' v Hne)
                 named_id
                 (fun t q => String.eqb (lower (named_name t)) (lower (option_title q)))
                 option_id d _ _ _ _ Hno).
      rewrite Hprio, Hpr, lookup_empty.
      destruct (priorities_loop_keeps_rest (Fields.options_of "priority" system_fields)
                  d tr_priorities m') as [_ Hdef].
      cbv zeta in Hdef. rewrite Hdef, Hd, Hdp. reflexivity.
Qed.

(** Against the sample target the type Usability and the priority Urgent
    have no match: the case gets type 1 and the priority 5 of High, with
    priority 9 listed by the source and type 4 not listed. *)
Lemma unmatched_case_enums_fall_back_witness :
  CaseImport._set_type
    (Fields._create_priorities_map [{| named_id := 9; named_name := "Urgent" |}]
       sample_system_fields
       (Fields._create_types_map [{| named_id := 3; named_name := "Functional" |}]
          sample_system_fields Mappings.init)) 4 = 1
  /\ CaseImport._set_priority
       (Fields._create_priorities_map [{| named_id := 9; named_name := "Urgent" |}]
          sample_system_fields
          (Fields._create_types_map [{| named_id := 3; named_name := "Functional" |}]
             sample_system_fields Mappings.init)) 9
     = default_priority_of sample_system_fields.
Proof.
  apply (unmatched_case_enums_fall_back
           [{| named_id := 3; named_name := "Functional" |}]
           [{| named_id := 9; named_name := "Urgent" |}]
           sample_system_fields 4 9).
  - intros t q [<- | []] Hid. discriminate Hid.
  - intros t q [<- | []] _ Hq. cbn in Hq.
    destruct Hq as [<- | [<- | [<- | []]]]; cbn; discriminate.
Defined.

(** ** fix_numbering, continued *)

Section Lines.

Lemma split_nonempty (sep : ascii) (s : string) : split sep s <> [].
Proof.
  destruct s as [|c s]; simpl; [discriminate|].
  destruct (Ascii.eqb c sep); [discriminate|].
  destruct (split sep s); discriminate.
Qed.

Lemma split_lines_clean (sep : ascii) (s : string) :
  Forall (fun line => contains sep line = false) (split sep s).
Proof.
  induction s as [|c s IH]; simpl.
  - constructor; [reflexivity | constructor].
  - destruct (Ascii.eqb c sep) eqn:Hc.
    + constructor; [reflexivity | exact IH].
    + destruct (split sep s) as [|h t].
      * constructor; [simpl; now rewrite Hc | constructor].
      * inversion IH; subst.
        constructor; [simpl; now rewrite Hc | assumption].
Qed.

Lemma split_line (sep : ascii) (line : string) :
  contains sep line = false -> split sep line = [line].
Proof.
  induction line as [|c s IH]; simpl; [reflexivity|].
  intros H. apply orb_false_elim in H as [Hc Hs]. rewrite Hc.
  now rewrite (IH Hs).
Qed.

Lemma split_append (sep : ascii) (line rest : string) :
  contains sep line = false ->
  split sep (line +:+ String sep rest) = line :: split sep rest.
Proof.
  induction line as [|c s IH].
  - intros _. change ("" +:+ String sep rest) with (String sep rest).
    simpl. now rewrite Ascii.eqb_refl.
  - intros H. simpl in H. apply orb_false_elim in H as [Hc Hs].
    change (String c s +:+ String sep rest) with (String c (s +:+ String sep rest)).
    simpl. rewrite Hc. now rewrite (IH Hs).
Qed.

Lemma split_join (sep : ascii) (lines : list string) :
  lines <> [] ->
  Forall (fun line => contains sep line = false) lines ->
  split sep (join (String sep EmptyString) lines) = lines.
Proof.
  induction lines as [|line rest IH]; [congruence|].
  intros _ Hall. inversion Hall as [|? ? Hline Hrest]; subst.
  destruct rest as [|next rest].
  - simpl. now apply split_line.
  - change (join (String sep "") (line :: next :: rest))
      with (line +:+ String sep EmptyString +:+ join (String sep "") (next :: rest)).
    change (String sep "" +:+ join (String sep "") (next :: rest))
      with (String sep (join (String sep "") (next :: rest))).
    rewrite split_append by exact Hline.
    f_equal. apply IH; [discriminate | exact Hrest].
Qed.

Lemma join_split (sep : ascii) (s : string) :
  join (String sep EmptyString) (split sep s) = s.
Proof.
  induction s as [|c s IH]; [reflexivity|].
  simpl. destruct (Ascii.eqb c sep) eqn:Hc.
  - apply Ascii.eqb_eq in Hc. subst c.
    pose proof (split_nonempty sep s) as Hne.
    destruct (split sep s) as [|h t]; [congruence|].
    change (join (String sep "") ("" :: h :: t))
      with (String sep (join (String sep "") (h :: t))).
    now rewrite IH.
  - pose proof (split_nonempty sep s) as Hne.
    destruct (split sep s) as [|h t]; [congruence|].
    destruct t as [|h' t].
    + simpl in *. now rewrite IH.
    + change (join (String sep "") (String c h :: h' :: t))
        with (String c (join (String sep "") (h :: h' :: t))).
      now rewrite IH.
Qed.

End Lines.

Section Numbering.

Lemma span_spec (p : ascii -> bool) (s : string) :
  forall h t, span p s = (h, t) ->
    s = h +:+ t
    /\ (forall c, In c (list_ascii_of_string h) -> p c = true)
    /\ match t with String c _ => p c = false | EmptyString => True end.
Proof.
  induction s as [|c s IH]; intros h t H; simpl in H.
  - inversion H; subst. repeat split. intros c [].
  - destruct (p c) eqn:Hc.
    + destruct (span p s) as [h' t'] eqn:Hs. inversion H; subst.
      destruct (IH h' t eq_refl) as (Heq & Hall & Ht).
      split; [rewrite Heq; reflexivity|]. split; [|exact Ht].
      intros c' [<- | Hin]; [exact Hc | now apply Hall].
    + inversion H; subst. split; [reflexivity|]. split; [intros c' []|exact Hc].
Qed.

Lemma span_append (p : ascii -> bool) (h : string) :
  forall t,
    (forall c, In c (list_ascii_of_string h) -> p c = true) ->
    match t with String c _ => p c = false | EmptyString => True end ->
    span p (h +:+ t) = (h, t).
Proof.
  induction h as [|c h IH]; intros t Hall Ht.
  - change ("" +:+ t) with t.
    destruct t as [|c t]; [reflexivity|]. simpl. now rewrite Ht.
  - change (String c h +:+ t) with (String c (h +:+ t)). simpl.
    rewrite (Hall c) by now left.
    rewrite IH; [reflexivity | | exact Ht].
    intros c' Hin. apply Hall. now right.
Qed.

Lemma strip_prefix_spec (p : string) :
  forall s r, strip_prefix p s = Some r -> s = p +:+ r.
Proof.
  induction p as [|a p IH]; intros s r H; simpl in H.
  - now inversion H.
  - destruct s as [|b s]; [discriminate|].
    destruct (Ascii.eqb a b) eqn:Hab; [|discriminate].
    apply Ascii.eqb_eq in Hab. subst b.
    change (String a p +:+ r) with (String a (p +:+ r)). f_equal. now apply IH.
Qed.

Lemma numbering_match_spec (line rest : string) :
  numbering_match line = Some rest ->
  exists digits, line = digits +:+ ". " +:+ rest.
Proof.
  unfold numbering_match. destruct (span is_digit line) as [digits r] eqn:Hs.
  destruct digits as [|d digits]; [discriminate|]. intros H.
  apply strip_prefix_spec in H. destruct (span_spec _ _ _ _ Hs) as (Heq & _ & _).
  exists (String d digits). now rewrite Heq, H.
Qed.

Lemma string_of_uint_digits (d : Decimal.uint) :
  forall c, In c (list_ascii_of_string (NilEmpty.string_of_uint d)) -> is_digit c = true.
Proof.
  induction d; simpl; intros c Hin;
    try (destruct Hin as [<- | Hin]; [reflexivity | now apply IHd]).
  destruct Hin.
Qed.

Lemma str_of_nat_digits (n : nat) :
  str_of_int (Z.of_nat n) <> EmptyString
  /\ forall c, In c (list_ascii_of_string (str_of_int (Z.of_nat n))) -> is_digit c = true.
Proof.
  unfold str_of_int. destruct (Z.of_nat n) as [|p|p] eqn:Hn; [| |lia].
  - split; [discriminate|]. intros c [<- | []]. reflexivity.
  - cbn [Z.to_int NilZero.string_of_int]. unfold NilZero.string_of_uint.
    destruct (Pos.to_uint p) eqn:Hp;
      (split; [cbn; discriminate | try apply string_of_uint_digits]).
    intros c [<- | []]. reflexivity.
Qed.

Lemma numbering_match_renumber (block_number : nat) (line rest : string) :
  numbering_match line = Some rest ->
  numbering_match (renumber block_number line) = Some rest.
Proof.
  intros H. unfold renumber. rewrite H.
  destruct (str_of_nat_digits block_number) as [Hne Hdig].
  unfold numbering_match.
  rewrite (span_append is_digit _ (". " +:+ rest) Hdig) by reflexivity.
  destruct (str_of_int (Z.of_nat block_number)); [congruence|].
  simpl. reflexivity.
Qed.

Lemma renumber_again (block_number : nat) (line : string) :
  renumber block_number (renumber block_number line) = renumber block_number line.
Proof.
  destruct (numbering_match line) as [rest|] eqn:H.
  - unfold renumber at 1. rewrite (numbering_match_renumber _ _ _ H).
    unfold renumber. now rewrite H.
  - unfold renumber. now rewrite H, H.
Qed.

Lemma renumbered_again (lines : list string) :
  forall k, renumbered k (renumbered k lines) = renumbered k lines.
Proof.
  induction lines as [|line rest IH]; intros k; [reflexivity|].
  cbn [renumbered]. destruct (numbering_match line) as [r|] eqn:H.
  - cbn [renumbered]. rewrite (numbering_match_renumber _ _ _ H).
    now rewrite renumber_again, IH.
  - cbn [renumbered]. now rewrite H, IH.
Qed.

Lemma renumbered_plain (lines : list string) :
  (forall line, In line lines -> numbering_match line = None) ->
  forall k, renumbered k lines = lines.
Proof.
  induction lines as [|line rest IH]; intros Hall k; [reflexivity|].
  cbn [renumbered]. rewrite (Hall line) by now left.
  f_equal. apply IH. intros l Hl. apply Hall. now right.
Qed.

Lemma contains_append (sep : ascii) (a b : string) :
  contains sep (a +:+ b) = contains sep a || contains sep b.
Proof.
  induction a as [|c a IH]; [reflexivity|].
  change (String c a +:+ b) with (String c (a +:+ b)). simpl.
  now rewrite IH, orb_assoc.
Qed.

Lemma digits_clean (s : string) :
  (forall c, In c (list_ascii_of_string s) -> is_digit c = true) ->
  contains newline s = false.
Proof.
  induction s as [|c s IH]; intros Hall; [reflexivity|]. simpl.
  rewrite IH by (intros c' Hin; apply Hall; now right).
  rewrite orb_false_r. apply Ascii.eqb_neq. intros ->.
  specialize (Hall newline (or_introl eq_refl)). discriminate Hall.
Qed.

Lemma renumber_clean (block_number : nat) (line : string) :
  contains newline line = false ->
  contains newline (renumber block_number line) = false.
Proof.
  intros Hline. unfold renumber.
  destruct (numbering_match line) as [rest|] eqn:H; [|exact Hline].
  destruct (numbering_match_spec _ _ H) as (digits & ->).
  rewrite !contains_append in Hline. rewrite !contains_append.
  apply orb_false_elim in Hline as [_ Hrest]. rewrite Hrest.
  rewrite (digits_clean _ (proj2 (str_of_nat_digits block_number))).
  reflexivity.
Qed.

Lemma renumbered_clean (lines : list string) :
  Forall (fun line => contains newline line = false) lines ->
  forall k, Forall (fun line => contains newline line = false) (renumbered k lines).
Proof.
  induction 1 as [|line rest Hline Hrest IH]; intros k; [constructor|].
  cbn [renumbered]. destruct (numbering_match line) eqn:H.
  - constructor; [now apply renumber_clean | apply IH].
  - constructor; [exact Hline | apply IH].
Qed.

Lemma fix_numbering_str_renumbered (text : string) :
  fix_numbering_str text
  = join (String newline EmptyString) (renumbered 0 (split newline text)).
Proof.
  unfold fix_numbering_str. now rewrite fix_lines_renumbered by lia.
Qed.

Lemma fix_numbering_str_again (text : string) :
  fix_numbering_str (fix_numbering_str text) = fix_numbering_str text.
Proof.
  rewrite (fix_numbering_str_renumbered (fix_numbering_str text)).
  rewrite (fix_numbering_str_renumbered text).
  rewrite split_join.
  - now rewrite renumbered_again.
  - intros H. apply (f_equal (@List.length string)) in H.
    rewrite renumbered_length in H.
    pose proof (split_nonempty newline text) as Hne.
    destruct (split newline text); [congruence | discriminate H].
  - apply renumbered_clean, split_lines_clean.
Qed.

End Numbering.

(** X8: [fix_numbering] applied to its own result changes nothing more,
    and a text none of whose lines starts with digits, a dot and a space
    comes back as it is. *)
Theorem fix_numbering_is_idempotent :
  (forall text : pyobj, bind (fix_numbering text) fix_numbering = fix_numbering text)
  /\ forall text : string,
      (forall line, In line (split newline text) -> numbering_match line = None) ->
      fix_numbering (PyStr text) = Returned (Scalar (PyStr text)).
Proof.
  split.
  - intros [[| b | z | s] | l]; try reflexivity.
    cbn [fix_numbering bind]. now rewrite fix_numbering_str_again.
  - intros text Hplain. cbn [fix_numbering].
    rewrite fix_numbering_str_renumbered, renumbered_plain by exact Hplain.
    now rewrite join_split.
Qed.

(** ** format_links_as_markdown, continued *)

Section Links.

Lemma starts_line (sep : ascii) (p : string) :
  contains sep p = false ->
  forall a b, starts p (a +:+ String sep b) = starts p a.
Proof.
  unfold starts. induction p as [|x p IH]; intros Hp a b; [reflexivity|].
  simpl in Hp. apply orb_false_elim in Hp as [Hx Hp].
  destruct a as [|c a].
  - change ("" +:+ String sep b) with (String sep b). simpl. now rewrite Hx.
  - change (String c a +:+ String sep b) with (String c (a +:+ String sep b)).
    simpl. destruct (Ascii.eqb x c); [now apply IH | reflexivity].
Qed.

Lemma occurs_line (sep x : ascii) (p : string) :
  contains sep (String x p) = false ->
  forall a b,
    occurs (String x p) (a +:+ String sep b)
    = occurs (String x p) a || occurs (String x p) b.
Proof.
  intros Hp a b. induction a as [|c a IH].
  - change ("" +:+ String sep b) with (String sep b).
    cbn [occurs]. unfold starts. simpl in Hp. apply orb_false_elim in Hp as [Hx _].
    simpl. now rewrite Hx.
  - change (String c a +:+ String sep b) with (String c (a +:+ String sep b)).
    cbn [occurs].
    change (String c (a +:+ String sep b)) with (String c a +:+ String sep b).
    rewrite (starts_line sep (String x p) Hp), IH. now rewrite orb_assoc.
Qed.

Lemma occurs_join (sep x : ascii) (p : string) (lines : list string) :
  contains sep (String x p) = false ->
  lines <> [] ->
  occurs (String x p) (join (String sep EmptyString) lines)
  = existsb (occurs (String x p)) lines.
Proof.
  intros Hp. induction lines as [|line rest IH]; [congruence|]. intros _.
  destruct rest as [|next rest].
  - simpl. now rewrite orb_false_r.
  - change (join (String sep "") (line :: next :: rest))
      with (line +:+ String sep (join (String sep "") (next :: rest))).
    rewrite (occurs_line sep x p Hp), IH by discriminate. reflexivity.
Qed.

Lemma occurs_skip (x : ascii) (p a b : string) :
  (forall c, In c (list_ascii_of_string a) -> Ascii.eqb x c = false) ->
  occurs (String x p) (a +:+ b) = occurs (String x p) b.
Proof.
  induction a as [|c a IH]; intros Hall; [reflexivity|].
  change (String c a +:+ b) with (String c (a +:+ b)). cbn [occurs].
  unfold starts at 1. simpl. rewrite (Hall c) by now left.
  apply IH. intros c' Hin. apply Hall. now right.
Qed.

Lemma numbering_match_digits (line rest : string) :
  numbering_match line = Some rest ->
  exists digits,
    line = digits +:+ ". " +:+ rest
    /\ forall c, In c (list_ascii_of_string digits) -> is_digit c = true.
Proof.
  unfold numbering_match. destruct (span is_digit line) as [digits r] eqn:Hs.
  destruct digits as [|d digits]; [discriminate|]. intros H.
  apply strip_prefix_spec in H. destruct (span_spec _ _ _ _ Hs) as (Heq & Hdig & _).
  exists (String d digits). split; [now rewrite Heq, H | exact Hdig].
Qed.

Lemma digit_is_no_h (c : ascii) : is_digit c = true -> Ascii.eqb "h" c = false.
Proof.
  intros H. apply Ascii.eqb_neq. intros <-. discriminate H.
Qed.

Lemma occurs_numbered (digits rest : string) :
  (forall c, In c (list_ascii_of_string digits) -> is_digit c = true) ->
  occurs "http" (digits +:+ ". " +:+ rest) = occurs "http" rest.
Proof.
  intros Hdig. rewrite occurs_skip; [reflexivity|].
  intros c Hin. now apply digit_is_no_h, Hdig.
Qed.

Lemma occurs_renumber (block_number : nat) (line : string) :
  occurs "http" (renumber block_number line) = occurs "http" line.
Proof.
  unfold renumber. destruct (numbering_match line) as [rest|] eqn:H; [|reflexivity].
  destruct (numbering_match_digits _ _ H) as (digits & -> & Hdig).
  rewrite (occurs_numbered digits rest Hdig).
  apply occurs_numbered. apply str_of_nat_digits.
Qed.

Lemma occurs_renumbered (lines : list string) :
  forall k,
    existsb (occurs "http") (renumbered k lines) = existsb (occurs "http") lines.
Proof.
  induction lines as [|line rest IH]; intros k; [reflexivity|].
  cbn [renumbered]. destruct (numbering_match line) eqn:H; cbn [existsb].
  - now rewrite occurs_renumber, IH.
  - now rewrite IH.
Qed.

Lemma occurs_fix_numbering (text : string) :
  occurs "http" (fix_numbering_str text) = occurs "http" text.
Proof.
  rewrite fix_numbering_str_renumbered.
  rewrite occurs_join; [| reflexivity |].
  - rewrite occurs_renumbered.
    rewrite <- (occurs_join newline "h" "ttp" (split newline text) eq_refl
                  (split_nonempty newline text)).
    now rewrite join_split.
  - intros H. apply (f_equal (@List.length string)) in H.
    rewrite renumbered_length in H.
    pose proof (split_nonempty newline text) as Hne.
    destruct (split newline text); [congruence | discriminate H].
Qed.

Lemma url_match_needs_http (prev2 prev1 : option ascii) (s : string) :
  starts "http" s = false -> url_match prev2 prev1 s = None.
Proof.
  unfold starts, url_match. intros H.
  destruct (strip_prefix "http" s); [discriminate|].
  now repeat match goal with |- (if ?b then _ else _) = _ => destruct b end.
Qed.

Lemma url_sub_without_http (s : string) :
  occurs "http" s = false ->
  forall prev2 prev1, url_sub prev2 prev1 0 s = s.
Proof.
  induction s as [|c s IH]; intros H prev2 prev1; [reflexivity|].
  cbn [occurs] in H. apply orb_false_elim in H as [Hhead Htail].
  cbn [url_sub]. rewrite (url_match_needs_http _ _ _ Hhead).
  now rewrite (IH Htail).
Qed.

End Links.

(** X9: a text in which [http] does not occur is only renumbered by
    [format_links_as_markdown]: the result is the one of [fix_numbering],
    no bracket is added, and formatting the result again gives the same
    text. *)
Theorem format_links_without_http (text : string) :
  occurs "http" text = false ->
  format_links_as_markdown (PyStr text) = fix_numbering (PyStr text)
  /\ bind (format_links_as_markdown (PyStr text)) format_links_as_markdown
     = format_links_as_markdown (PyStr text).
Proof.
  intros H.
  assert (Hfixed : occurs "http" (fix_numbering_str text) = false)
    by now rewrite occurs_fix_numbering.
  assert (Hfirst : format_links_as_markdown (PyStr text)
                   = Returned (Scalar (PyStr (fix_numbering_str text)))).
  { cbn [format_links_as_markdown convert_testrail_tables_to_markdown fix_numbering bind].
    now rewrite (url_sub_without_http _ Hfixed). }
  split; [exact Hfirst|].
  rewrite Hfirst.
  cbn [format_links_as_markdown convert_testrail_tables_to_markdown fix_numbering bind].
  rewrite fix_numbering_str_again.
  now rewrite (url_sub_without_http _ Hfixed).
Qed.

(** A numbered list without an address. *)
Lemma format_links_without_http_witness :
  format_links_as_markdown (PyStr "0. open
0. close") = fix_numbering (PyStr "0. open
0. close")
  /\ bind (format_links_as_markdown (PyStr "0. open
0. close")) format_links_as_markdown
     = format_links_as_markdown (PyStr "0. open
0. close").
Proof.
  apply (format_links_without_http "0. open
0. close").
  reflexivity.
Defined.

(** ** convert_estimate_time_to_hours, continued *)

Section EstimateWithoutNumbers.

Lemma lstrip_chars (s : string) :
  forall c, In c (list_ascii_of_string (lstrip s)) -> In c (list_ascii_of_string s).
Proof.
  induction s as [|a s IH]; intros c Hin; [exact Hin|].
  simpl in Hin. destruct (is_space a); [right; now apply IH | exact Hin].
Qed.

Lemma rstrip_chars (s : string) :
  forall c, In c (list_ascii_of_string (rstrip s)) -> In c (list_ascii_of_string s).
Proof.
  induction s as [|a s IH]; intros c Hin; [exact Hin|].
  simpl in Hin. destruct (rstrip s) as [|b r] eqn:Hr.
  - destruct (is_space a); [destruct Hin|].
    destruct Hin as [<- | []]. now left.
  - destruct Hin as [<- | Hin]; [now left | right; now apply IH].
Qed.

Lemma strip_chars (s : string) :
  forall c, In c (list_ascii_of_string (strip s)) -> In c (list_ascii_of_string s).
Proof.
  intros c Hin. now apply lstrip_chars, rstrip_chars.
Qed.

Lemma estimate_match_needs_digit (c : ascii) (s : string) :
  is_digit c = false -> estimate_match (String c s) = None.
Proof.
  intros Hc. unfold estimate_match. simpl. now rewrite Hc.
Qed.

Lemma findall_estimate_without_digits (s : string) :
  (forall c, In c (list_ascii_of_string s) -> is_digit c = false) ->
  forall skip, findall_estimate skip s = [].
Proof.
  induction s as [|c s IH]; intros Hall skip; [reflexivity|].
  assert (Hs : forall skip, findall_estimate skip s = []).
  { apply IH. intros c' Hin. apply Hall. now right. }
  cbn [findall_estimate]. destruct skip as [|k]; [|apply Hs].
  rewrite (estimate_match_needs_digit c s (Hall c (or_introl eq_refl))).
  apply Hs.
Qed.

End EstimateWithoutNumbers.

(** X10: an estimate that holds no decimal digit is not parsed, and what
    comes back is the text with the white space at its ends removed, not
    the text as it was given; the call does not raise. *)
Theorem estimate_without_digits_is_trimmed (estimate_string : string) :
  (forall c, In c (list_ascii_of_string estimate_string) -> is_digit c = false) ->
  convert_estimate_time_to_hours (PyStr estimate_string)
  = Returned (Scalar (PyStr (strip estimate_string))).
Proof.
  intros Hall. unfold convert_estimate_time_to_hours.
  destruct estimate_string as [|c s]; [reflexivity|].
  cbn [truthy truthy_scalar is_str negb orb String.eqb]. cbn [bind].
  unfold convert_estimate_str.
  destruct (String.eqb (strip (String c s)) "") eqn:He.
  - reflexivity.
  - rewrite findall_estimate_without_digits; [reflexivity|].
    intros c' Hin. apply Hall. now apply strip_chars.
Qed.

(** The estimate [ soon ], with a space on each side, comes back as
    [soon]. *)
Lemma estimate_without_digits_is_trimmed_witness :
  convert_estimate_time_to_hours (PyStr " soon ") = Returned (Scalar (PyStr "soon")).
Proof.
  apply (estimate_without_digits_is_trimmed " soon ").
  intros c Hin. simpl in Hin.
  repeat (destruct Hin as [<- | Hin]; [reflexivity|]). destruct Hin.
Defined.

(** ** The values of a created enum field *)

Section SplitValues.

Lemma split_length (sep : ascii) (s : string) :
  List.length (split sep s) = S (count_char sep s).
Proof.
  induction s as [|c s IH]; [reflexivity|]. simpl.
  destruct (Ascii.eqb c sep); simpl; [now rewrite IH|].
  destruct (split sep s); simpl in *; [lia | exact IH].
Qed.

Lemma split_single (sep : ascii) (s b : string) : split sep s = [b] -> b = s.
Proof.
  intros H. rewrite <- (join_split sep s), H. reflexivity.
Qed.

Lemma split_two (sep : ascii) (s : string) :
  forall a b, split sep s = [a; b] ->
    contains sep s = true /\ split_once sep s = (a, b).
Proof.
  induction s as [|c s IH]; intros a b H; simpl in H; [discriminate|].
  simpl. destruct (Ascii.eqb c sep) eqn:Hc.
  - inversion H; subst. split; [reflexivity|]. f_equal.
    symmetry. now apply split_single with (sep := sep).
  - destruct (split sep s) as [|h t] eqn:Hs; [discriminate|].
    inversion H; subst. destruct (IH h b eq_refl) as [Hin Honce].
    split; [exact Hin|]. now rewrite Honce.
Qed.

Lemma split_pair_spec (item : string) :
  match Qase.split_pair item with
  | Returned (key, value) =>
      count_char "," item = 1%nat
      /\ contains "," item = true /\ split_once "," item = (key, value)
  | Raised e => e = ValueError /\ count_char "," item <> 1%nat
  end.
Proof.
  unfold Qase.split_pair. pose proof (split_length "," item) as Hlen.
  destruct (split "," item) as [|a [|b [|c l]]] eqn:Hs; simpl in Hlen.
  - split; [reflexivity | lia].
  - split; [reflexivity | lia].
  - split; [lia|]. now apply split_two.
  - split; [reflexivity | lia].
Qed.

Lemma split_values_raised (lines : list string) (e : exn) :
  fold_left split_values_step lines (Raised e) = Raised e.
Proof.
  induction lines as [|line lines IH]; [reflexivity | exact IH].
Qed.

Lemma split_values_outcome (lines : list string) :
  forall acc,
    match fold_left split_values_step lines (Returned acc) with
    | Returned _ =>
        Forall (fun line => line = "" \/ count_char "," line = 1%nat) lines
    | Raised e =>
        e = ValueError
        /\ Exists (fun line => line <> "" /\ count_char "," line <> 1%nat) lines
    end.
Proof.
  induction lines as [|line lines IH]; intros acc; [constructor|].
  cbn [fold_left]. unfold split_values_step at 2. cbn [bind].
  destruct (String.eqb_spec line "") as [-> | Hne].
  - specialize (IH acc).
    destruct (fold_left split_values_step lines (Returned acc)).
    + constructor; [now left | exact IH].
    + destruct IH as [-> IH]. split; [reflexivity | now right].
  - pose proof (split_pair_spec line) as Hpair.
    destruct (Qase.split_pair line) as [[key value] | e]; cbn [bind].
    + destruct Hpair as (Hcount & _).
      specialize (IH (Dict.set String.eqb acc key value)).
      destruct (fold_left split_values_step lines _).
      * constructor; [now right | exact IH].
      * destruct IH as [-> IH]. split; [reflexivity | now right].
    + destruct Hpair as [-> Hcount]. rewrite split_values_raised.
      split; [reflexivity|]. left. now split.
Qed.

Lemma split_values_covers (lines : list string) :
  forall acc parsed values,
    covers acc parsed ->
    fold_left split_values_step lines (Returned acc) = Returned values ->
    covers values (fold_left parse_line lines parsed).
Proof.
  induction lines as [|line lines IH]; intros acc parsed values Hcov H.
  - cbn in H. inversion H; subst. exact Hcov.
  - cbn [fold_left] in *. unfold split_values_step at 2 in H. cbn [bind] in H.
    destruct (String.eqb_spec line "") as [-> | Hne].
    + apply (IH acc); [exact Hcov | exact H].
    + pose proof (split_pair_spec line) as Hpair.
      destruct (Qase.split_pair line) as [[raw value] | e]; cbn [bind] in H.
      * destruct Hpair as (_ & Hin & Honce).
        apply (IH (Dict.set String.eqb acc raw value)); [|exact H].
        unfold parse_line. rewrite Hin, Honce.
        intros key label Hget.
        destruct (String.eqb_spec (strip raw) key) as [<- | Hkey].
        -- rewrite dict_get_set_eq in Hget. inversion Hget; subst.
           exists raw, value. split; [apply dict_get_set_eq | now split].
        -- rewrite dict_get_set_ne in Hget by exact Hkey.
           destruct (Hcov key label Hget) as (raw' & value' & Hraw & Hk & Hl).
           exists raw', value'. split; [|now split].
           rewrite dict_get_set_ne; [exact Hraw|]. intros ->. now apply Hkey.
      * rewrite split_values_raised in H. discriminate H.
Qed.

End SplitValues.

(** X11: [__split_values] raises a [ValueError] exactly when a line that
    is not empty holds no comma or more than one, and raises nothing
    else; when it returns, every key that the items loop of the importer
    parses stands for a raw key of the result, with the trimmed raw value
    as its label.  A label with a comma makes it raise, where the items
    loop keeps the label whole. *)
Theorem split_values_needs_one_comma :
  (forall items : string,
      (Qase.__split_values items = Raised ValueError
       <-> Exists (fun line => line <> "" /\ count_char "," line <> 1%nat)
             (split newline items))
      /\ ((exists values, Qase.__split_values items = Returned values)
          \/ Qase.__split_values items = Raised ValueError)
      /\ forall values,
          Qase.__split_values items = Returned values ->
          covers values (parse_items items))
  /\ Qase.__split_values "1,Low, very low" = Raised ValueError
  /\ parse_items "1,Low, very low" = [("1", "Low, very low")].
Proof.
  split; [|split; reflexivity].
  intros items.
  change (Qase.__split_values items)
    with (fold_left split_values_step (split newline items) (Returned [])).
  pose proof (split_values_outcome (split newline items) []) as Hout.
  split; [|split].
  - destruct (fold_left split_values_step (split newline items) (Returned [])) as [v | e].
    + split; [discriminate|]. intros Hex. exfalso.
      apply Exists_exists in Hex as (line & Hin & Hne & Hcount).
      rewrite Forall_forall in Hout. destruct (Hout line Hin); contradiction.
    + destruct Hout as [-> Hex]. split; [intros _; exact Hex | reflexivity].
  - destruct (fold_left split_values_step (split newline items) (Returned [])) as [v | e].
    + left. now exists v.
    + right. now destruct Hout as [-> _].
  - intros values H. rewrite parse_items_fold.
    apply (split_values_covers (split newline items) [] [] values); [|exact H].
    intros key label Hget. discriminate Hget.
Qed.
Section CreatedValues.

Lemma existsb_eqb_In (v : string) (l : list string) :
  existsb (String.eqb v) l = true <-> In v l.
Proof.
  rewrite existsb_exists. split.
  - intros (x & Hin & Heq). apply String.eqb_eq in Heq. now subst.
  - intros Hin. exists v. split; [exact Hin | apply String.eqb_refl].
Qed.

Lemma nodup_snoc {A : Type} (l : list A) (x : A) :
  List.NoDup l -> ~ In x l -> List.NoDup (l ++ [x]).
Proof.
  induction 1 as [|y l Hy Hl IH]; intros Hx; simpl.
  - constructor; [intros [] | constructor].
  - constructor.
    + rewrite in_app_iff. intros [Hin | [-> | []]]; [now apply Hy | apply Hx; now left].
    + apply IH. intros Hin. apply Hx. now right.
Qed.

Lemma dict_set_fresh (d : list (scalar * string)) (key : scalar) (v : string) :
  (forall k t, In (k, t) d -> Dict.py_eqb k key = false) ->
  Dict.set Dict.py_eqb d key v = d ++ [(key, v)].
Proof.
  induction d as [|[k t] d IH]; intros H; [reflexivity|].
  cbn [Dict.set]. rewrite (H k t) by now left.
  simpl. f_equal. apply IH. intros k' t' Hin. apply (H k' t'). now right.
Qed.

Lemma numbered_ids_bound (dv : list (Z * string)) (start : nat) :
  map fst dv = map Z.of_nat (seq start (List.length dv)) ->
  forall id t, In (id, t) dv ->
    Z.of_nat start <= id < Z.of_nat (start + List.length dv).
Proof.
  intros Hids id t Hin.
  apply (in_map fst) in Hin. rewrite Hids in Hin. cbn [fst] in Hin.
  apply in_map_iff in Hin as (j & <- & Hj). apply in_seq in Hj. lia.
Qed.

Lemma add_value_well_numbered (st : Qase.values_state) (entry : string * string) :
  well_numbered st -> well_numbered (Qase.add_value st entry).
Proof.
  intros (Hqv & Hids & Hnext & Htitles & Hnd & Htrim). unfold Qase.add_value.
  destruct (existsb (String.eqb (strip (snd entry))) (Qase.unique_values st)) eqn:Hseen.
  - now repeat split.
  - assert (Hnew : ~ In (strip (snd entry)) (Qase.unique_values st)).
    { intros Hin. apply existsb_eqb_In in Hin. congruence. }
    unfold well_numbered. cbn [Qase.data_value Qase.field_qase_values
                                 Qase.unique_values Qase.next_id].
    rewrite !map_app, length_app. cbn [map List.length fst snd].
    refine (conj _ (conj _ (conj _ (conj _ (conj _ _))))).
    + rewrite Hqv. rewrite dict_set_fresh; [reflexivity|].
      intros k t Hin. apply in_map_iff in Hin as ([id t'] & Heq & Hin).
      unfold lift_value in Heq. cbn [fst snd] in Heq. inversion Heq; subst.
      pose proof (numbered_ids_bound _ 1 Hids id t Hin) as Hb.
      cbn [Dict.py_eqb]. apply Z.eqb_neq. lia.
    + rewrite Nat.add_1_r, seq_S, map_app, <- Hids, Hnext. reflexivity.
    + rewrite Hnext. lia.
    + now rewrite Htitles.
    + now apply nodup_snoc.
    + apply Forall_app. split; [exact Htrim|].
      constructor; [apply strip_idempotent | constructor].
Qed.

Lemma values_well_numbered (values : list (string * string)) :
  forall st, well_numbered st -> well_numbered (fold_left Qase.add_value values st).
Proof.
  induction values as [|entry values IH]; intros st Hst; [exact Hst|].
  cbn [fold_left]. apply IH. now apply add_value_well_numbered.
Qed.

Lemma no_values_well_numbered : well_numbered Qase.no_values.
Proof.
  unfold well_numbered. cbn. repeat split; constructor.
Qed.

Lemma add_value_keeps (st : Qase.values_state) (entry : string * string) (t : string) :
  In t (Qase.unique_values st) -> In t (Qase.unique_values (Qase.add_value st entry)).
Proof.
  intros Hin. unfold Qase.add_value.
  destruct (existsb _ _); [exact Hin|]. cbn. apply in_app_iff. now left.
Qed.

Lemma values_keep (values : list (string * string)) :
  forall st t,
    In t (Qase.unique_values st) ->
    In t (Qase.unique_values (fold_left Qase.add_value values st)).
Proof.
  induction values as [|entry values IH]; intros st t Hin; [exact Hin|].
  cbn [fold_left]. apply IH. now apply add_value_keeps.
Qed.

Lemma values_seen (values : list (string * string)) :
  forall st key value,
    In (key, value) values ->
    In (strip value) (Qase.unique_values (fold_left Qase.add_value values st)).
Proof.
  induction values as [|entry values IH]; intros st key value Hin; [destruct Hin|].
  cbn [fold_left]. destruct Hin as [-> | Hin]; [|now apply (IH _ key)].
  apply values_keep. unfold Qase.add_value. cbn [snd].
  destruct (existsb _ _) eqn:Hseen; [now apply existsb_eqb_In|].
  cbn. apply in_app_iff. right. now left.
Qed.

Lemma dict_get_In {V : Type} (d : list (string * V)) (k : string) (v : V) :
  Dict.get String.eqb d k = Some v -> In (k, v) d.
Proof.
  induction d as [|[k' v'] d IH]; intros H; [discriminate|].
  cbn [Dict.get] in H. destruct (String.eqb_spec k' k) as [-> | Hne].
  - inversion H; subst. now left.
  - right. now apply IH.
Qed.

Lemma get_lifted (dv : list (Z * string)) :
  forall start,
    map fst dv = map Z.of_nat (seq start (List.length dv)) ->
    forall id t, In (id, t) dv ->
      Dict.get Dict.py_eqb (map lift_value dv) (PyInt id) = Some t.
Proof.
  induction dv as [|[i0 t0] dv IH]; intros start Hids id t Hin; [destruct Hin|].
  cbn [map List.length seq fst] in Hids. inversion Hids as [[Hi0 Hrest]].
  cbn [map Dict.get]. unfold lift_value at 1. cbn [fst snd Dict.py_eqb].
  destruct Hin as [Heq | Hin].
  - inversion Heq; subst. now rewrite Z.eqb_refl.
  - pose proof (numbered_ids_bound dv (S start) Hrest id t Hin) as Hb.
    replace (Z.of_nat start =? id) with false by (symmetry; apply Z.eqb_neq; lia).
    now apply (IH (S start)).
Qed.

Lemma in_lifted (dv : list (Z * string)) (k : scalar) (t : string) :
  In (k, t) (map lift_value dv) <-> exists id, k = PyInt id /\ In (id, t) dv.
Proof.
  rewrite in_map_iff. split.
  - intros ([id t'] & Heq & Hin). unfold lift_value in Heq. cbn in Heq.
    inversion Heq; subst. now exists id.
  - intros (id & -> & Hin). now exists (id, t).
Qed.

(** The values loop on split values that cover the parsed items: every
    parsed label is found by [first_match] under an id that holds it. *)
Lemma created_values_match (values parsed : list (string * string))
    (key label : string) :
  covers values parsed ->
  Dict.get String.eqb parsed key = Some label ->
  let st := fold_left Qase.add_value values Qase.no_values in
  exists target_id,
    Fields.first_match label (Qase.field_qase_values st) = Some target_id
    /\ Dict.get Dict.py_eqb (Qase.field_qase_values st) target_id = Some label.
Proof.
  intros Hcov Hget st.
  destruct (values_well_numbered values _ no_values_well_numbered)
    as (Hqv & Hids & _ & Htitles & _ & Htrim).
  fold st in Hqv, Hids, Htitles, Htrim.
  destruct (Hcov key label Hget) as (raw & value & Hraw & _ & Hlabel).
  assert (Hseen : In label (Qase.unique_values st)).
  { rewrite <- Hlabel. apply (values_seen values _ raw). now apply dict_get_In. }
  assert (Hstripped : strip label = label).
  { rewrite <- Hlabel. apply strip_idempotent. }
  rewrite <- Htitles in Hseen. apply in_map_iff in Hseen as ([id t] & Ht & Hin).
  cbn [snd] in Ht. subst t.
  assert (Hin' : In (PyInt id, label) (Qase.field_qase_values st)).
  { rewrite Hqv. apply in_lifted. now exists id. }
  destruct (first_match_some label _ _ _ Hin' eq_refl) as [target_id Hfirst].
  exists target_id. split; [exact Hfirst|].
  destruct (first_match_sound _ _ _ Hfirst) as (title & Htitle & Hstrip).
  rewrite Hqv in Htitle. apply in_lifted in Htitle as (id' & -> & Hid').
  assert (title = label) as ->.
  { rewrite <- Hstripped, <- Hstrip.
    rewrite List.Forall_forall in Htrim. symmetry. apply Htrim.
    rewrite <- Htitles. apply in_map_iff. now exists (id', title). }
  rewrite Hqv. now apply (get_lifted _ 1%nat Hids).
Qed.

End CreatedValues.

(** X12: the request that [prepare_custom_field_data] builds carries the
    target type of the source type, and its values are numbered 1, 2, ...
    in order with trimmed, pairwise distinct titles; the field is either
    left as it was, with no values in the request, or holds the same
    entries under [qase_values]. *)
Theorem created_values_are_numbered (f f' : field) (type : Z)
    (value : list (Z * string)) :
  Qase.prepare_custom_field_data f = Returned (f', (type, value)) ->
  Dict.get Z.eqb Mappings.custom_fields_type (type_id f) = Some type
  /\ map fst value = map Z.of_nat (seq 1 (List.length value))
  /\ List.NoDup (map snd value)
  /\ Forall (fun title => strip title = title) (map snd value)
  /\ (f' = f /\ value = [] \/ qase_values f' = Some (map lift_value value)).
Proof.
  unfold Qase.prepare_custom_field_data. intros H.
  destruct (Dict.get Z.eqb Mappings.custom_fields_type (type_id f)) as [type'|];
    [|discriminate].
  assert (Hplain : Returned (f, (type', @nil (Z * string))) = Returned (f', (type, value)) ->
                   Some type' = Some type
                   /\ map fst value = map Z.of_nat (seq 1 (List.length value))
                   /\ List.NoDup (map snd value)
                   /\ Forall (fun title => strip title = title) (map snd value)
                   /\ (f' = f /\ value = [] \/ qase_values f' = Some (map lift_value value))).
  { intros Heq. inversion Heq; subst.
    refine (conj eq_refl (conj eq_refl (conj _ (conj _ (or_introl (conj eq_refl eq_refl))))));
      constructor. }
  destruct (configs f) as [|config rest]; [now apply Hplain|].
  destruct (items (options config)) as [items|]; [|now apply Hplain].
  destruct (((type_id f =? 12) || (type_id f =? 6)) && negb (String.eqb items ""));
    [|now apply Hplain].
  destruct (Qase.__split_values items) as [values | e]; [|discriminate].
  cbn [bind] in H. inversion H; subst. clear H Hplain.
  destruct (values_well_numbered values _ no_values_well_numbered)
    as (Hqv & Hids & _ & Htitles & Hnd & Htrim).
  split; [reflexivity|]. split; [exact Hids|].
  rewrite Htitles. split; [exact Hnd|]. split; [exact Htrim|].
  right. cbn. now rewrite Hqv.
Qed.

(** The sample field of type 12: target type 6 and the values 1 Low,
    2 High and 3 Mid. *)
Lemma created_values_are_numbered_witness :
  Dict.get Z.eqb Mappings.custom_fields_type (type_id (sample_enum_field 12)) = Some 6
  /\ map fst [(1, "Low"); (2, "High"); (3, "Mid")]
     = map Z.of_nat (seq 1 (List.length [(1, "Low"); (2, "High"); (3, "Mid")]))
  /\ List.NoDup (map snd [(1, "Low"); (2, "High"); (3, "Mid")])
  /\ Forall (fun title => strip title = title) (map snd [(1, "Low"); (2, "High"); (3, "Mid")])
  /\ (Qase.with_qase_values (sample_enum_field 12)
        [(PyInt 1, "Low"); (PyInt 2, "High"); (PyInt 3, "Mid")]
      = sample_enum_field 12
      /\ [(1, "Low"); (2, "High"); (3, "Mid")] = []
      \/ qase_values
           (Qase.with_qase_values (sample_enum_field 12)
              [(PyInt 1, "Low"); (PyInt 2, "High"); (PyInt 3, "Mid")])
         = Some (map lift_value [(1, "Low"); (2, "High"); (3, "Mid")])).
Proof.
  apply (created_values_are_numbered (sample_enum_field 12)
           (Qase.with_qase_values (sample_enum_field 12)
              [(PyInt 1, "Low"); (PyInt 2, "High"); (PyInt 3, "Mid")])
           6 [(1, "Low"); (2, "High"); (3, "Mid")]).
  reflexivity.
Defined.

Section CreatedField.

Lemma created_field_spec
    (create_custom_field : Z * list (Z * string) -> Z)
    (f : field) (m m' : Mappings.t)
    (config : config) (rest : list Schema.config) (items : string) :
  configs f = config :: rest ->
  Schema.items (options config) = Some items ->
  type_id f = 6 \/ type_id f = 12 ->
  (forall data, 0 < create_custom_field data) ->
  FieldCreation.create_new_global_field create_custom_field f m = Returned m' ->
  exists f',
    Mappings.custom_fields m' !! name f = Some f'
    /\ name f' = name f /\ configs f' = configs f /\ type_id f' = type_id f
    /\ project_id f' = project_id f /\ project_code f' = project_code f
    /\ 0 < qase_id f'
    /\ forall key label,
        Dict.get String.eqb (parse_items items) key = Some label ->
        exists values mapping target_id,
          qase_values f' = Some values
          /\ tr_key_to_qase_id f' = Some mapping
          /\ Dict.get String.eqb mapping key = Some target_id
          /\ Dict.get Dict.py_eqb values target_id = Some label.
Proof.
  intros Hconfigs Hitems Htype Haccepted H.
  unfold FieldCreation.create_new_global_field, Qase.prepare_custom_field_data in H.
  assert (Hknown : exists type,
             Dict.get Z.eqb Mappings.custom_fields_type (type_id f) = Some type).
  { destruct Htype as [-> | ->]; eexists; reflexivity. }
  destruct Hknown as [type Hknown]. rewrite Hknown, Hconfigs, Hitems in H.
  assert (Henum : (type_id f =? 12) || (type_id f =? 6) = true).
  { destruct Htype as [-> | ->]; reflexivity. }
  rewrite Henum in H. cbn [andb] in H.
  destruct (String.eqb_spec items "") as [-> | Hne]; cbn [negb] in H.
  - cbn [bind] in H.
    rewrite (proj2 (Z.ltb_lt _ _) (Haccepted _)) in H.
    assert (Hsame : (if FieldCreation.has_qase_values
                          (FieldCreation.with_qase_id f (create_custom_field (type, [])))
                     then Fields._create_tr_key_to_qase_id_mapping
                            (FieldCreation.with_qase_id f (create_custom_field (type, [])))
                     else Returned
                            (FieldCreation.with_qase_id f (create_custom_field (type, []))))
                    = Returned
                        (FieldCreation.with_qase_id f (create_custom_field (type, [])))).
    { destruct (FieldCreation.has_qase_values _); [|reflexivity].
      unfold Fields._create_tr_key_to_qase_id_mapping.
      cbn [FieldCreation.with_qase_id configs]. now rewrite Hconfigs, Hitems. }
    rewrite Hsame in H. cbn [bind] in H. inversion H; subst.
    eexists. split; [apply lookup_insert_eq|].
    refine (conj eq_refl (conj eq_refl (conj eq_refl (conj eq_refl
              (conj eq_refl (conj (Haccepted _) _)))))).
    intros key label Hget. discriminate Hget.
  - pose proof (split_values_covers (split newline items) [] [] ) as Hcovers.
    change (fold_left split_values_step (split newline items) (Returned []))
      with (Qase.__split_values items) in Hcovers.
    destruct (Qase.__split_values items) as [values | e]; [|discriminate H].
    specialize (Hcovers values (fun key label Hget => ltac:(discriminate Hget)) eq_refl).
    rewrite <- parse_items_fold in Hcovers.
    cbn [bind] in H.
    rewrite (proj2 (Z.ltb_lt _ _) (Haccepted _)) in H.
    set (st := fold_left Qase.add_value values Qase.no_values) in *.
    unfold FieldCreation.has_qase_values in H.
    cbn [FieldCreation.with_qase_id Qase.with_qase_values qase_values] in H.
    destruct (Qase.field_qase_values st) as [|entry entries] eqn:Hqv.
    + cbn [bind] in H. inversion H; subst.
      eexists. split; [apply lookup_insert_eq|].
    refine (conj eq_refl (conj eq_refl (conj eq_refl (conj eq_refl
              (conj eq_refl (conj (Haccepted _) _)))))).
      intros key label Hget. exfalso.
      destruct (created_values_match values _ key label Hcovers Hget)
        as (target_id & Hfirst & _).
      fold st in Hfirst. rewrite Hqv in Hfirst. discriminate Hfirst.
    + unfold Fields._create_tr_key_to_qase_id_mapping in H.
      cbn [configs qase_values FieldCreation.with_qase_id Qase.with_qase_values] in H.
      rewrite Hconfigs, Hitems in H. cbn [truthy_scalar] in H.
      rewrite (proj2 (String.eqb_neq _ _) Hne) in H. cbn [negb bind] in H.
      inversion H; subst.
      eexists. split; [apply lookup_insert_eq|].
    refine (conj eq_refl (conj eq_refl (conj eq_refl (conj eq_refl
              (conj eq_refl (conj (Haccepted _) _)))))).
      intros key label Hget.
      destruct (created_values_match values _ key label Hcovers Hget)
        as (target_id & Hfirst & Hback).
      fold st in Hfirst, Hback. rewrite Hqv in Hfirst, Hback.
      exists (entry :: entries),
        (Fields.match_values (parse_items items) (entry :: entries)), target_id.
      cbn [with_tr_key_to_qase_id qase_values tr_key_to_qase_id].
      refine (conj eq_refl (conj eq_refl (conj _ Hback))).
      rewrite match_values_get, Hget. exact Hfirst.
Qed.

End CreatedField.

(** X13: when a global enum field with items is created and the target
    accepts the request, the field is stored under its name, and every
    key of its items is mapped to a target id under which [qase_values]
    holds the trimmed label of the key: on this path the mapping is
    exact. *)
Theorem created_enum_field_round_trip
    (create_custom_field : Z * list (Z * string) -> Z)
    (f : field) (m m' : Mappings.t)
    (config : config) (rest : list Schema.config) (items : string) :
  configs f = config :: rest ->
  Schema.items (options config) = Some items ->
  type_id f = 6 \/ type_id f = 12 ->
  (forall data, 0 < create_custom_field data) ->
  FieldCreation.create_new_global_field create_custom_field f m = Returned m' ->
  exists f',
    Mappings.custom_fields m' !! name f = Some f'
    /\ forall key label,
        Dict.get String.eqb (parse_items items) key = Some label ->
        exists values mapping target_id,
          qase_values f' = Some values
          /\ tr_key_to_qase_id f' = Some mapping
          /\ Dict.get String.eqb mapping key = Some target_id
          /\ Dict.get Dict.py_eqb values target_id = Some label.
Proof.
  intros Hconfigs Hitems Htype Haccepted H.
  destruct (created_field_spec _ _ _ _ _ _ _ Hconfigs Hitems Htype Haccepted H)
    as (f' & Hstored & _ & _ & _ & _ & _ & _ & Hkeys).
  exists f'. split; [exact Hstored | exact Hkeys].
Qed.

(** The sample field of type 12, created under the id 7: the keys 1, 2
    and 3 are mapped to the ids 1, 2 and 3 of Low, High and Mid. *)
Lemma created_enum_field_round_trip_witness :
  exists f',
    Mappings.custom_fields
      (FieldCreation.store_custom_field Mappings.init sample_created_field)
      !! name (sample_enum_field 12) = Some f'
    /\ forall key label,
        Dict.get String.eqb (parse_items "1,Low
2,High
3,Mid") key = Some label ->
        exists values mapping target_id,
          qase_values f' = Some values
          /\ tr_key_to_qase_id f' = Some mapping
          /\ Dict.get String.eqb mapping key = Some target_id
          /\ Dict.get Dict.py_eqb values target_id = Some label.
Proof.
  apply (created_enum_field_round_trip (fun _ => 7) (sample_enum_field 12)
           Mappings.init
           (FieldCreation.store_custom_field Mappings.init sample_created_field)
           {| context := {| is_global := true; project_ids := None |};
              options := {| items := Some "1,Low
2,High
3,Mid" |} |} [] "1,Low
2,High
3,Mid").
  - reflexivity.
  - reflexivity.
  - now right.
  - intros data. lia.
  - reflexivity.
Defined.

(** ** The Refs field of a case *)

Section Quote.

Lemma quote_char_spec (c : ascii) :
  all_chars url_char (Urllib.quote_char c)
  /\ (safe_char c = true -> Urllib.quote_char c = String c EmptyString).
Proof.
  destruct c as [[] [] [] [] [] [] [] []];
    (split; [intros c Hin; vm_compute in Hin;
             repeat (destruct Hin as [<- | Hin]; [reflexivity|]); destruct Hin
            | intros H; try reflexivity; discriminate H]).
Qed.

Lemma chars_append (a b : string) :
  list_ascii_of_string (a +:+ b) = list_ascii_of_string a ++ list_ascii_of_string b.
Proof.
  induction a as [|c a IH]; [reflexivity|].
  change (String c a +:+ b) with (String c (a +:+ b)). simpl. now rewrite IH.
Qed.

Lemma all_chars_append (p : ascii -> bool) (a b : string) :
  all_chars p (a +:+ b) <-> all_chars p a /\ all_chars p b.
Proof.
  unfold all_chars. setoid_rewrite chars_append. setoid_rewrite in_app_iff.
  split.
  - intros H. split; intros c Hin; apply H; [now left | now right].
  - intros [Ha Hb] c [Hin | Hin]; [now apply Ha | now apply Hb].
Qed.

Lemma quote_chars (s : string) : all_chars url_char (Urllib.quote s).
Proof.
  induction s as [|c s IH]; [intros c []|].
  cbn [Urllib.quote]. apply all_chars_append. split; [apply quote_char_spec | exact IH].
Qed.

Lemma quote_safe (s : string) : all_chars safe_char s -> Urllib.quote s = s.
Proof.
  induction s as [|c s IH]; intros H; [reflexivity|].
  cbn [Urllib.quote].
  rewrite (proj2 (quote_char_spec c)) by (apply H; now left).
  rewrite IH by (intros c' Hin; apply H; now right). reflexivity.
Qed.

Lemma url_char_plain (c : ascii) :
  url_char c = true -> is_space c = false /\ c <> "("%char /\ c <> ")"%char.
Proof.
  destruct c as [[] [] [] [] [] [] [] []]; intros H; try discriminate H;
    (split; [reflexivity | split; discriminate]).
Qed.

End Quote.

(** X14: [_get_ref] returns the reference in square brackets followed by
    a link target in round brackets; the target holds only characters
    that [quote] leaves alone and percent signs, so no white space and no
    bracket; when the reference and the base address hold only such
    unescaped characters the target is the reference itself if it starts
    with http and the base address, a slash and the reference otherwise.
    A reference that is already percent-encoded is encoded once more. *)
Theorem get_ref_link_is_encoded :
  (forall ref url : string,
      exists link,
        CaseRefs._get_ref ref url = "[" +:+ ref +:+ "](" +:+ link +:+ ")"
        /\ (forall c, In c (list_ascii_of_string link) ->
              url_char c = true
              /\ is_space c = false /\ c <> "("%char /\ c <> ")"%char)
        /\ (all_chars safe_char ref -> all_chars safe_char url ->
            link = if starts "http" ref then ref else url +:+ "/" +:+ ref))
  /\ CaseRefs._get_ref "JIRA-1" "https://x.io/browse"
     = "[JIRA-1](https://x.io/browse/JIRA-1)"
  /\ CaseRefs._get_ref "http://x.io/a%20b" "https://x.io/browse"
     = "[http://x.io/a%20b](http://x.io/a%2520b)".
Proof.
  split; [|split; reflexivity].
  intros ref url. unfold CaseRefs._get_ref, starts.
  destruct (strip_prefix "http" ref) as [r|].
  - exists (Urllib.quote ref). split; [reflexivity|]. split.
    + intros c Hin. pose proof (quote_chars ref c Hin) as Hc.
      split; [exact Hc | now apply url_char_plain].
    + intros Href _. now apply quote_safe.
  - exists (Urllib.quote (url +:+ "/" +:+ ref)). split; [reflexivity|]. split.
    + intros c Hin. pose proof (quote_chars _ c Hin) as Hc.
      split; [exact Hc | now apply url_char_plain].
    + intros Href Hurl. apply quote_safe.
      apply all_chars_append. split; [exact Hurl|].
      apply all_chars_append. split; [|exact Href].
      intros c [<- | []]. reflexivity.
Qed.


(** ** From the creation of an enum field to the import of a case *)

Section CreatedFieldImport.

Import Cases.

Lemma select_single_config (project_testrail_id : Z) (f : field) (config : config) :
  configs f = [config] -> select_configs project_testrail_id f = Returned [config].
Proof.
  intros Hc. unfold select_configs. rewrite Hc.
  destruct (has_project_id f && has_project_code f); [reflexivity|].
  cbn [find]. now destruct (match project_ids (context config) with
                            | Some ids => _ | None => false end).
Qed.

Lemma validated_are_keys (project_testrail_id : Z) (f : field) (config : config)
    (items : string) (raw : pyobj) (log log1 : list warning) (value : list scalar) :
  configs f = [config] ->
  Schema.items (options config) = Some items ->
  _validate_custom_field_values project_testrail_id f raw log
  = Returned (Some value, log1) ->
  value <> []
  /\ Forall (fun v => Dict.mem String.eqb (parse_items items) (str v) = true) value
  /\ match raw with PyList _ => True | Scalar _ => log1 = log end.
Proof.
  intros Hc Hi H. unfold _validate_custom_field_values in H.
  destruct (truthy raw); cbn [negb] in H; [|discriminate].
  rewrite (select_single_config _ _ _ Hc) in H. cbn [bind] in H.
  rewrite Hi in H. destruct (String.eqb items ""); [discriminate|].
  destruct raw as [x | l].
  - destruct (Dict.mem String.eqb (parse_items items) (str x)) eqn:Hx; [|discriminate].
    inversion H; subst. split; [discriminate|]. split; [|reflexivity].
    constructor; [exact Hx | constructor].
  - destruct (List.filter _ l) as [|v vs] eqn:Hf; [discriminate|].
    inversion H; subst value log1. split; [discriminate|]. split; [|exact I].
    rewrite <- Hf. apply List.Forall_forall. intros v' Hin.
    apply filter_In in Hin. exact (proj2 Hin).
Qed.

Lemma dict_mem_get {V : Type} (d : list (string * V)) (k : string) :
  Dict.mem String.eqb d k = true -> exists v, Dict.get String.eqb d k = Some v.
Proof.
  unfold Dict.mem. destruct (Dict.get String.eqb d k) as [v|]; [eauto | discriminate].
Qed.

Lemma emitted_all_mapped (f : field) (value : list scalar) :
  Forall (fun v => is_Some (mapped f (str v))) value ->
  flat_map (emitted f) value = map (mapped_or_raw f) value
  /\ List.filter (unmapped f) value = [].
Proof.
  induction 1 as [|v value [target_id Hv] _ [IHe IHu]]; [split; reflexivity|].
  cbn [flat_map map List.filter]. unfold emitted at 1, unmapped at 1, mapped_or_raw at 1.
  rewrite Hv. cbn [app]. now rewrite IHe, IHu.
Qed.

End CreatedFieldImport.



(** ** send_request *)

Section Retries.

Import TestrailApi.

Variable request : Z -> answer.
Variable max_retries : Z.
Variable backoff_factor : Z.

Lemma attempts_repeated (remaining : nat) :
  forall attempt pauses,
    0 <= attempt ->
    attempt + Z.of_nat remaining = max_retries + 1 ->
    (forall i, attempt <= i <= max_retries ->
               rate_limited (request i) || backed_off (request i) = true) ->
    attempts request max_retries backoff_factor remaining attempt pauses
    = (if (0 <? Z.of_nat remaining) && negb (rate_limited (request max_retries))
       then APIError "Max retries reached or server error."
       else NoValue,
       pauses ++ map (fun i => pause_after backoff_factor request (attempt + Z.of_nat i))
                   (seq 0 remaining)).
Proof.
  induction remaining as [|remaining IH]; intros attempt pauses Hpos Hsum Hall.
  - cbn. now rewrite app_nil_r.
  - cbn [attempts seq map]. rewrite <- seq_shift, map_map.
    replace (attempt + Z.of_nat 0) with attempt by lia.
    assert (Hnext : forall pauses',
               attempt <> max_retries ->
               attempts request max_retries backoff_factor remaining (attempt + 1) pauses'
               = (if negb (rate_limited (request max_retries))
                  then APIError "Max retries reached or server error."
                  else NoValue,
                  pauses' ++ map (fun i => pause_after backoff_factor request
                                              (attempt + Z.of_nat (S i)))
                               (seq 0 remaining))).
    { intros pauses' Hne. rewrite IH; [|lia|lia|intros i Hi; apply Hall; lia].
      replace (0 <? Z.of_nat remaining) with true by (symmetry; apply Z.ltb_lt; lia).
      cbn [andb]. f_equal. f_equal. apply map_ext. intros i. f_equal. lia. }
    assert (Hlast : attempt = max_retries -> remaining = O) by lia.
    replace (0 <? Z.of_nat (S remaining)) with true by (symmetry; apply Z.ltb_lt; lia).
    cbn [andb].
    assert (Hhere : attempt <= attempt <= max_retries) by lia.
    specialize (Hall attempt Hhere). clear Hhere. unfold pause_after at 1.
    destruct (request attempt) as [status_code json|] eqn:Hanswer;
      cbn [rate_limited backed_off] in *.
    + destruct (status_code =? 429) eqn:H429.
      * destruct (Z.eq_dec attempt max_retries) as [Heq | Hne].
        -- rewrite (Hlast Heq). subst attempt. rewrite Hanswer.
           cbn [rate_limited]. rewrite H429. cbn. reflexivity.
        -- rewrite (Hnext _ Hne). now rewrite <- app_assoc.
      * cbn [orb negb andb] in Hall.
        apply andb_prop in Hall as [Hall H400]. apply andb_prop in Hall as [H201 H403].
        apply negb_true_iff in H400, H403, H201. rewrite H201, H403, H400.
        destruct (Z.eqb_spec attempt max_retries) as [Heq | Hne].
        -- rewrite (Hlast Heq). subst attempt. rewrite Hanswer.
           cbn [rate_limited]. rewrite H429. cbn. reflexivity.
        -- rewrite (Hnext _ Hne). now rewrite <- app_assoc.
    + destruct (Z.eqb_spec attempt max_retries) as [Heq | Hne].
      * rewrite (Hlast Heq). subst attempt. rewrite Hanswer. cbn. reflexivity.
      * rewrite (Hnext _ Hne). now rewrite <- app_assoc.
Qed.

Lemma attempts_until (k : nat) :
  forall remaining attempt pauses,
    (k < remaining)%nat ->
    attempt + Z.of_nat k <= max_retries ->
    (forall i, (i < k)%nat ->
               rate_limited (request (attempt + Z.of_nat i))
               || backed_off (request (attempt + Z.of_nat i)) = true) ->
    attempts request max_retries backoff_factor remaining attempt pauses
    = attempts request max_retries backoff_factor (remaining - k)
        (attempt + Z.of_nat k)
        (pauses ++ map (fun i => pause_after backoff_factor request (attempt + Z.of_nat i))
                     (seq 0 k)).
Proof.
  induction k as [|k IH]; intros remaining attempt pauses Hk Hmax Hall.
  - cbn. rewrite app_nil_r, Nat.sub_0_r. f_equal. lia.
  - destruct remaining as [|remaining]; [lia|].
    cbn [attempts seq map]. rewrite <- seq_shift, map_map.
    replace (attempt + Z.of_nat 0) with attempt by lia.
    assert (Hnext : forall pauses',
               attempts request max_retries backoff_factor remaining (attempt + 1) pauses'
               = attempts request max_retries backoff_factor (S remaining - S k)
                   (attempt + Z.of_nat (S k))
                   (pauses' ++ map (fun i => pause_after backoff_factor request
                                               (attempt + Z.of_nat (S i)))
                                (seq 0 k))).
    { intros pauses'. rewrite (IH remaining (attempt + 1)); [|lia|lia|].
      - cbn [Nat.sub]. f_equal; [lia|]. f_equal. apply map_ext. intros i. f_equal. lia.
      - intros i Hi. replace (attempt + 1 + Z.of_nat i) with (attempt + Z.of_nat (S i)) by lia.
        apply Hall. lia. }
    assert (Hne : (attempt =? max_retries) = false) by (apply Z.eqb_neq; lia).
    pose proof (Hall 0%nat (Nat.lt_0_succ k)) as H0.
    replace (attempt + Z.of_nat 0) with attempt in H0 by lia.
    unfold pause_after at 1.
    destruct (request attempt) as [status_code json|] eqn:Hanswer;
      cbn [rate_limited backed_off] in *.
    + destruct (status_code =? 429) eqn:H429.
      * rewrite Hnext. now rewrite <- app_assoc.
      * cbn [orb negb andb] in H0.
        apply andb_prop in H0 as [H0 H400]. apply andb_prop in H0 as [H201 H403].
        apply negb_true_iff in H400, H403, H201. rewrite H201, H403, H400, Hne.
        rewrite Hnext. now rewrite <- app_assoc.
    + rewrite Hne, Hnext. now rewrite <- app_assoc.
Qed.

Lemma backoff_seconds_sum (first : Z) (n : nat) :
  0 <= first ->
  backoff_seconds
    (map (fun i => Backoff (backoff_factor * 2 ^ (first + Z.of_nat i))) (seq 0 n))
  = backoff_factor * 2 ^ first * (2 ^ Z.of_nat n - 1).
Proof.
  intros Hfirst. induction n as [|n IH].
  - cbn. lia.
  - rewrite seq_S, map_app. cbn [map Nat.add].
    unfold backoff_seconds in *. rewrite fold_right_app. cbn [fold_right].
    assert (Hshift : forall l base,
               fold_right
                 (fun p total => match p with
                                 | Backoff seconds => seconds + total
                                 | RetryDelay => total
                                 end) base l
               = fold_right
                   (fun p total => match p with
                                   | Backoff seconds => seconds + total
                                   | RetryDelay => total
                                   end) 0 l + base).
    { induction l as [|p l IHl]; intros base; [reflexivity|].
      cbn [fold_right]. rewrite IHl. destruct p; lia. }
    rewrite Hshift, IH.
    rewrite Nat2Z.inj_succ, Z.pow_succ_r by lia.
    rewrite Z.pow_add_r by lia. lia.
Qed.

End Retries.







(** ** The selection of the fields to import *)

Section Selection.

Import FieldSelection.

Lemma get_fields_to_import_names (names : list string) (custom_fields : list case_field) :
  _get_fields_to_import (Some names) custom_fields
  = Some (wanted_names names custom_fields).
Proof.
  destruct names as [|n names]; [|reflexivity].
  cbn [_get_fields_to_import wanted_names]. f_equal.
  assert (H : forall acc,
             fold_left
               (fun fields_to_import field =>
                  match strip_prefix "custom_" (system_name field) with
                  | Some _ => fields_to_import ++ [name (body field)]
                  | None => fields_to_import
                  end) custom_fields acc
             = acc ++ map (fun cf => name (body cf))
                        (List.filter (fun cf => starts "custom_" (system_name cf))
                           custom_fields)).
  { induction custom_fields as [|cf cfs IH]; intros acc; [now rewrite app_nil_r|].
    cbn [fold_left List.filter]. unfold starts at 1.
    destruct (strip_prefix "custom_" (system_name cf)).
    - rewrite IH. cbn [map]. now rewrite <- app_assoc.
    - apply IH. }
  apply H.
Qed.

Lemma select_fields_spec (names : list string) (custom_fields : list case_field) :
  forall created step_fields,
    select_fields (Some names) custom_fields created step_fields
    = Returned
        (created
         ++ List.filter
              (fun cf => existsb (String.eqb (name (body cf))) names
                         && is_active cf && known_type (type_id (body cf)))
              custom_fields,
         step_fields
         ++ map (fun cf => name (body cf))
              (List.filter (fun cf => type_id (body cf) =? 10) custom_fields)).
Proof.
  induction custom_fields as [|cf cfs IH]; intros created step_fields.
  - cbn. now rewrite !app_nil_r.
  - cbn [select_fields List.filter]. rewrite IH.
    destruct (existsb (String.eqb (name (body cf))) names && is_active cf);
      destruct (known_type (type_id (body cf)));
      destruct (type_id (body cf) =? 10);
      cbn [andb map]; rewrite <- ?app_assoc; reflexivity.
Qed.

Lemma prepare_known_type (f : field) (e : exn) :
  known_type (type_id f) = true ->
  Qase.prepare_custom_field_data f = Raised e -> e = ValueError.
Proof.
  unfold known_type, Dict.mem, Qase.prepare_custom_field_data. intros Hknown H.
  destruct (Dict.get Z.eqb Mappings.custom_fields_type (type_id f)); [|discriminate].
  destruct (configs f) as [|config rest]; [discriminate|].
  destruct (items (options config)) as [items|]; [|discriminate].
  destruct (((type_id f =? 12) || (type_id f =? 6)) && negb (String.eqb items ""));
    [|discriminate].
  pose proof (split_values_outcome (split newline items) []) as Hout.
  change (fold_left split_values_step (split newline items) (Returned []))
    with (Qase.__split_values items) in Hout.
  destruct (Qase.__split_values items) as [values | e']; [discriminate|].
  cbn [bind] in H. inversion H; subst. now destruct Hout.
Qed.

End Selection.

(** X20: with [tests.fields] not set the loop over the source fields of
    [import_fields_async] raises a [TypeError] as soon as there is a
    field; with a list it hands to [_create_custom_field] exactly the
    active fields of a known type whose name is listed (for an empty
    list: is the name of a field whose system name starts with
    [custom_]), in order, and records as step fields the names of all
    fields of type 10; and for no field handed over does
    [prepare_custom_field_data] raise a [KeyError]: it returns, or raises
    the [ValueError] of a malformed items line. *)
Theorem import_fields_selection_spec :
  (forall custom_fields,
      custom_fields <> [] ->
      FieldSelection.import_fields_selection None custom_fields = Raised TypeError)
  /\ (forall names custom_fields,
        FieldSelection.import_fields_selection (Some names) custom_fields
        = Returned
            (List.filter
               (fun cf =>
                  existsb (String.eqb (name (FieldSelection.body cf)))
                    (wanted_names names custom_fields)
                  && FieldSelection.is_active cf
                  && FieldSelection.known_type (type_id (FieldSelection.body cf)))
               custom_fields,
             map (fun cf => name (FieldSelection.body cf))
               (List.filter (fun cf => type_id (FieldSelection.body cf) =? 10)
                  custom_fields)))
  /\ (forall tests_fields custom_fields created step_fields,
        FieldSelection.import_fields_selection tests_fields custom_fields
        = Returned (created, step_fields) ->
        forall cf, In cf created ->
          (exists prepared, Qase.prepare_custom_field_data (FieldSelection.body cf)
                            = Returned prepared)
          \/ Qase.prepare_custom_field_data (FieldSelection.body cf) = Raised ValueError).
Proof.
  refine (conj _ (conj _ _)).
  - intros [|cf cfs] Hne; [contradiction | reflexivity].
  - intros names custom_fields. unfold FieldSelection.import_fields_selection.
    rewrite get_fields_to_import_names. now rewrite select_fields_spec.
  - intros tests_fields custom_fields created step_fields H cf Hin.
    assert (Hknown : FieldSelection.known_type (type_id (FieldSelection.body cf)) = true).
    { unfold FieldSelection.import_fields_selection in H.
      destruct tests_fields as [names|].
      - rewrite get_fields_to_import_names, select_fields_spec in H.
        inversion H; subst. cbn [app] in Hin. apply filter_In in Hin as [_ Hcf].
        now apply andb_prop in Hcf as [_ Hcf].
      - destruct custom_fields; [|discriminate H].
        cbn in H. inversion H; subst. destruct Hin. }
    destruct (Qase.prepare_custom_field_data (FieldSelection.body cf)) as [prepared | e] eqn:Hp.
    + left. now exists prepared.
    + right. now rewrite (prepare_known_type _ e Hknown Hp).
Qed.

(** ** The steps of a step field *)

Section Steps.

Variable replace_attachments : string -> string.

Lemma strip_is_no_space (s : string) : strip s <> " ".
Proof.
  unfold strip. destruct (lstrip_head s) as [-> | (c & r & -> & Hc)]; [discriminate|].
  rewrite (rstrip_head c r Hc). intros H. inversion H; subst. discriminate Hc.
Qed.

Lemma import_step_kept (acc : list (string * option string * option string * Z))
    (i : Z) (s : CaseSteps.step) :
  CaseSteps.import_step replace_attachments (acc, i) s
  = if step_kept replace_attachments s
    then (acc ++ [created_step replace_attachments s i], i + 1)
    else (acc, i).
Proof.
  unfold CaseSteps.import_step, step_kept, created_step.
  fold (step_action replace_attachments s).
  fold (step_expected replace_attachments s).
  fold (step_data replace_attachments s).
  destruct (String.eqb_spec (step_action replace_attachments s) "") as [Ha | Ha].
  - rewrite Ha. cbn [negb orb andb String.eqb].
    now destruct (String.eqb (step_expected replace_attachments s) "").
  - cbn [negb orb].
    replace (String.eqb (step_action replace_attachments s) " ") with false
      by (symmetry; apply String.eqb_neq, strip_is_no_space).
    reflexivity.
Qed.

Lemma import_step_numbered (steps : list CaseSteps.step) :
  forall acc i,
    fold_left (CaseSteps.import_step replace_attachments) steps (acc, i)
    = (acc ++ numbered_steps replace_attachments i steps,
       i + Z.of_nat (List.length (List.filter (step_kept replace_attachments) steps))).
Proof.
  induction steps as [|s steps IH]; intros acc i.
  - cbn. rewrite app_nil_r. f_equal. lia.
  - cbn [fold_left numbered_steps List.filter]. rewrite import_step_kept.
    destruct (step_kept replace_attachments s).
    + rewrite IH, <- app_assoc. cbn [app List.length]. f_equal. lia.
    + apply IH.
Qed.

Lemma numbered_steps_positions (steps : list CaseSteps.step) :
  forall i : nat,
    map step_position (numbered_steps replace_attachments (Z.of_nat i) steps)
    = map Z.of_nat
        (seq i (List.length (List.filter (step_kept replace_attachments) steps))).
Proof.
  induction steps as [|s steps IH]; intros i; [reflexivity|].
  cbn [numbered_steps List.filter]. destruct (step_kept replace_attachments s).
  - cbn [map List.length seq]. unfold step_position at 1, created_step. cbn [snd].
    f_equal. replace (Z.of_nat i + 1) with (Z.of_nat (S i)) by lia. apply IH.
  - apply IH.
Qed.

Lemma numbered_steps_In (steps : list CaseSteps.step) (s : CaseSteps.step) :
  In s steps -> step_kept replace_attachments s = true ->
  forall i, exists position,
    In (created_step replace_attachments s position)
       (numbered_steps replace_attachments i steps).
Proof.
  induction steps as [|s' steps IH]; intros Hin Hkept i; [destruct Hin|].
  cbn [numbered_steps]. destruct Hin as [-> | Hin].
  - rewrite Hkept. exists i. now left.
  - destruct (IH Hin Hkept (i + 1)) as [p1 H1]. destruct (IH Hin Hkept i) as [p0 H0].
    destruct (step_kept replace_attachments s'); [exists p1; now right | now exists p0].
Qed.

End Steps.

(** X21: the steps created for a step field are the steps whose trimmed
    action or trimmed expected result is not empty, in order, with the
    positions 1, 2, ... and no gap where a step was dropped; an empty
    action is replaced by [No action]; and a step whose expected result
    is null is never dropped, its expected result being the text
    [None]. *)
Theorem step_field_positions_are_consecutive :
  forall (replace_attachments : string -> string) (steps : list CaseSteps.step),
    let created := CaseSteps.import_step_field replace_attachments steps in
    created = numbered_steps replace_attachments 1 steps
    /\ map step_position created
       = map Z.of_nat
           (seq 1 (List.length (List.filter (step_kept replace_attachments) steps)))
    /\ (forall s, In s steps -> step_kept replace_attachments s = true ->
          exists position, In (created_step replace_attachments s position) created)
    /\ (forall s, In s steps -> CaseSteps.expected s = None ->
          exists action data position,
            In (action, Some "None", data, position) created
            /\ (step_action replace_attachments s = "" ->
                action = "No action")).
Proof.
  intros replace_attachments steps created.
  assert (Hcreated : created = numbered_steps replace_attachments 1 steps).
  { subst created. unfold CaseSteps.import_step_field.
    now rewrite import_step_numbered. }
  split; [exact Hcreated|]. rewrite Hcreated. split; [|split].
  - apply (numbered_steps_positions replace_attachments steps 1).
  - intros s Hin Hkept. now apply numbered_steps_In.
  - intros s Hin Hexpected.
    assert (Hnone : step_expected replace_attachments s = "None").
    { unfold step_expected. now rewrite Hexpected. }
    assert (Hkept : step_kept replace_attachments s = true).
    { unfold step_kept. rewrite Hnone. apply orb_true_r. }
    destruct (numbered_steps_In replace_attachments steps s Hin Hkept 1) as [position Hp].
    unfold created_step in Hp. rewrite Hnone in Hp.
    eexists _, _, position. split; [exact Hp|].
    intros ->. reflexivity.
Qed.

(** ** The TestRail Original ID field *)

Section OriginalIdField.

Lemma last_title_fold (title : string) (qase_custom_fields : list qase_field) :
  forall field_id,
    fold_left
      (fun field_id qase_field =>
         if String.eqb (qase_field_title qase_field) title
         then Some (qase_field_id qase_field)
         else field_id)
      qase_custom_fields field_id
    = match
        find (fun q => String.eqb (qase_field_title q) title) (rev qase_custom_fields)
      with
      | Some q => Some (qase_field_id q)
      | None => field_id
      end.
Proof.
  induction qase_custom_fields as [|q l IH] using rev_ind; intros field_id; [reflexivity|].
  rewrite fold_left_app, rev_app_distr. cbn [fold_left rev app find].
  destruct (String.eqb (qase_field_title q) title); [reflexivity | apply IH].
Qed.

End OriginalIdField.

(** X22: with [tests.preserve_ids] on, the TestRail Original ID field
    is neither looked up nor created and a prepared case carries no
    original id; with it off, the attribute is set to the id of the last
    target field of that title when that id is not 0, and otherwise to
    the answer to one creation request for a string field, and every
    prepared case then carries its original id as text under that id and
    under no other key: when the creation fails with the answer 0, under
    the key 0. *)
Theorem original_id_is_stored_under_the_field_id :
  forall (create_custom_field : custom_field_create -> Z) (preserve_ids : bool)
         (qase_custom_fields : list qase_field) (original_id : Z)
         (data : Cases.payload),
    let result :=
      OriginalId._create_testrail_original_id_field create_custom_field preserve_ids
        qase_custom_fields None in
    let stored := OriginalId.store_original_id preserve_ids (fst result) original_id data in
    (preserve_ids = true -> result = (None, []) /\ stored = data)
    /\ (preserve_ids = false ->
        exists field_id,
          fst result = Some field_id
          /\ match last_titled "TestRail Original ID" qase_custom_fields with
             | Some found => field_id = found /\ snd result = []
             | None =>
                 field_id = create_custom_field OriginalId.original_id_field_data
                 /\ snd result = [OriginalId.original_id_field_data]
             end
          /\ Cases.custom_field stored !! str_of_int field_id = Some (str_of_int original_id)
          /\ forall k, k <> str_of_int field_id ->
               Cases.custom_field stored !! k = Cases.custom_field data !! k)
    /\ Cases.custom_field
         (OriginalId.store_original_id false
            (fst (OriginalId._create_testrail_original_id_field (fun _ => 0) false [] None))
            42 empty_payload) !! "0"
       = Some "42".
Proof.
  intros create_custom_field preserve_ids qase_custom_fields original_id data result stored.
  refine (conj _ (conj _ _)); [| |reflexivity].
  - intros ->. subst stored result. split; reflexivity.
  - intros ->. subst stored result.
    unfold OriginalId._create_testrail_original_id_field, last_titled.
    cbn [negb]. rewrite last_title_fold.
    assert (Hstored : forall field_id,
               Cases.custom_field
                 (OriginalId.store_original_id false (Some field_id) original_id data)
                 !! str_of_int field_id = Some (str_of_int original_id)
               /\ forall k, k <> str_of_int field_id ->
                    Cases.custom_field
                      (OriginalId.store_original_id false (Some field_id) original_id data)
                      !! k = Cases.custom_field data !! k).
    { intros field_id. cbn. split; [apply lookup_insert_eq|].
      intros k Hk. apply lookup_insert_ne. congruence. }
    destruct (find _ (rev qase_custom_fields)) as [q|].
    + destruct (qase_field_id q =? 0) eqn:Hzero.
      * eexists. split; [reflexivity|]. split; [split; reflexivity | apply Hstored].
      * eexists. split; [reflexivity|]. split; [split; reflexivity | apply Hstored].
    + eexists. split; [reflexivity|]. split; [split; reflexivity | apply Hstored].
Qed.

(** ** The mapping from source enum keys to target value ids *)

Section MappingByLabel.

Import Fields.

(** [first_match] finds the first target value whose trimmed title is the
    trimmed source title, and no other. *)
Lemma first_match_first (tr_title : string) (qase_values : list (scalar * string)) :
  forall target_id,
    first_match tr_title qase_values = Some target_id
    <-> exists i title,
          qase_values !! i = Some (target_id, title)
          /\ strip title = strip tr_title
          /\ forall j id t, (j < i)%nat -> qase_values !! j = Some (id, t) ->
                            strip t <> strip tr_title.
Proof.
  induction qase_values as [|[id0 t0] rest IH]; intros target_id.
  - split; [discriminate|]. intros (i & title & Hi & _). destruct i; discriminate Hi.
  - cbn [first_match].
    destruct (String.eqb_spec (strip tr_title) (strip t0)) as [Heq | Hne].
    + split.
      * intros H. inversion H; subst. exists 0%nat, t0.
        split; [reflexivity|]. split; [now symmetry|]. intros j id t Hj. lia.
      * intros (i & title & Hi & Htitle & Hbefore). destruct i as [|i].
        -- cbn in Hi. now inversion Hi.
        -- exfalso. apply (Hbefore 0%nat id0 t0); [lia | reflexivity | now symmetry].
    + rewrite IH. split.
      * intros (i & title & Hi & Htitle & Hbefore). exists (S i), title.
        split; [exact Hi|]. split; [exact Htitle|].
        intros [|j] id t Hj Hlook.
        -- cbn in Hlook. inversion Hlook; subst. congruence.
        -- apply (Hbefore j id t); [lia | exact Hlook].
      * intros (i & title & Hi & Htitle & Hbefore). destruct i as [|i].
        -- cbn in Hi. inversion Hi; subst. congruence.
        -- exists i, title. split; [exact Hi|]. split; [exact Htitle|].
           intros j id t Hj Hlook. apply (Hbefore (S j) id t); [lia | exact Hlook].
Qed.

Lemma lifted_lookup (dv : list (Z * string)) :
  forall (start i : nat) k t,
    map fst dv = map Z.of_nat (seq start (List.length dv)) ->
    map lift_value dv !! i = Some (k, t) ->
    k = PyInt (Z.of_nat (start + i)).
Proof.
  induction dv as [|[id0 t0] dv IH]; intros start i k t Hids Hi;
    [destruct i; discriminate Hi|].
  cbn [map List.length seq fst] in Hids. inversion Hids as [[Hid0 Hrest]].
  destruct i as [|i].
  - cbn in Hi. inversion Hi; subst. now rewrite Nat.add_0_r.
  - cbn in Hi. rewrite (IH (S start) i k t Hrest Hi). f_equal. lia.
Qed.

(** What [prepare_custom_field_data] stores under [qase_values]: keys
    that differ and trimmed titles. *)
Lemma prepared_values_are_trimmed (f0 f : field) (data : Z * list (Z * string))
    (qase_values : list (scalar * string)) :
  Schema.qase_values f0 = None ->
  Qase.prepare_custom_field_data f0 = Returned (f, data) ->
  Schema.qase_values f = Some qase_values ->
  distinct_keys qase_values
  /\ Forall (fun entry => strip (snd entry) = snd entry) qase_values.
Proof.
  unfold Qase.prepare_custom_field_data. intros Hfresh H Hq.
  destruct (Dict.get Z.eqb Mappings.custom_fields_type (type_id f0)) as [type|];
    [|discriminate].
  assert (Hplain : Returned (f0, (type, @nil (Z * string))) = Returned (f, data) ->
                   distinct_keys qase_values
                   /\ Forall (fun entry => strip (snd entry) = snd entry) qase_values).
  { intros Heq. inversion Heq; subst. congruence. }
  destruct (configs f0) as [|config rest]; [now apply Hplain|].
  destruct (items (options config)) as [items|]; [|now apply Hplain].
  destruct (((type_id f0 =? 12) || (type_id f0 =? 6)) && negb (String.eqb items ""));
    [|now apply Hplain].
  destruct (Qase.__split_values items) as [values | e]; [|discriminate].
  cbn [bind] in H. inversion H; subst. clear H Hplain.
  cbn [Qase.with_qase_values Schema.qase_values] in Hq. inversion Hq; subst. clear Hq.
  destruct (values_well_numbered values _ no_values_well_numbered)
    as (Hqv & Hids & _ & Htitles & _ & Htrim).
  rewrite Hqv. split.
  - intros i j k1 t1 k2 t2 Hi Hj Hk.
    rewrite (lifted_lookup _ 1 i k1 t1 Hids Hi) in Hk.
    rewrite (lifted_lookup _ 1 j k2 t2 Hids Hj) in Hk.
    cbn [Dict.py_eqb] in Hk. apply Z.eqb_eq in Hk. lia.
  - apply List.Forall_forall. intros [k t] Hin.
    apply in_lifted in Hin as (id & -> & Hin). cbn [snd].
    rewrite List.Forall_forall in Htrim. apply Htrim.
    rewrite <- Htitles. apply in_map_iff. now exists (id, t).
Qed.

End MappingByLabel.

